(** * MARILib pico-design and electro-fan nacelle: equilibrium solving layer

    Shallow embedding of
    - [network/pico_design/design_model.py] (class [Aircraft]: structural
      regression, Breguet mission relation, standard atmosphere, the
      mass-mission adaptation [design_aircraft], the operational mission
      [operation] and the payload-range lookup [max_capacity]);
    - [aircraft/airframe/power_and_system.py] (class
      [Semi_empiric_ef_nacelle]: [corrected_air_flow], [unitary_thrust],
      [unitary_sc]).

    Conventions.
    - Python and numpy floats are idealised as real numbers ([R]); rounding,
      overflow, infinities and NaN are outside the model.  Where numpy yields
      a non-finite value (logarithm or fractional power of a non-positive
      number, division by zero on numpy scalars) the model yields the value
      of the corresponding Stdlib function; no statement below relies on such
      a value.
    - Python exceptions are values of [exn]; a call either returns ([Ok]) or
      raises ([Raise]).  Methods that assign attributes of [self] are
      state-passing functions that hand back the object also when they raise,
      since an exception does not undo earlier assignments.
    - [scipy.optimize.fsolve] is an external root-finder.  It can only
      interact with the residual function by calling it, so it is modelled as
      a finite query tree ([strategy]). *)

From Stdlib Require Import Reals Lra Lia String List ZArith Bool.
From Equations Require Import Equations.
Import ListNotations.

Open Scope R_scope.

(* ====================================================================== *)
(** ** Python outcomes *)

Module Py.

Inductive exn : Type :=
| Exception (msg : string)
| IndexError
| KeyError (key : string)
| TypeError
| ZeroDivisionError.

Inductive outcome (A : Type) : Type :=
| Ok (a : A)
| Raise (e : exn).

Arguments Ok {A} a.
Arguments Raise {A} e.

Definition obind {A B : Type} (o : outcome A) (k : A -> outcome B) : outcome B :=
  match o with
  | Ok a => k a
  | Raise e => Raise e
  end.

(** [a[i]] on a Python list or numpy array, non-negative [i]. *)
Definition idx (a : list R) (i : nat) : outcome R :=
  match nth_error a i with
  | Some v => Ok v
  | None => Raise IndexError
  end.

(** [a[-1]]: the last element. *)
Definition idx_last (a : list R) : outcome R :=
  match a with
  | [] => Raise IndexError
  | _ => idx a (length a - 1)
  end.

Fixpoint replace_nth (a : list R) (i : nat) (v : R) : list R :=
  match a, i with
  | [], _ => []
  | _ :: t, O => v :: t
  | h :: t, S i' => h :: replace_nth t i' v
  end.

(** [a[i] = v] on a numpy array, non-negative [i]. *)
Definition upd (a : list R) (i : nat) (v : R) : outcome (list R) :=
  if Nat.ltb i (length a) then Ok (replace_nth a i v) else Raise IndexError.

(** Arithmetic on an attribute that may still hold [None]. *)
Definition need (v : option R) : outcome R :=
  match v with
  | Some x => Ok x
  | None => Raise TypeError
  end.

(** State and exception monad: a method of an object of type [S]. *)
Definition M (S A : Type) : Type := S -> outcome A * S.

Definition ret {S A : Type} (a : A) : M S A := fun s => (Ok a, s).

Definition bind {S A B : Type} (m : M S A) (k : A -> M S B) : M S B :=
  fun s => match m s with
           | (Ok a, s') => k a s'
           | (Raise e, s') => (Raise e, s')
           end.

Definition raise {S A : Type} (e : exn) : M S A := fun s => (Raise e, s).

Definition lift {S A : Type} (o : outcome A) : M S A := fun s => (o, s).

Definition gets {S A : Type} (f : S -> A) : M S A := fun s => (Ok (f s), s).

Definition modify {S : Type} (f : S -> S) : M S unit := fun s => (Ok tt, f s).

End Py.

Import Py.

Declare Scope py_scope.
Delimit Scope py_scope with py.
Notation "x <- c1 ;; c2" := (bind c1 (fun x => c2))
  (at level 61, c1 at next level, right associativity) : py_scope.
Notation "c1 ;;; c2" := (bind c1 (fun _ => c2))
  (at level 61, right associativity) : py_scope.
Notation "x <~ c1 ;; c2" := (obind c1 (fun x => c2))
  (at level 61, c1 at next level, right associativity) : py_scope.
Notation "' pat <~ c1 ;; c2" := (obind c1 (fun x => let 'pat := x in c2))
  (at level 61, pat pattern, c1 at next level, right associativity) : py_scope.
Notation "' pat <- c1 ;; c2" := (bind c1 (fun x => let 'pat := x in c2))
  (at level 61, pat pattern, c1 at next level, right associativity) : py_scope.

(* ====================================================================== *)
(** ** The external root-finder *)

Module Solver.

(** A run of [fsolve(func, x0, full_output=True)]: the solver asks for the
    residual at a point and continues from the answer, finitely often, and
    ends with the solution array [x] and the integer flag [ier]
    (element [2] of the returned tuple; [1] means converged). *)
Inductive strategy (X Y : Type) : Type :=
| Done (x : X) (ier : Z)
| Eval (x : X) (k : Y -> strategy X Y).

Arguments Done {X Y} x ier.
Arguments Eval {X Y} x k.

(** Running the solver against a method that may assign attributes and may
    raise; an exception of the callback propagates through [fsolve]. *)
Fixpoint run {S X Y : Type} (f : X -> M S Y) (p : strategy X Y) : M S (X * Z) :=
  match p with
  | Done x ier => ret (x, ier)
  | Eval x k => fun s =>
      match f x s with
      | (Ok y, s') => run f (k y) s'
      | (Raise e, s') => (Raise e, s')
      end
  end.

(** Running the solver against a closure without assignments. *)
Fixpoint answer {X Y : Type} (f : X -> outcome Y) (p : strategy X Y) : outcome (X * Z) :=
  match p with
  | Done x ier => Ok (x, ier)
  | Eval x k =>
      match f x with
      | Ok y => answer f (k y)
      | Raise e => Raise e
      end
  end.

(** The points at which a run evaluates the closure, in order. *)
Fixpoint queries {X Y : Type} (f : X -> outcome Y) (p : strategy X Y) : list X :=
  match p with
  | Done _ _ => []
  | Eval x k =>
      match f x with
      | Ok y => x :: queries f (k y)
      | Raise _ => [x]
      end
  end.

End Solver.

Import Solver.

(* ====================================================================== *)
(** ** design_model.py *)

Module Pico.

(** *** Standard atmosphere (method [Aircraft.atmosphere]; it does not use
    [self]) *)

Definition g_const : R := 9.80665.
Definition r_const : R := 287.053.
Definition gam_const : R := 1.4.

Definition Z_tab : list R := [0; 11000; 20000; 32000; 47000; 50000].
Definition dtodz_tab : list R := [-0.0065; 0; 0.0010; 0.0028; 0].
Definition P_init : list R := [101325; 0; 0; 0; 0; 0].
Definition T_init : list R := [288.15; 0; 0; 0; 0; 0].

(** Body of the [while] loop for the current [j]: fills [T[j+1]], [P[j+1]]. *)
Definition atmosphere_body (j : nat) (T P : list R) : outcome (list R * list R) :=
  (Tj <~ idx T j ;;
   dj <~ idx dtodz_tab j ;;
   Zj1 <~ idx Z_tab (j+1) ;;
   Zj <~ idx Z_tab j ;;
   T' <~ upd T (j+1) (Tj + dj * (Zj1 - Zj)) ;;
   if Rlt_dec 0 (Rabs dj) then
     Pj <~ idx P j ;;
     P' <~ upd P (j+1) (Pj * Rpower (1 + (dj / Tj) * (Zj1 - Zj)) (- g_const / (r_const * dj))) ;;
     Ok (T', P')
   else
     Pj <~ idx P j ;;
     P' <~ upd P (j+1) (Pj * exp (- (g_const / r_const) * ((Zj1 - Zj) / Tj))) ;;
     Ok (T', P'))%py.

Definition inspect {A : Type} (a : A) : {b : A | a = b} := exist _ a eq_refl.

(** [while (Z[1+j] <= altp): ...; j = j + 1].  The loop ends when the test
    fails or when reading [Z[1+j]] raises. *)
Equations? atmosphere_loop (altp : R) (j : nat) (T P : list R)
  : outcome (nat * list R * list R) by wf (length Z_tab - j)%nat lt :=
atmosphere_loop altp j T P with inspect (nth_error Z_tab (1+j)) := {
  | exist _ None _ => Raise IndexError
  | exist _ (Some z1) e with Rle_dec z1 altp := {
    | left _ with atmosphere_body j T P := {
      | Ok (T', P') => atmosphere_loop altp (j+1) T' P'
      | Raise ex => Raise ex }
    | right _ => Ok (j, T, P) } }.
Proof.
  clear atmosphere_loop.
  do 5 (destruct j as [|j]; [simpl; lia|]).
  destruct j; simpl in e; discriminate.
Qed.

Definition atmosphere (altp disa : R) : outcome (R * R * R * R) :=
  (Zlast <~ idx_last Z_tab ;;
   if Rlt_dec Zlast altp then
     Raise (Exception "atmosphere, altitude cannot exceed 50km")
   else
     '(j, T, P) <~ atmosphere_loop altp 0 T_init P_init ;;
     dj <~ idx dtodz_tab j ;;
     Pj <~ idx P j ;;
     Tj <~ idx T j ;;
     Zj <~ idx Z_tab j ;;
     let pamb :=
       if Rlt_dec 0 (Rabs dj)
       then Pj * Rpower (1 + (dj / Tj) * (altp - Zj)) (- g_const / (r_const * dj))
       else Pj * exp (- (g_const / r_const) * ((altp - Zj) / Tj)) in
     let tamb := Tj + dj * (altp - Zj) + disa in
     let vsnd := sqrt (gam_const * r_const * tamb) in
     Ok (pamb, tamb, vsnd, g_const))%py.


(** *** The [Aircraft] object

    Attributes initialised to [None] in [__init__] are [option R]. *)

Record Aircraft : Type := mkAircraft {
  cruise_altp : R;
  cruise_mach : R;
  cruise_speed : option R;
  range : R;
  npax : R;
  mpax : R;
  payload : option R;
  mtow : option R;
  owe : option R;
  ldw : option R;
  fuel_mission : option R;
  fuel_reserve : option R;
  kr : R;
  payload_max : option R;
  range_pl_max : option R;
  payload_fuel_max : option R;
  range_fuel_max : option R;
  range_no_pl : option R;
  lod : R;
  sfc : R;
  eff_ratio : R;
  owe_coef : list R }.

Definition set_cruise_speed (v : option R) (a : Aircraft) : Aircraft :=
  mkAircraft (cruise_altp a) (cruise_mach a) v (range a) (npax a) (mpax a)
    (payload a) (mtow a) (owe a) (ldw a) (fuel_mission a) (fuel_reserve a)
    (kr a) (payload_max a) (range_pl_max a) (payload_fuel_max a)
    (range_fuel_max a) (range_no_pl a) (lod a) (sfc a) (eff_ratio a)
    (owe_coef a).

Definition set_mpax (v : R) (a : Aircraft) : Aircraft :=
  mkAircraft (cruise_altp a) (cruise_mach a) (cruise_speed a) (range a)
    (npax a) v (payload a) (mtow a) (owe a) (ldw a) (fuel_mission a)
    (fuel_reserve a) (kr a) (payload_max a) (range_pl_max a)
    (payload_fuel_max a) (range_fuel_max a) (range_no_pl a) (lod a) (sfc a)
    (eff_ratio a) (owe_coef a).

Definition set_payload (v : option R) (a : Aircraft) : Aircraft :=
  mkAircraft (cruise_altp a) (cruise_mach a) (cruise_speed a) (range a)
    (npax a) (mpax a) v (mtow a) (owe a) (ldw a) (fuel_mission a)
    (fuel_reserve a) (kr a) (payload_max a) (range_pl_max a)
    (payload_fuel_max a) (range_fuel_max a) (range_no_pl a) (lod a) (sfc a)
    (eff_ratio a) (owe_coef a).

Definition set_mtow (v : option R) (a : Aircraft) : Aircraft :=
  mkAircraft (cruise_altp a) (cruise_mach a) (cruise_speed a) (range a)
    (npax a) (mpax a) (payload a) v (owe a) (ldw a) (fuel_mission a)
    (fuel_reserve a) (kr a) (payload_max a) (range_pl_max a)
    (payload_fuel_max a) (range_fuel_max a) (range_no_pl a) (lod a) (sfc a)
    (eff_ratio a) (owe_coef a).

Definition set_owe (v : option R) (a : Aircraft) : Aircraft :=
  mkAircraft (cruise_altp a) (cruise_mach a) (cruise_speed a) (range a)
    (npax a) (mpax a) (payload a) (mtow a) v (ldw a) (fuel_mission a)
    (fuel_reserve a) (kr a) (payload_max a) (range_pl_max a)
    (payload_fuel_max a) (range_fuel_max a) (range_no_pl a) (lod a) (sfc a)
    (eff_ratio a) (owe_coef a).

Definition set_ldw (v : option R) (a : Aircraft) : Aircraft :=
  mkAircraft (cruise_altp a) (cruise_mach a) (cruise_speed a) (range a)
    (npax a) (mpax a) (payload a) (mtow a) (owe a) v (fuel_mission a)
    (fuel_reserve a) (kr a) (payload_max a) (range_pl_max a)
    (payload_fuel_max a) (range_fuel_max a) (range_no_pl a) (lod a) (sfc a)
    (eff_ratio a) (owe_coef a).

Definition set_fuel_mission (v : option R) (a : Aircraft) : Aircraft :=
  mkAircraft (cruise_altp a) (cruise_mach a) (cruise_speed a) (range a)
    (npax a) (mpax a) (payload a) (mtow a) (owe a) (ldw a) v (fuel_reserve a)
    (kr a) (payload_max a) (range_pl_max a) (payload_fuel_max a)
    (range_fuel_max a) (range_no_pl a) (lod a) (sfc a) (eff_ratio a)
    (owe_coef a).

Definition set_fuel_reserve (v : option R) (a : Aircraft) : Aircraft :=
  mkAircraft (cruise_altp a) (cruise_mach a) (cruise_speed a) (range a)
    (npax a) (mpax a) (payload a) (mtow a) (owe a) (ldw a) (fuel_mission a) v
    (kr a) (payload_max a) (range_pl_max a) (payload_fuel_max a)
    (range_fuel_max a) (range_no_pl a) (lod a) (sfc a) (eff_ratio a)
    (owe_coef a).

Definition set_kr (v : R) (a : Aircraft) : Aircraft :=
  mkAircraft (cruise_altp a) (cruise_mach a) (cruise_speed a) (range a)
    (npax a) (mpax a) (payload a) (mtow a) (owe a) (ldw a) (fuel_mission a)
    (fuel_reserve a) v (payload_max a) (range_pl_max a) (payload_fuel_max a)
    (range_fuel_max a) (range_no_pl a) (lod a) (sfc a) (eff_ratio a)
    (owe_coef a).

Definition set_payload_max (v : option R) (a : Aircraft) : Aircraft :=
  mkAircraft (cruise_altp a) (cruise_mach a) (cruise_speed a) (range a)
    (npax a) (mpax a) (payload a) (mtow a) (owe a) (ldw a) (fuel_mission a)
    (fuel_reserve a) (kr a) v (range_pl_max a) (payload_fuel_max a)
    (range_fuel_max a) (range_no_pl a) (lod a) (sfc a) (eff_ratio a)
    (owe_coef a).

Definition set_range_pl_max (v : option R) (a : Aircraft) : Aircraft :=
  mkAircraft (cruise_altp a) (cruise_mach a) (cruise_speed a) (range a)
    (npax a) (mpax a) (payload a) (mtow a) (owe a) (ldw a) (fuel_mission a)
    (fuel_reserve a) (kr a) (payload_max a) v (payload_fuel_max a)
    (range_fuel_max a) (range_no_pl a) (lod a) (sfc a) (eff_ratio a)
    (owe_coef a).

Definition set_payload_fuel_max (v : option R) (a : Aircraft) : Aircraft :=
  mkAircraft (cruise_altp a) (cruise_mach a) (cruise_speed a) (range a)
    (npax a) (mpax a) (payload a) (mtow a) (owe a) (ldw a) (fuel_mission a)
    (fuel_reserve a) (kr a) (payload_max a) (range_pl_max a) v
    (range_fuel_max a) (range_no_pl a) (lod a) (sfc a) (eff_ratio a)
    (owe_coef a).

Definition set_range_fuel_max (v : option R) (a : Aircraft) : Aircraft :=
  mkAircraft (cruise_altp a) (cruise_mach a) (cruise_speed a) (range a)
    (npax a) (mpax a) (payload a) (mtow a) (owe a) (ldw a) (fuel_mission a)
    (fuel_reserve a) (kr a) (payload_max a) (range_pl_max a)
    (payload_fuel_max a) v (range_no_pl a) (lod a) (sfc a) (eff_ratio a)
    (owe_coef a).

Definition set_range_no_pl (v : option R) (a : Aircraft) : Aircraft :=
  mkAircraft (cruise_altp a) (cruise_mach a) (cruise_speed a) (range a)
    (npax a) (mpax a) (payload a) (mtow a) (owe a) (ldw a) (fuel_mission a)
    (fuel_reserve a) (kr a) (payload_max a) (range_pl_max a)
    (payload_fuel_max a) (range_fuel_max a) v (lod a) (sfc a) (eff_ratio a)
    (owe_coef a).

Definition set_eff_ratio (v : R) (a : Aircraft) : Aircraft :=
  mkAircraft (cruise_altp a) (cruise_mach a) (cruise_speed a) (range a)
    (npax a) (mpax a) (payload a) (mtow a) (owe a) (ldw a) (fuel_mission a)
    (fuel_reserve a) (kr a) (payload_max a) (range_pl_max a)
    (payload_fuel_max a) (range_fuel_max a) (range_no_pl a) (lod a) (sfc a) v
    (owe_coef a).

Definition set_owe_coef (v : list R) (a : Aircraft) : Aircraft :=
  mkAircraft (cruise_altp a) (cruise_mach a) (cruise_speed a) (range a)
    (npax a) (mpax a) (payload a) (mtow a) (owe a) (ldw a) (fuel_mission a)
    (fuel_reserve a) (kr a) (payload_max a) (range_pl_max a)
    (payload_fuel_max a) (range_fuel_max a) (range_no_pl a) (lod a) (sfc a)
    (eff_ratio a) v.

(** Reading an attribute for arithmetic. *)
Definition getf (f : Aircraft -> option R) : M Aircraft R :=
  fun a => (need (f a), a).

(** [x / y] on two Python floats. *)
Definition pydiv (x y : R) : outcome R :=
  if Req_dec_T y 0 then Raise ZeroDivisionError else Ok (x / y).

Definition np_floor (x : R) : R := IZR (Zfloor x).

Definition l_o_d (npax : R) : R :=
  let pax1 := 60 in
  let lod1 := 15 in
  let pax2 := 160 in
  let lod2 := 20 in
  let lod := lod1 + (lod2 - lod1) * (npax - pax1) / (pax2 - pax1) in
  Rmax lod1 (Rmin lod lod2).

Definition structure (mtow : R) (coef : option (list R)) : M Aircraft R :=
  (match coef with
   | Some c => modify (set_owe_coef c)
   | None => ret tt
   end ;;;
   c <- gets owe_coef ;;
   c0 <- lift (idx c 0) ;;
   c1 <- lift (idx c 1) ;;
   c2 <- lift (idx c 2) ;;
   ret ((c0 * mtow + c1) * mtow + c2))%py.

Section Model.

(** [unit.convert_from("kg/daN/h", x)] and [unit.m_ft(x)]: module [unit] is
    imported from outside the files at hand. *)
Variable convert_from_kg_daN_h : R -> R.
Variable m_ft : R -> R.

(** [scipy.optimize.fsolve] on two unknowns, as a function of the initial
    guess. *)
Variable fsolve : R * R -> strategy (R * R) (R * R).

(** The division [tow/(tow-fuel_mission)] is numpy's in every call of this
    file (the weights come out of the solver's arrays). *)
Definition mission (tow fuel_mission : R) (effr : option R) : M Aircraft R :=
  (match effr with
   | Some e => modify (set_eff_ratio (e / convert_from_kg_daN_h 1))
   | None => ret tt
   end ;;;
   altp <- gets cruise_altp ;;
   '(pamb, tamb, vsnd, g) <- lift (atmosphere altp 0) ;;
   mach <- gets cruise_mach ;;
   er <- gets eff_ratio ;;
   let range_factor := (mach * vsnd * er) / g in
   ret (range_factor * ln (tow / (tow - fuel_mission))))%py.

(** The first branch divides two Python floats ([payload_max] is
    [npax*mpax*1.20]); the interpolated payloads are numpy scalars, because
    the corner ranges come out of [np.log]. *)
Definition max_capacity (rng : R) : M Aircraft R :=
  (rpm <- getf range_pl_max ;;
   if Rle_dec rng rpm then
     pm <- getf payload_max ;;
     mp <- gets mpax ;;
     q <- lift (pydiv pm mp) ;;
     ret (np_floor q)
   else
     let third :=
       (rfm <- getf range_fuel_max ;;
        if Rlt_dec rfm rng then
          rnp <- getf range_no_pl ;;
          if Rle_dec rng rnp then
            pfm <- getf payload_fuel_max ;;
            mp <- gets mpax ;;
            let payload := pfm * (rng - rnp) / (rfm - rnp) in
            ret (np_floor (payload / mp))
          else ret 0
        else ret 0) in
     if Rlt_dec rpm rng then
       rfm <- getf range_fuel_max ;;
       if Rle_dec rng rfm then
         pfm <- getf payload_fuel_max ;;
         pm <- getf payload_max ;;
         mp <- gets mpax ;;
         let payload := pfm + (pm - pfm) * (rng - rfm) / (rpm - rfm) in
         ret (np_floor (payload / mp))
       else third
     else third)%py.

Definition eval_design (X : R * R) : M Aircraft (R * R) :=
  (modify (set_mtow (Some (fst X))) ;;;
   modify (set_fuel_mission (Some (snd X))) ;;;
   m <- getf mtow ;;
   owe_eff <- structure m None ;;
   m <- getf mtow ;;
   fm <- getf fuel_mission ;;
   range_eff <- mission m fm None ;;
   k <- gets kr ;;
   fm <- getf fuel_mission ;;
   modify (set_fuel_reserve (Some (k * fm))) ;;;
   m <- getf mtow ;;
   fm <- getf fuel_mission ;;
   modify (set_ldw (Some (m - fm))) ;;;
   np <- gets npax ;;
   mp <- gets mpax ;;
   modify (set_payload (Some (np * mp))) ;;;
   m <- getf mtow ;;
   p <- getf payload ;;
   fm <- getf fuel_mission ;;
   fr <- getf fuel_reserve ;;
   modify (set_owe (Some (m - p - fm - fr))) ;;;
   o <- getf owe ;;
   rg <- gets range ;;
   ret (o - owe_eff, rg - range_eff))%py.

(** Lines 160-168 of [design_aircraft]: optional overrides and the initial
    guess.  [l_o_d(npax)/sfc] divides two Python floats. *)
Definition design_setup (coef : option (list R)) (kr_ mpax_ effr : option R)
  : M Aircraft (R * R) :=
  (match coef with
   | Some c => modify (set_owe_coef c)
   | None => ret tt
   end ;;;
   match kr_ with
   | Some k => modify (set_kr k)
   | None => ret tt
   end ;;;
   match mpax_ with
   | Some m => modify (set_mpax m)
   | None => ret tt
   end ;;;
   match effr with
   | Some e => modify (set_eff_ratio (e / convert_from_kg_daN_h 1))
   | None =>
       np <- gets npax ;;
       s <- gets sfc ;;
       er <- lift (pydiv (l_o_d np) s) ;;
       modify (set_eff_ratio er)
   end ;;;
   np <- gets npax ;;
   mp <- gets mpax ;;
   ret (np * mp * 4, np * mp * 1))%py.

(** Lines 172-186 of [design_aircraft]: the state at the solution and the
    payload-range corners. *)
Definition design_envelope (x : R * R) : M Aircraft unit :=
  (eval_design (fst x, snd x) ;;;
   altp <- gets cruise_altp ;;
   '(pamb, tamb, vsnd, g) <- lift (atmosphere altp 0) ;;
   mach <- gets cruise_mach ;;
   modify (set_cruise_speed (Some (vsnd * mach))) ;;;
   p <- getf payload ;;
   modify (set_payload_max (Some (p * 1.20))) ;;;
   m <- getf mtow ;;
   o <- getf owe ;;
   pm <- getf payload_max ;;
   k <- gets kr ;;
   let fuel := (m - o - pm) / (1 + k) in
   m <- getf mtow ;;
   r1 <- mission m fuel None ;;
   modify (set_range_pl_max (Some r1)) ;;;
   p <- getf payload ;;
   modify (set_payload_fuel_max (Some (p * 0.40))) ;;;
   m <- getf mtow ;;
   o <- getf owe ;;
   pfm <- getf payload_fuel_max ;;
   k <- gets kr ;;
   let fuel_max := (m - o - pfm) / (1 + k) in
   m <- getf mtow ;;
   r2 <- mission m fuel_max None ;;
   modify (set_range_fuel_max (Some r2)) ;;;
   o <- getf owe ;;
   k <- gets kr ;;
   let tow := o + fuel_max * (1 + k) in
   r3 <- mission tow fuel_max None ;;
   modify (set_range_no_pl (Some r3)))%py.

Definition design_aircraft (coef : option (list R)) (kr_ mpax_ effr : option R)
  : M Aircraft unit :=
  (Xini <- design_setup coef kr_ mpax_ effr ;;
   '(x, ier) <- run eval_design (fsolve Xini) ;;
   if negb (ier =? 1)%Z then raise (Exception "Convergence problem")
   else design_envelope x)%py.

(** The closure [fct] of [operation]. *)
Definition operation_fct (n_pax rng : R) (x_in : R * R) : M Aircraft (R * R) :=
  (let tow := fst x_in in
   let fuel_mission := snd x_in in
   range_eff <- mission tow fuel_mission None ;;
   mp <- gets mpax ;;
   k <- gets kr ;;
   let owe_eff := tow - (mp * n_pax + (1 + k) * fuel_mission) in
   o <- getf owe ;;
   ret (o - owe_eff, rng - range_eff))%py.

Definition operation (n_pax rng : R) : M Aircraft (R * R * R) :=
  (np <- gets npax ;;
   mp <- gets mpax ;;
   let x_ini := (np * mp * 4, np * mp * 1) in
   '(x, ier) <- run (operation_fct n_pax rng) (fsolve x_ini) ;;
   if negb (ier =? 1)%Z then raise (Exception "Convergence problem")
   else
     let tow := fst x in
     let mission_fuel := snd x in
     cs <- getf cruise_speed ;;
     let mission_time := 20 * 60 + cs * rng in
     ret (mission_fuel, mission_time, tow))%py.

(** [__init__]: the attribute values before its final call of
    [design_aircraft()]. *)
Definition init_fields (npax_ range_ mach : R) : Aircraft :=
  let lod_ := l_o_d npax_ in
  let sfc_ := convert_from_kg_daN_h 0.54 in
  {| cruise_altp := m_ft 35000;
     cruise_mach := mach;
     cruise_speed := None;
     range := range_;
     npax := npax_;
     mpax := 130;
     payload := None;
     mtow := None;
     owe := None;
     ldw := None;
     fuel_mission := None;
     fuel_reserve := None;
     kr := 0.05;
     payload_max := None;
     range_pl_max := None;
     payload_fuel_max := None;
     range_fuel_max := None;
     range_no_pl := None;
     lod := lod_;
     sfc := sfc_;
     eff_ratio := lod_ / sfc_;
     owe_coef := [-1.478e-07; 5.459e-01; 8.40e+02] |}.

End Model.

End Pico.

(* ====================================================================== *)
(** ** power_and_system.py, class [Semi_empiric_ef_nacelle] *)

Module Nacelle.

(** The attributes read by [unitary_thrust] and [unitary_sc];
    [fan_width] and [nozzle_area] are [None] until [eval_geometry] ran. *)
Record Semi_empiric_ef_nacelle : Type := mkNacelle {
  reference_power : R;
  rating_factor : list (string * R);
  efficiency_fan : R;
  motor_efficiency : R;
  controller_efficiency : R;
  fan_width : option R;
  nozzle_area : option R }.

(** [d[k]] on a dict with string keys. *)
Fixpoint dict_get (d : list (string * R)) (k : string) : outcome R :=
  match d with
  | [] => Raise (KeyError k)
  | (k', v) :: t => if String.eqb k' k then Ok v else dict_get t k
  end.

Section Model.

(** Module [earth] is imported from outside the files at hand:
    [gas_data()] returns [(r, gam, Cp, Cv)]. *)
Variable gas_data : R * R * R * R.
Variable sound_speed : R -> R.
Variable total_pressure : R -> R -> R.
Variable total_temperature : R -> R -> R.

(** [scipy.optimize.fsolve] on one and on two unknowns. *)
Variable fsolve_1 : R -> strategy R R.
Variable fsolve_2 : R * R -> strategy (R * R) (R * R).

Definition corrected_air_flow (Ptot Ttot Mach : R) : R :=
  let '(r, gam, Cp, Cv) := gas_data in
  let f_m := Mach * Rpower (1 + 0.5 * (gam - 1) * Mach ^ 2)
                           (- (gam + 1) / (2 * (gam - 1))) in
  (sqrt (gam / r) * Ptot / sqrt Ttot) * f_m.

(** The closure [fct] of [unitary_thrust]. *)
Definition unitary_thrust_fct (self : Semi_empiric_ef_nacelle)
    (q PwShaft pamb Ttot Vair : R) : outcome R :=
  let '(r, gam, Cp, Cv) := gas_data in
  let Vinlet := Vair in
  let PwInput := efficiency_fan self * PwShaft in
  let Vjet := sqrt (2 * PwInput / q + Vinlet ^ 2) in
  let TtotJet := Ttot + PwShaft / (q * Cp) in
  let TstatJet := TtotJet - 0.5 * Vjet ^ 2 / Cp in
  let VsndJet := sound_speed TstatJet in
  let MachJet := Vjet / VsndJet in
  let PtotJet := total_pressure pamb MachJet in
  let CQoA1 := corrected_air_flow PtotJet TtotJet MachJet in
  (na <~ need (nozzle_area self) ;;
   let q0 := CQoA1 * na in
   let y := q0 - q in
   Ok y)%py.

Definition unitary_thrust (self : Semi_empiric_ef_nacelle)
    (pamb tamb mach : R) (rating : string) (throttle pw_offtake : R)
  : outcome (list (string * R)) :=
  (rf <~ dict_get (rating_factor self) rating ;;
   let PwInput := reference_power self * rf * throttle - pw_offtake in
   let PwShaft := PwInput * motor_efficiency self * controller_efficiency self in
   let Ptot := total_pressure pamb mach in
   let Ttot := total_temperature tamb mach in
   let Vair := mach * sound_speed tamb in
   let CQoA0 := corrected_air_flow Ptot Ttot mach in
   fw <~ need (fan_width self) ;;
   let q0init := CQoA0 * (0.25 * PI * fw ^ 2) in
   '(q0, ier) <~ answer (fun q => unitary_thrust_fct self q PwShaft pamb Ttot Vair)
                        (fsolve_1 q0init) ;;
   if negb (ier =? 1)%Z then Raise (Exception "Convergence problem")
   else
     let Vinlet := Vair in
     let PwInput := efficiency_fan self * PwShaft in
     let Vjet := sqrt (2 * PwInput / q0 + Vinlet ^ 2) in
     let eFn := q0 * (Vjet - Vinlet) in
     Ok [("fn"%string, eFn); ("pw"%string, PwInput)])%py.

(** The closure [fct] of [unitary_sc]. *)
Definition unitary_sc_fct (self : Semi_empiric_ef_nacelle)
    (x_in : R * R) (thrust pamb Ttot Vair : R) : outcome (R * R) :=
  let '(r, gam, Cp, Cv) := gas_data in
  let q := fst x_in in
  let PwShaft := snd x_in in
  let Vinlet := Vair in
  let PwInput := efficiency_fan self * PwShaft in
  let Vjet := sqrt (2 * PwInput / q + Vinlet ^ 2) in
  let TtotJet := Ttot + PwShaft / (q * Cp) in
  let TstatJet := TtotJet - 0.5 * Vjet ^ 2 / Cp in
  let VsndJet := sound_speed TstatJet in
  let MachJet := Vjet / VsndJet in
  let PtotJet := total_pressure pamb MachJet in
  let CQoA1 := corrected_air_flow PtotJet TtotJet MachJet in
  (na <~ need (nozzle_area self) ;;
   let q0 := CQoA1 * na in
   let eFn := q * (Vjet - Vinlet) in
   Ok (q0 - q, thrust - eFn))%py.

Definition unitary_sc (self : Semi_empiric_ef_nacelle)
    (pamb tamb mach : R) (rating : string) (thrust pw_offtake : R)
  : outcome (list (string * R)) :=
  (let Ptot := total_pressure pamb mach in
   let Ttot := total_temperature tamb mach in
   let Vair := mach * sound_speed tamb in
   let CQoA0 := corrected_air_flow Ptot Ttot mach in
   fw <~ need (fan_width self) ;;
   let q0init := CQoA0 * (0.25 * PI * fw ^ 2) in
   rf <~ dict_get (rating_factor self) rating ;;
   let PwInput := reference_power self * rf - pw_offtake in
   let PWinit := PwInput * motor_efficiency self * controller_efficiency self in
   let x_init := (q0init, PWinit) in
   '(x, ier) <~ answer (fun x_in => unitary_sc_fct self x_in thrust pamb Ttot Vair)
                       (fsolve_2 x_init) ;;
   let q0 := fst x in
   let Pw := snd x in
   if negb (ier =? 1)%Z then Raise (Exception "Convergence problem")
   else
     let Vinlet := Vair in
     let PwInput := efficiency_fan self * Pw in
     let Vjet := sqrt (2 * PwInput / q0 + Vinlet ^ 2) in
     let eFn := q0 * (Vjet - Vinlet) in
     rf <~ dict_get (rating_factor self) rating ;;
     let throttle := (Pw + pw_offtake) / (reference_power self * rf) in
     let sec := Pw / eFn in
     Ok [("sec"%string, sec); ("pw"%string, Pw); ("thtl"%string, throttle)])%py.

End Model.

End Nacelle.
(* ====================================================================== *)
(** ** Specification vocabulary *)

Module SolverSpec.

(** Convergence contract of the root-finder for tolerance [tol]: a run that
    ends with flag 1 at [x] has a residual at [x] whose components are below
    [tol] in absolute value. *)
Definition within (tol : R) (y : R * R) : Prop :=
  Rabs (fst y) < tol /\ Rabs (snd y) < tol.

Definition fsolve_contract (tol : R)
    (fsolve : R * R -> strategy (R * R) (R * R)) : Prop :=
  forall (F : R * R -> outcome (R * R)) (x0 x : R * R),
    answer F (fsolve x0) = Ok (x, 1%Z) ->
    exists y, F x = Ok y /\ within tol y.

(** The same contract for one unknown. *)
Definition fsolve_contract_1 (tol : R) (fsolve : R -> strategy R R) : Prop :=
  forall (F : R -> outcome R) (x0 x : R),
    answer F (fsolve x0) = Ok (x, 1%Z) ->
    exists y, F x = Ok y /\ Rabs y < tol.

End SolverSpec.

Module PicoSpec.
Import Pico.
Export SolverSpec.

(** Arrays of the size of the altitude table. *)
Definition six (a : list R) : Prop := length a = 6%nat.

(** The structural regression for given coefficients. *)
Definition structure_value (c : list R) (m : R) : outcome R :=
  (c0 <~ idx c 0 ;;
   c1 <~ idx c 1 ;;
   c2 <~ idx c 2 ;;
   Ok ((c0 * m + c1) * m + c2))%py.

(** The factor of the logarithm in the Breguet relation. *)
Definition range_factor (a : Aircraft) : outcome R :=
  ('(pamb, tamb, vsnd, g) <~ atmosphere (cruise_altp a) 0 ;;
   Ok ((cruise_mach a * vsnd * eff_ratio a) / g))%py.

Definition breguet (a : Aircraft) (tow fm : R) : outcome R :=
  (rf <~ range_factor a ;;
   Ok (rf * ln (tow / (tow - fm))))%py.

(** The value returned by [eval_design], as a function of the attributes it
    reads. *)
Definition residual (a : Aircraft) (X : R * R) : outcome (R * R) :=
  (owe_eff <~ structure_value (owe_coef a) (fst X) ;;
   range_eff <~ breguet a (fst X) (snd X) ;;
   Ok (fst X - npax a * mpax a - snd X - kr a * snd X - owe_eff,
       range a - range_eff))%py.

(** The attributes assigned by a complete evaluation of [eval_design]. *)
Definition design_point (a : Aircraft) (X : R * R) : Aircraft :=
  set_owe (Some (fst X - npax a * mpax a - snd X - kr a * snd X))
    (set_payload (Some (npax a * mpax a))
      (set_ldw (Some (fst X - snd X))
        (set_fuel_reserve (Some (kr a * snd X))
          (set_fuel_mission (Some (snd X))
            (set_mtow (Some (fst X)) a))))).

(** The attributes assigned when [eval_design] raises on the way. *)
Definition design_partial (a : Aircraft) (X : R * R) : Aircraft :=
  set_fuel_mission (Some (snd X)) (set_mtow (Some (fst X)) a).

(** The object after a run of the solver against [eval_design], started on
    [cur], for an object whose other attributes are those of [a]. *)
Fixpoint after_run (a cur : Aircraft) (p : strategy (R * R) (R * R)) : Aircraft :=
  match p with
  | Done _ _ => cur
  | Eval x k =>
      match residual a x with
      | Ok y => after_run a (design_point a x) (k y)
      | Raise _ => design_partial cur x
      end
  end.

(** The attributes read by the residual. *)
Definition params (a : Aircraft) : R * R * R * R * R * R * R * list R :=
  (cruise_altp a, cruise_mach a, range a, npax a, mpax a, kr a, eff_ratio a,
   owe_coef a).

(** The attributes that [eval_design] leaves alone. *)
Definition frame (a : Aircraft) : Aircraft :=
  set_owe None (set_payload None (set_ldw None (set_fuel_reserve None
    (set_fuel_mission None (set_mtow None a))))).

(** The object after lines 172-186 of [design_aircraft] at the solution [x],
    for the speed of sound [vsnd] and gravity [g] of the cruise altitude. *)
Definition corners (a : Aircraft) (x : R * R) (vsnd g : R) : Aircraft :=
  let m := fst x in
  let fm := snd x in
  let p := npax a * mpax a in
  let k := kr a in
  let o := m - p - fm - k * fm in
  let K := (cruise_mach a * vsnd * eff_ratio a) / g in
  let fuel := (m - o - p * 1.20) / (1 + k) in
  let fuel_max := (m - o - p * 0.40) / (1 + k) in
  let tow := o + fuel_max * (1 + k) in
  set_range_no_pl (Some (K * ln (tow / (tow - fuel_max))))
    (set_range_fuel_max (Some (K * ln (m / (m - fuel_max))))
      (set_payload_fuel_max (Some (p * 0.40))
        (set_range_pl_max (Some (K * ln (m / (m - fuel))))
          (set_payload_max (Some (p * 1.20))
            (set_cruise_speed (Some (vsnd * cruise_mach a))
              (design_point a x)))))).

(** The capacity lookup as the specification words it: the whole number of
    passengers of the maximum payload up to the first corner, of the
    payload interpolated linearly between the corners after it, and none
    beyond the last corner. *)
Definition capacity (pm pfm rpm rfm rnp mp rng : R) : R :=
  if Rle_dec rng rpm then np_floor (pm / mp)
  else if Rle_dec rng rfm then
    np_floor ((pfm + (pm - pfm) * (rng - rfm) / (rpm - rfm)) / mp)
  else if Rle_dec rng rnp then
    np_floor (pfm * (rng - rnp) / (rfm - rnp) / mp)
  else 0.

(** The optional arguments of [design_aircraft] that override attributes. *)
Definition override {A : Type} (f : A -> Aircraft -> Aircraft) (v : option A)
    (a : Aircraft) : Aircraft :=
  match v with
  | Some x => f x a
  | None => a
  end.

Definition with_overrides (coef : option (list R)) (kr_ mpax_ : option R)
    (a : Aircraft) : Aircraft :=
  override set_mpax mpax_ (override set_kr kr_ (override set_owe_coef coef a)).

(** The initial guess of both solves. *)
Definition guess (a : Aircraft) : R * R :=
  (npax a * mpax a * 4, npax a * mpax a * 1).

End PicoSpec.

Module NacelleSpec.
Import Nacelle.
Export SolverSpec.

(** The energy equation of the jet as the specification words it: the fan
    adds the kinetic power [eff*PwShaft] to the flow [q]. *)
Definition jet_velocity (eff PwShaft q Vinlet : R) : R :=
  sqrt (2 * eff * PwShaft / q + Vinlet ^ 2).

(** The corrected flow per unit area at the nozzle exit for the flow [q] and
    the shaft power [PwShaft]: the jet state follows from [q] by the energy
    equation. *)
Definition nozzle_flow_per_area (gas_data : R * R * R * R)
    (sound_speed : R -> R) (total_pressure : R -> R -> R)
    (eff PwShaft pamb Ttot Vinlet q : R) : R :=
  let '(r, gam, Cp, Cv) := gas_data in
  let Vjet := jet_velocity eff PwShaft q Vinlet in
  let TtotJet := Ttot + PwShaft / (q * Cp) in
  let MachJet := Vjet / sound_speed (TtotJet - 0.5 * Vjet ^ 2 / Cp) in
  let PtotJet := total_pressure pamb MachJet in
  corrected_air_flow gas_data PtotJet TtotJet MachJet.

(** The corrected-flow continuity residual at the nozzle of area [na]. *)
Definition continuity_residual (gas_data : R * R * R * R)
    (sound_speed : R -> R) (total_pressure : R -> R -> R)
    (eff na PwShaft pamb Ttot Vinlet q : R) : R :=
  nozzle_flow_per_area gas_data sound_speed total_pressure
    eff PwShaft pamb Ttot Vinlet q * na - q.

(** The shaft power of [unitary_thrust] for the rating factor [rf]. *)
Definition shaft_power (self : Semi_empiric_ef_nacelle)
    (rf throttle pw_offtake : R) : R :=
  (reference_power self * rf * throttle - pw_offtake)
  * motor_efficiency self * controller_efficiency self.

(** The initial guess of the flow: the corrected flow at the flight Mach
    number through the fan disk. *)
Definition flow_guess (gas_data : R * R * R * R)
    (total_pressure total_temperature : R -> R -> R)
    (pamb tamb mach fw : R) : R :=
  corrected_air_flow gas_data (total_pressure pamb mach)
    (total_temperature tamb mach) mach * (0.25 * PI * fw ^ 2).

End NacelleSpec.

(* ====================================================================== *)
(** ** Instances used by the examples *)

Module Examples.
Import Pico PicoSpec.

(** [unit.convert_from("kg/daN/h", x)] in SI units (kg/N/s) and
    [unit.m_ft(x)]. *)
Definition kg_daN_h (x : R) : R := x / 36000.
Definition ft (x : R) : R := x * 0.3048.

(** [Aircraft(150., 3000 NM, 0.78)] before the solve of [__init__]. *)
Definition ac_new : Aircraft := init_fields kg_daN_h ft 150 (3000 * 1852) 0.78.

(** The same aircraft with masses and corners of an earlier sizing
    (rounded values). *)
Definition ac_sized : Aircraft :=
  {| cruise_altp := ft 35000;
     cruise_mach := 0.78;
     cruise_speed := Some 231;
     range := 3000 * 1852;
     npax := 150;
     mpax := 130;
     payload := Some 19500;
     mtow := Some 77000;
     owe := Some 44060;
     ldw := Some 64200;
     fuel_mission := Some 12800;
     fuel_reserve := Some 640;
     kr := 0.05;
     payload_max := Some 23400;
     range_pl_max := Some 4300000;
     payload_fuel_max := Some 7800;
     range_fuel_max := Some 8600000;
     range_no_pl := Some 9400000;
     lod := l_o_d 150;
     sfc := kg_daN_h 0.54;
     eff_ratio := l_o_d 150 / kg_daN_h 0.54;
     owe_coef := [-1.478e-07; 5.459e-01; 8.40e+02] |}.

(** Speed of sound at 35000 ft (ISA) and the factor of the Breguet relation
    for 150 passengers at Mach 0.78. *)
Definition vsnd_cruise : R :=
  sqrt (gam_const * r_const * (288.15 + -0.0065 * (ft 35000 - 0) + 0)).
Definition K_150 : R :=
  (0.78 * vsnd_cruise * (l_o_d 150 / kg_daN_h 0.54)) / g_const.

(** The design range that the Breguet relation gives for the take-off weight
    [m] and the mission fuel [fm]. *)
Definition range_of (m fm : R) : R := K_150 * ln (m / (m - fm)).

(** The mission fuel that closes the mass balance of 150 passengers at the
    take-off weight [m], with the structural coefficients of [__init__]. *)
Definition fuel_of (m : R) : R :=
  (m - 150 * 130 - ((-1.478e-07 * m + 5.459e-01) * m + 8.40e+02)) / (1 + 0.05).

(** Two exact solutions of the balance: 77000 kg (a range of about
    3500 NM) and 47000 kg (about 450 NM). *)
Definition xs_long : R * R := (77000, fuel_of 77000).
Definition xs_short : R * R := (47000, fuel_of 47000).

(** [Aircraft(150., range, 0.78)] before the solve of [__init__], for the
    design range that makes [(m, fuel_of m)] an exact solution, and the same
    object after the setup of [design_aircraft()]. *)
Definition ac_for (m : R) : Aircraft :=
  init_fields kg_daN_h ft 150 (range_of m (fuel_of m)) 0.78.

Definition ac_setup (m : R) : Aircraft :=
  set_eff_ratio (l_o_d (npax (ac_for m)) / sfc (ac_for m)) (ac_for m).

Definition ac_long : Aircraft := ac_for 77000.
Definition ac_short : Aircraft := ac_for 47000.

(** A root-finder that evaluates the residual at the initial guess and at
    [x], and stops at [x] with flag [ier]. *)
Definition fsolve_stops {X Y : Type} (x : X) (ier : Z) : X -> strategy X Y :=
  fun x0 => Eval x0 (fun _ => Eval x (fun _ => Done x ier)).

(** A root-finder that gives up at the initial guess (flag 5: no progress). *)
Definition fsolve_gives_up {X Y : Type} : X -> strategy X Y :=
  fun x0 => Eval x0 (fun _ => Done x0 5%Z).

(** A root-finder that evaluates the residual at the initial guess, then at
    [xs], and reports convergence at [xs] exactly when both components of
    the residual there are below [tol] in absolute value. *)
Definition fsolve_checks (tol : R) (xs : R * R)
  : R * R -> strategy (R * R) (R * R) :=
  fun x0 =>
    Eval x0 (fun _ =>
    Eval xs (fun y =>
      if Rlt_dec (Rabs (fst y)) tol then
        if Rlt_dec (Rabs (snd y)) tol then Done xs 1%Z else Done xs 5%Z
      else Done xs 5%Z)).

(** Air as [earth.gas_data()] and the isentropic relations of module
    [earth] describe it (perfect gas, ratio of specific heats 1.4). *)
Definition gas_air : R * R * R * R :=
  (287.053, 1.4, 1.4 * (287.053 / 0.4), 287.053 / 0.4).
Definition sound_speed_air (T : R) : R := sqrt (1.4 * 287.053 * T).
Definition total_pressure_air (p M : R) : R :=
  p * Rpower (1 + 0.2 * M ^ 2) 3.5.
Definition total_temperature_air (T M : R) : R := T * (1 + 0.2 * M ^ 2).

(** An electro-fan nacelle of a twin-engine aircraft for 150 passengers and
    3000 NM, with a fan of 2 m and a nozzle of 2 m2. *)
Definition nacelle_150 : Nacelle.Semi_empiric_ef_nacelle :=
  {| Nacelle.reference_power :=
       (1 / 0.8) * (87.26 / 0.82) * (1e5 + 177 * 150 * (3000 * 1852) * 1e-6) / 2;
     Nacelle.rating_factor :=
       [("MTO"%string, 1.00); ("MCN"%string, 0.90); ("MCL"%string, 0.90);
        ("MCR"%string, 0.90); ("FID"%string, 0.10); ("VAR"%string, 1)];
     Nacelle.efficiency_fan := 0.95;
     Nacelle.motor_efficiency := 0.95;
     Nacelle.controller_efficiency := 0.99;
     Nacelle.fan_width := Some 2;
     Nacelle.nozzle_area := Some 2 |}.

(** Take-off conditions of the examples: sea level, ISA+15, Mach 0.25,
    rating "MTO" at full throttle without power off-take. *)
Definition Ttot_to : R := total_temperature_air 303.15 0.25.
Definition Vair_to : R := 0.25 * sound_speed_air 303.15.
Definition Pw_to : R := NacelleSpec.shaft_power nacelle_150 1.00 1 0.

(** [nacelle_150] with the nozzle sized for the flow [q] at the shaft power
    [Pw] in these conditions, the way [efan_nacelle_design] sizes it: the
    area is the flow over the corrected flow per unit area of the jet. *)
Definition nacelle_sized (q Pw : R) : Nacelle.Semi_empiric_ef_nacelle :=
  {| Nacelle.reference_power := Nacelle.reference_power nacelle_150;
     Nacelle.rating_factor := Nacelle.rating_factor nacelle_150;
     Nacelle.efficiency_fan := 0.95;
     Nacelle.motor_efficiency := 0.95;
     Nacelle.controller_efficiency := 0.99;
     Nacelle.fan_width := Some 2;
     Nacelle.nozzle_area :=
       Some (q / NacelleSpec.nozzle_flow_per_area gas_air sound_speed_air
                   total_pressure_air 0.95 Pw 101325 Ttot_to Vair_to q) |}.

(** The thrust of the nacelle sized for 100 kg/s, at take-off. *)
Definition thrust_to : R :=
  100 * (NacelleSpec.jet_velocity 0.95 Pw_to 100 Vair_to - Vair_to).

(** One-unknown version of [fsolve_checks]. *)
Definition fsolve_checks_1 (tol : R) (qs : R) : R -> strategy R R :=
  fun x0 =>
    Eval x0 (fun _ =>
    Eval qs (fun y =>
      if Rlt_dec (Rabs y) tol then Done qs 1%Z else Done qs 5%Z)).

End Examples.
(* ====================================================================== *)
(** ** The Breguet relation with numpy's non-finite results

    The real-number model has no value for the logarithm of a number that is
    not positive.  For the behaviour of [mission] on such weights the result
    is modelled as numpy computes it: the logarithm of a negative number is
    nan and that of zero is -inf (each with a RuntimeWarning, none raises),
    and the product with a finite factor follows IEEE 754. *)

Module PicoFloat.
Import Pico.

Inductive npfloat : Type :=
| Finite (x : R)
| NaN
| Inf (positive : bool).

(** [np.log(x)] for a finite [x]. *)
Definition np_log (x : R) : npfloat :=
  if Rlt_dec 0 x then Finite (ln x)
  else if Rlt_dec x 0 then NaN
  else Inf false.

(** [k * y] for a finite [k]. *)
Definition np_scale (k : R) (y : npfloat) : npfloat :=
  match y with
  | Finite x => Finite (k * x)
  | NaN => NaN
  | Inf s =>
      if Req_dec_T k 0 then NaN
      else Inf (if Rlt_dec 0 k then s else negb s)
  end.

Section Model.

Variable convert_from_kg_daN_h : R -> R.

(** [mission] with the value of the logarithm as numpy computes it.  The
    quotient [tow/(tow-fuel_mission)] is as in [Pico.mission]; what it does
    for [tow = fuel_mission] depends on the types of the arguments (Python
    floats raise, numpy scalars give inf), and no statement relies on it. *)
Definition mission_float (tow fuel_mission : R) (effr : option R)
  : M Aircraft npfloat :=
  (match effr with
   | Some e => modify (set_eff_ratio (e / convert_from_kg_daN_h 1))
   | None => ret tt
   end ;;;
   altp <- gets cruise_altp ;;
   '(pamb, tamb, vsnd, g) <- lift (atmosphere altp 0) ;;
   mach <- gets cruise_mach ;;
   er <- gets eff_ratio ;;
   let range_factor := (mach * vsnd * er) / g in
   ret (np_scale range_factor (np_log (tow / (tow - fuel_mission)))))%py.

End Model.

End PicoFloat.

(* ====================================================================== *)
(** ** Payload-range queries of [Aircraft] *)

Module Plr.
Import Pico.

(** [d[k]] and [d[k] = v] on a dict with string keys. *)
Fixpoint dict_item {V : Type} (d : list (string * V)) (k : string) : outcome V :=
  match d with
  | [] => Raise (KeyError k)
  | (k', v) :: t => if String.eqb k' k then Ok v else dict_item t k
  end.

Fixpoint dict_set {V : Type} (d : list (string * V)) (k : string) (v : V)
  : list (string * V) :=
  match d with
  | [] => [(k, v)]
  | (k', v') :: t =>
      if String.eqb k' k then (k', v) :: t else (k', v') :: dict_set t k v
  end.

(** The comparisons [x < 0] and [x >= 0] as Python booleans. *)
Definition lt0 (x : R) : bool := if Rlt_dec x 0 then true else false.
Definition ge0 (x : R) : bool := if Rge_dec x 0 then true else false.

(** [max_range]: the quotients divide numpy scalars, because the corner
    ranges come out of [np.log]. *)
Definition max_range (npax_ : R) : M Aircraft R :=
  (mp <- gets mpax ;;
   let payload := mp * npax_ in
   pm <- getf payload_max ;;
   if Rlt_dec pm payload then ret 0
   else
     let last :=
       (rnp <- getf range_no_pl ;;
        rfm <- getf range_fuel_max ;;
        pfm <- getf payload_fuel_max ;;
        ret (rnp + payload * (rfm - rnp) / pfm)) in
     pfm <- getf payload_fuel_max ;;
     if Rlt_dec pfm payload then
       pm <- getf payload_max ;;
       if Rle_dec payload pm then
         rfm <- getf range_fuel_max ;;
         pfm <- getf payload_fuel_max ;;
         rpm <- getf range_pl_max ;;
         pm <- getf payload_max ;;
         ret (rfm + (payload - pfm) * (rpm - rfm) / (pm - pfm))
       else last
     else last)%py.

Definition is_in_plr (npax_ rng : R) : M Aircraft (list (string * bool)) :=
  (mp <- gets mpax ;;
   let payload := npax_ * mp in
   let out_dict := [("capa"%string, true); ("dist"%string, true);
                    ("both"%string, true)] in
   pm <- getf payload_max ;;
   let c1 := pm - payload in
   pfm <- getf payload_fuel_max ;;
   rpm <- getf range_pl_max ;;
   rfm <- getf range_fuel_max ;;
   let c2 := (payload - pfm) * (rpm - rfm) - (pm - pfm) * (rng - rfm) in
   rnp <- getf range_no_pl ;;
   let c3 := payload * (rfm - rnp) - pm * (rng - rnp) in
   let c4 := rnp - rng in
   let out_dict :=
     if (lt0 c1 || lt0 c2 || lt0 c3) && ge0 c4
     then dict_set out_dict "capa" false else out_dict in
   let out_dict :=
     if ge0 c1 && (lt0 c2 || lt0 c3 || lt0 c4)
     then dict_set out_dict "dist" false else out_dict in
   let out_dict :=
     if lt0 c1 && lt0 c4
     then dict_set out_dict "both" false else out_dict in
   ret out_dict)%py.

End Plr.

(* ====================================================================== *)
(** ** Electric-fan nacelle: sizing and the throttle for a given thrust *)

Module NacelleDesign.
Import Nacelle.

(** A [Semi_empiric_ef_nacelle] with the attributes that
    [efan_nacelle_design] reads and assigns: [propulsion] holds the ones read
    by [unitary_thrust].  [n_engine] is the number found for "twin" or
    "quadri" by [__init__]. *)
Record Ef_nacelle : Type := mkEfNacelle {
  propulsion : Semi_empiric_ef_nacelle;
  n_engine : R;
  efficiency_prop : R;
  hub_width : R;
  nozzle_width : option R;
  width : option R;
  length : option R;
  gross_wet_area : R;
  net_wet_area : R }.

Section Model.

Variable gas_data : R * R * R * R.
Variable sound_speed : R -> R.
Variable total_pressure : R -> R -> R.
Variable total_temperature : R -> R -> R.
Variable fsolve_1 : R -> strategy R R.

(** [efan_nacelle_design]: the ratio of the two efficiencies divides two
    Python floats and raises for a propulsive efficiency of zero.  The other
    quotients have an operand that comes out of module [earth] (the air
    speed, the gas constants); what they do for a zero divisor depends on
    the types that module returns, and no statement below relies on it. *)
Definition efan_nacelle_design (Pamb Tamb Mach shaft_power : R)
  : M Ef_nacelle unit :=
  fun self =>
    let '(r, gam, Cp, Cv) := gas_data in
    let Vair := Mach * sound_speed Tamb in
    match Pico.pydiv (efficiency_fan (propulsion self)) (efficiency_prop self) with
    | Raise e => (Raise e, self)
    | Ok ratio =>
        let deltaV := 2 * Vair * (ratio - 1) in
        let PwInput := efficiency_fan (propulsion self) * shaft_power in
        let Vinlet := Vair in
        let Vjet := Vinlet + deltaV in
        let q1 := 2 * PwInput / (Vjet ^ 2 - Vinlet ^ 2) in
        let MachInlet := Mach in
        let Ptot := total_pressure Pamb MachInlet in
        let Ttot := total_temperature Tamb MachInlet in
        let MachFan := 0.5 in
        let CQoA1 := corrected_air_flow gas_data Ptot Ttot MachFan in
        let eFanArea := q1 / CQoA1 in
        let fan_width_ := sqrt (hub_width self ^ 2 + 4 * eFanArea / PI) in
        let TtotJet := Ttot + shaft_power / (q1 * Cp) in
        let Tstat := TtotJet - 0.5 * Vjet ^ 2 / Cp in
        let VsndJet := sqrt (gam * r * Tstat) in
        let MachJet := Vjet / VsndJet in
        let PtotJet := total_pressure Pamb MachJet in
        let CQoA2 := corrected_air_flow gas_data PtotJet TtotJet MachJet in
        let nozzle_area_ := q1 / CQoA2 in
        let nozzle_width_ := sqrt (4 * nozzle_area_ / PI) in
        let width_ := 1.20 * fan_width_ in
        let length_ := 1.50 * width_ in
        let gross := PI * width_ * length_ * n_engine self in
        (Ok tt,
         {| propulsion :=
              {| reference_power := reference_power (propulsion self);
                 rating_factor := rating_factor (propulsion self);
                 efficiency_fan := efficiency_fan (propulsion self);
                 motor_efficiency := motor_efficiency (propulsion self);
                 controller_efficiency := controller_efficiency (propulsion self);
                 fan_width := Some fan_width_;
                 nozzle_area := Some nozzle_area_ |};
            n_engine := n_engine self;
            efficiency_prop := efficiency_prop self;
            hub_width := hub_width self;
            nozzle_width := Some nozzle_width_;
            width := Some width_;
            length := Some length_;
            gross_wet_area := gross;
            net_wet_area := gross |})
    end.

(** The closure [fct_sc] of [unitary_sc_2]. *)
Definition unitary_sc_2_fct (self : Semi_empiric_ef_nacelle)
    (pamb tamb mach : R) (rating : string) (thrust pw_offtake thtl : R)
  : outcome R :=
  (dict <~ unitary_thrust gas_data sound_speed total_pressure
             total_temperature fsolve_1 self pamb tamb mach rating thtl
             pw_offtake ;;
   fn <~ dict_get dict "fn" ;;
   Ok (thrust - fn))%py.

Definition unitary_sc_2 (self : Semi_empiric_ef_nacelle)
    (pamb tamb mach : R) (rating : string) (thrust pw_offtake : R)
  : outcome (list (string * R)) :=
  ('(thtl, ier) <~ answer (unitary_sc_2_fct self pamb tamb mach rating thrust
                             pw_offtake)
                          (fsolve_1 0.95) ;;
   if negb (ier =? 1)%Z then Raise (Exception "Convergence problem")
   else
     dict <~ unitary_thrust gas_data sound_speed total_pressure
               total_temperature fsolve_1 self pamb tamb mach rating thtl
               pw_offtake ;;
     pw <~ dict_get dict "pw" ;;
     fn <~ dict_get dict "fn" ;;
     let sec := pw / fn in
     Ok [("sec"%string, sec); ("pw"%string, pw); ("thtl"%string, thtl)])%py.

End Model.

End NacelleDesign.

(* ====================================================================== *)
(** ** Turbofan nacelle, semi-empirical model *)

Module Turbofan.
Import Plr.

(** The attributes of [Semi_empiric_tf_nacelle] used by [eval_geometry],
    [unitary_thrust] and [unitary_sc].  [n_engine] is the number found for
    "twin" or "quadri" by [__init__]. *)
Record Semi_empiric_tf_nacelle : Type := mkTfNacelle {
  n_engine : R;
  reference_thrust : R;
  reference_offtake : R;
  rating_factor : list (string * R);
  tune_factor : R;
  engine_bpr : R;
  core_thrust_ratio : R;
  efficiency_prop : R;
  width : option R;
  length : option R;
  gross_wet_area : R;
  net_wet_area : R;
  aero_length : R;
  form_factor : R;
  frame_origin : list (option R) }.

Section Model.

(** Module [earth]: [air_density(pamb,tamb)] returns [(rho, sig)],
    [atmosphere(altp,disa)] returns [(pamb, tamb, tstd, dtodz)]. *)
Variable air_density : R -> R -> R * R.
Variable sound_speed : R -> R.
Variable earth_atmosphere : R -> R -> R * R * R * R.

(** [__locate_nacelle__] comes from the mounting class that the nacelle is
    combined with. *)
Variable locate_nacelle : Semi_empiric_tf_nacelle -> list (option R).

(** [__turbofan_bpr__], for the reference number of passengers of the
    requirements. *)
Definition turbofan_bpr (n_pax_ref : R) : R :=
  if Rlt_dec 80 n_pax_ref then 9 else 5.

(** [x**y] on floats, for [x >= 0] and [y > 0]: zero for a base of zero.
    For a negative base Python yields a complex number and numpy yields nan;
    every statement below assumes a base that is not negative. *)
Definition pypow (x y : R) : R := if Req_dec_T x 0 then 0 else Rpower x y.

(** [unitary_thrust]: [t41] is [None] in the returned dict.  The powers
    [sig**0.75] and [engine_bpr**0.895] are [pypow]; the by-pass ratio is a
    Python float, so [1./self.engine_bpr**0.895] raises for a ratio of
    zero.  The quotients by [vair] and [efficiency_prop] have an
    operand that comes out of module [earth]; what they do for a zero
    divisor depends on the types that module returns, and no statement
    below relies on it. *)
Definition unitary_thrust (self : Semi_empiric_tf_nacelle)
    (pamb tamb mach : R) (rating : string) (throttle pw_offtake : R)
  : outcome (list (string * option R)) :=
  (let kth := 0.475 * mach ^ 2 + 0.091 * (engine_bpr self / 10) ^ 2
              - 0.283 * mach * engine_bpr self / 10
              - 0.633 * mach - 0.081 * engine_bpr self / 10 + 1.192 in
   let '(rho, sig) := air_density pamb tamb in
   let vair := mach * sound_speed tamb in
   rf <~ dict_item (rating_factor self) rating ;;
   let total_thrust0 := reference_thrust self
                        * tune_factor self
                        * kth
                        * rf
                        * throttle
                        * pypow sig 0.75 in
   let core_thrust0 := total_thrust0 * core_thrust_ratio self in
   let fan_thrust0 := total_thrust0 * (1 - core_thrust_ratio self) in
   let fan_power0 := fan_thrust0 * vair / efficiency_prop self in
   let fan_power := fan_power0 - pw_offtake in
   let fan_thrust := (fan_power / vair) * efficiency_prop self in
   let total_thrust := fan_thrust + core_thrust0 in
   inv <~ Pico.pydiv 1 (pypow (engine_bpr self) 0.895) ;;
   let sfc_ref := (0.4 + inv) / 36000 in
   let fuel_flow := sfc_ref * total_thrust0 in
   let t41 := None in
   Ok [("fn"%string, Some total_thrust); ("ff"%string, Some fuel_flow);
       ("t4"%string, t41)])%py.

(** A dict item used as a number. *)
Definition number (v : option R) : outcome R :=
  match v with
  | Some x => Ok x
  | None => Raise TypeError
  end.

Definition unitary_sc (self : Semi_empiric_tf_nacelle)
    (pamb tamb mach : R) (rating : string) (thrust pw_offtake : R)
  : outcome (list (string * option R)) :=
  (dict <~ unitary_thrust self pamb tamb mach rating 1 pw_offtake ;;
   fn <~ (v <~ dict_item dict "fn" ;; number v) ;;
   let throttle := thrust / fn in
   ff <~ (v <~ dict_item dict "ff" ;; number v) ;;
   fn <~ (v <~ dict_item dict "fn" ;; number v) ;;
   let sfc := ff / fn in
   t41 <~ dict_item dict "t4" ;;
   Ok [("sfc"%string, Some sfc); ("thtl"%string, Some throttle);
       ("t4"%string, t41)])%py.

Definition set_tune_factor (v : R) (s : Semi_empiric_tf_nacelle)
  : Semi_empiric_tf_nacelle :=
  {| n_engine := n_engine s; reference_thrust := reference_thrust s;
     reference_offtake := reference_offtake s;
     rating_factor := rating_factor s; tune_factor := v;
     engine_bpr := engine_bpr s; core_thrust_ratio := core_thrust_ratio s;
     efficiency_prop := efficiency_prop s; width := width s;
     length := length s; gross_wet_area := gross_wet_area s;
     net_wet_area := net_wet_area s; aero_length := aero_length s;
     form_factor := form_factor s; frame_origin := frame_origin s |}.

Definition set_geometry (w l gross : R) (s : Semi_empiric_tf_nacelle)
  : Semi_empiric_tf_nacelle :=
  {| n_engine := n_engine s; reference_thrust := reference_thrust s;
     reference_offtake := reference_offtake s;
     rating_factor := rating_factor s; tune_factor := tune_factor s;
     engine_bpr := engine_bpr s; core_thrust_ratio := core_thrust_ratio s;
     efficiency_prop := efficiency_prop s; width := Some w;
     length := Some l; gross_wet_area := gross;
     net_wet_area := gross; aero_length := l;
     form_factor := 1.15; frame_origin := frame_origin s |}.

Definition set_frame_origin (v : list (option R)) (s : Semi_empiric_tf_nacelle)
  : Semi_empiric_tf_nacelle :=
  {| n_engine := n_engine s; reference_thrust := reference_thrust s;
     reference_offtake := reference_offtake s;
     rating_factor := rating_factor s; tune_factor := tune_factor s;
     engine_bpr := engine_bpr s; core_thrust_ratio := core_thrust_ratio s;
     efficiency_prop := efficiency_prop s; width := width s;
     length := length s; gross_wet_area := gross_wet_area s;
     net_wet_area := net_wet_area s; aero_length := aero_length s;
     form_factor := form_factor s; frame_origin := v |}.

(** [eval_geometry]: the tuning of the thrust model, then the statistical
    regressions of the nacelle dimensions. *)
Definition eval_geometry : M Semi_empiric_tf_nacelle unit :=
  (let mach := 0.25 in
   let disa := 15 in
   let altp := 0 in
   let '(pamb, tamb, tstd, dtodz) := earth_atmosphere altp disa in
   let vair := mach * sound_speed tamb in
   modify (set_tune_factor 1) ;;;
   dict <- (fun s => (unitary_thrust s pamb tamb mach "MTO" 1 0, s)) ;;
   fn <- lift (v <~ dict_item dict "fn" ;; number v) ;;
   rt <- gets reference_thrust ;;
   modify (set_tune_factor (rt / (fn / 0.80))) ;;;
   s <- gets (fun s => s) ;;
   let total_thrust0 := reference_thrust s * 0.80 in
   let core_thrust0 := total_thrust0 * core_thrust_ratio s in
   let fan_thrust0 := total_thrust0 * (1 - core_thrust_ratio s) in
   let fan_power0 := fan_thrust0 * vair / efficiency_prop s in
   let fan_power := fan_power0 - reference_offtake s * n_engine s in
   let fan_thrust := (fan_power / vair) * efficiency_prop s in
   let total_thrust := fan_thrust + core_thrust0 in
   let thrust_factor := total_thrust / total_thrust0 in
   let w := 0.5 * pypow (engine_bpr s) 0.7
            + 5e-6 * reference_thrust s * thrust_factor in
   let l := 0.86 * w + pypow (engine_bpr s) 0.37 in
   let knac := PI * w * l in
   modify (set_geometry w l (knac * (1.48 - 0.0076 * knac) * n_engine s)) ;;;
   s <- gets (fun s => s) ;;
   modify (set_frame_origin (locate_nacelle s)))%py.

End Model.

End Turbofan.

(* ====================================================================== *)
(** ** Vocabulary of the payload-range diagram *)

Module PlrSpec.
Import Pico Plr.

(** The value of [max_range] as a function of the corners and the payload. *)
Definition range_at (pm pfm rpm rfm rnp payload : R) : R :=
  if Rlt_dec pm payload then 0
  else if Rlt_dec pfm payload then
    rfm + (payload - pfm) * (rpm - rfm) / (pm - pfm)
  else rnp + payload * (rfm - rnp) / pfm.

(** The four margins of [is_in_plr]: maximum payload, maximum take-off
    weight, maximum fuel and maximum range. *)
Definition margins (pm pfm rpm rfm rnp payload rng : R) : R * R * R * R :=
  (pm - payload,
   (payload - pfm) * (rpm - rfm) - (pm - pfm) * (rng - rfm),
   payload * (rfm - rnp) - pm * (rng - rnp),
   rnp - rng).

(** An object whose payload-range corners are known. *)
Definition sized (a : Aircraft) (pm pfm rpm rfm rnp : R) : Prop :=
  payload_max a = Some pm /\ payload_fuel_max a = Some pfm /\
  range_pl_max a = Some rpm /\ range_fuel_max a = Some rfm /\
  range_no_pl a = Some rnp.

End PlrSpec.

(* ====================================================================== *)
(** ** Vocabulary of the electric-fan sizing *)

Module NacelleDesignSpec.
Import Nacelle NacelleDesign.

(** The jet velocity and the mass flow that [efan_nacelle_design] chooses
    for the air speed [Vair] and the shaft power. *)
Definition design_jet_velocity (self : Ef_nacelle) (Vair : R) : R :=
  Vair + 2 * Vair * (efficiency_fan (propulsion self) / efficiency_prop self - 1).

Definition design_flow (self : Ef_nacelle) (Vair shaft_power : R) : R :=
  2 * (efficiency_fan (propulsion self) * shaft_power)
  / (design_jet_velocity self Vair ^ 2 - Vair ^ 2).

End NacelleDesignSpec.

(* ====================================================================== *)
(** ** Vocabulary of the turbofan model *)

Module TurbofanSpec.
Import Turbofan.

(** The thrust of [unitary_thrust] before the power off-take is deducted,
    for the rating factor [rf] and the density ratio [sig]. *)
Definition nominal_thrust (self : Semi_empiric_tf_nacelle)
    (mach rf throttle sig : R) : R :=
  reference_thrust self * tune_factor self
  * (0.475 * mach ^ 2 + 0.091 * (engine_bpr self / 10) ^ 2
     - 0.283 * mach * engine_bpr self / 10
     - 0.633 * mach - 0.081 * engine_bpr self / 10 + 1.192)
  * rf * throttle * pypow sig 0.75.

(** The reference specific fuel consumption of [unitary_thrust]. *)
Definition sfc_ref (self : Semi_empiric_tf_nacelle) : R :=
  (0.4 + 1 / Rpower (engine_bpr self) 0.895) / 36000.

End TurbofanSpec.

(* ====================================================================== *)
(** ** Further instances used by the examples *)

Module MoreExamples.
Import Pico PicoSpec Examples.

(** The range that the Breguet relation of [ac_sized] gives for a take-off
    weight of 77000 kg and a mission fuel of 12800 kg. *)
Definition range_sized : R := K_150 * ln (77000 / (77000 - 12800)).

(** A root-finder that evaluates the residual at the initial guess only, and
    reports convergence there exactly when the residual is below [tol] in
    absolute value. *)
Definition fsolve_accepts (tol : R) : R -> strategy R R :=
  fun x0 =>
    Eval x0 (fun y =>
      if Rlt_dec (Rabs y) tol then Done x0 1%Z else Done x0 5%Z).

(** The initial guess of the flow of [nacelle_150] at take-off, the shaft
    power at 95% throttle, the nacelle whose nozzle is sized for them, and
    its thrust. *)
Definition q_guess : R :=
  NacelleSpec.flow_guess gas_air total_pressure_air total_temperature_air
    101325 303.15 0.25 2.
Definition Pw_95 : R := NacelleSpec.shaft_power nacelle_150 1.00 0.95 0.
Definition nacelle_guess : Nacelle.Semi_empiric_ef_nacelle :=
  nacelle_sized q_guess Pw_95.
Definition thrust_95 : R :=
  q_guess * (NacelleSpec.jet_velocity 0.95 Pw_95 q_guess Vair_to - Vair_to).

(** [earth.air_density] of a perfect gas (density and its ratio to the sea
    level density), [earth.atmosphere] at sea level, and a nacelle position. *)
Definition air_density_air (pamb tamb : R) : R * R :=
  (pamb / (287.053 * tamb), pamb / (287.053 * tamb) / 1.225).
Definition atmosphere_sea_level (altp disa : R) : R * R * R * R :=
  (101325, 288.15 + disa, 288.15, -0.0065).
Definition locate_origin (s : Turbofan.Semi_empiric_tf_nacelle)
  : list (option R) := [Some 0; Some 0; Some 0].

(** The turbofan nacelle of a twin-engine aircraft for 150 passengers and
    3000 NM, as [__init__] leaves it. *)
Definition tf_nacelle_150 : Turbofan.Semi_empiric_tf_nacelle :=
  {| Turbofan.n_engine := 2;
     Turbofan.reference_thrust := (1e5 + 177 * 150 * (3000 * 1852) * 1e-6) / 2;
     Turbofan.reference_offtake := 0;
     Turbofan.rating_factor :=
       [("MTO"%string, 1.00); ("MCN"%string, 0.86); ("MCL"%string, 0.78);
        ("MCR"%string, 0.70); ("FID"%string, 0.10); ("VAR"%string, 1)];
     Turbofan.tune_factor := 1;
     Turbofan.engine_bpr := 9;
     Turbofan.core_thrust_ratio := 0.13;
     Turbofan.efficiency_prop := 0.82;
     Turbofan.width := None;
     Turbofan.length := None;
     Turbofan.gross_wet_area := 0;
     Turbofan.net_wet_area := 0;
     Turbofan.aero_length := 0;
     Turbofan.form_factor := 0;
     Turbofan.frame_origin := [None; None; None] |}.

(** The electric-fan nacelle of [nacelle_150] with the other attributes of
    [__init__], before [efan_nacelle_design]. *)
Definition ef_nacelle_150 : NacelleDesign.Ef_nacelle :=
  {| NacelleDesign.propulsion := nacelle_150;
     NacelleDesign.n_engine := 2;
     NacelleDesign.efficiency_prop := 0.82;
     NacelleDesign.hub_width := 0.20;
     NacelleDesign.nozzle_width := None;
     NacelleDesign.width := None;
     NacelleDesign.length := None;
     NacelleDesign.gross_wet_area := 0;
     NacelleDesign.net_wet_area := 0 |}.

End MoreExamples.

(* ====================================================================== *)
(** ** The fleet: bookkeeping of the flights *)

Module FleetModel.
Import Pico.

(** The attributes of [Fleet] used by [fleet_analysis]: the aircraft and one
    accumulator per aircraft and quantity. *)
Record Fleet : Type := mkFleet {
  aircraft : list Aircraft;
  fleet_trip : list R;
  fleet_npax : list R;
  fleet_capa : list R;
  fleet_dist : list R;
  fleet_fuel : list R;
  fleet_time : list R;
  fleet_paxkm : list R;
  fleet_tonkm : list R }.

(** [Fleet.__init__]. *)
Definition Fleet_init (ac_list : list Aircraft) : Fleet :=
  let n := List.length ac_list in
  {| aircraft := ac_list;
     fleet_trip := repeat 0 n;
     fleet_npax := repeat 0 n;
     fleet_capa := repeat 0 n;
     fleet_dist := repeat 0 n;
     fleet_fuel := repeat 0 n;
     fleet_time := repeat 0 n;
     fleet_paxkm := repeat 0 n;
     fleet_tonkm := repeat 0 n |}.

Fixpoint set_nth {A : Type} (l : list A) (i : nat) (v : A) : list A :=
  match l, i with
  | [], _ => []
  | _ :: t, O => v :: t
  | h :: t, S i' => h :: set_nth t i' v
  end.

Definition set_aircraft (v : list Aircraft) (s : Fleet) : Fleet :=
  mkFleet v (fleet_trip s) (fleet_npax s) (fleet_capa s) (fleet_dist s)
    (fleet_fuel s) (fleet_time s) (fleet_paxkm s) (fleet_tonkm s).
Definition set_fleet_trip (v : list R) (s : Fleet) : Fleet :=
  mkFleet (aircraft s) v (fleet_npax s) (fleet_capa s) (fleet_dist s)
    (fleet_fuel s) (fleet_time s) (fleet_paxkm s) (fleet_tonkm s).
Definition set_fleet_npax (v : list R) (s : Fleet) : Fleet :=
  mkFleet (aircraft s) (fleet_trip s) v (fleet_capa s) (fleet_dist s)
    (fleet_fuel s) (fleet_time s) (fleet_paxkm s) (fleet_tonkm s).
Definition set_fleet_capa (v : list R) (s : Fleet) : Fleet :=
  mkFleet (aircraft s) (fleet_trip s) (fleet_npax s) v (fleet_dist s)
    (fleet_fuel s) (fleet_time s) (fleet_paxkm s) (fleet_tonkm s).
Definition set_fleet_dist (v : list R) (s : Fleet) : Fleet :=
  mkFleet (aircraft s) (fleet_trip s) (fleet_npax s) (fleet_capa s) v
    (fleet_fuel s) (fleet_time s) (fleet_paxkm s) (fleet_tonkm s).
Definition set_fleet_fuel (v : list R) (s : Fleet) : Fleet :=
  mkFleet (aircraft s) (fleet_trip s) (fleet_npax s) (fleet_capa s)
    (fleet_dist s) v (fleet_time s) (fleet_paxkm s) (fleet_tonkm s).
Definition set_fleet_time (v : list R) (s : Fleet) : Fleet :=
  mkFleet (aircraft s) (fleet_trip s) (fleet_npax s) (fleet_capa s)
    (fleet_dist s) (fleet_fuel s) v (fleet_paxkm s) (fleet_tonkm s).
Definition set_fleet_paxkm (v : list R) (s : Fleet) : Fleet :=
  mkFleet (aircraft s) (fleet_trip s) (fleet_npax s) (fleet_capa s)
    (fleet_dist s) (fleet_fuel s) (fleet_time s) v (fleet_tonkm s).
Definition set_fleet_tonkm (v : list R) (s : Fleet) : Fleet :=
  mkFleet (aircraft s) (fleet_trip s) (fleet_npax s) (fleet_capa s)
    (fleet_dist s) (fleet_fuel s) (fleet_time s) (fleet_paxkm s) v.

(** [acc[i] += v] on one of the accumulators. *)
Definition add_at (get : Fleet -> list R) (set : list R -> Fleet -> Fleet)
    (i : nat) (v : R) : M Fleet unit :=
  (l <- gets get ;;
   x <- lift (idx l i) ;;
   l' <- lift (upd l i (x + v)) ;;
   modify (set l'))%py.

(** The fleet after the eight assignments of [fly_it] for the aircraft of
    index [i], whose [operation] returned [fuel] and [time] and whose mass
    per passenger is [mp]. *)
Definition booked (s : Fleet) (i : nat)
    (nflight capa npax_ dist fuel time mp : R) : Fleet :=
  let bump l v := replace_nth l i (nth i l 0 + v) in
  {| aircraft := aircraft s;
     fleet_trip := bump (fleet_trip s) nflight;
     fleet_npax := bump (fleet_npax s) (npax_ * nflight);
     fleet_capa := bump (fleet_capa s) (capa * nflight);
     fleet_dist := bump (fleet_dist s) (dist * nflight);
     fleet_fuel := bump (fleet_fuel s) (fuel * nflight);
     fleet_time := bump (fleet_time s) (time * nflight);
     fleet_paxkm := bump (fleet_paxkm s) (npax_ * (dist * 1e-3) * nflight);
     fleet_tonkm := bump (fleet_tonkm s)
                      ((dist * 1e-3) * (npax_ * mp * 1e-3) * nflight) |}.

Section Model.

Variable convert_from_kg_daN_h : R -> R.
Variable fsolve : R * R -> strategy (R * R) (R * R).

(** [self.aircraft[i].operation(npax,dist)]: the method runs on the [i]-th
    aircraft, which is an object shared with the list. *)
Definition aircraft_operation (i : nat) (npax_ dist : R) : M Fleet (R * R * R) :=
  fun s =>
    match nth_error (aircraft s) i with
    | None => (Raise IndexError, s)
    | Some ac =>
        let '(o, ac') := operation convert_from_kg_daN_h fsolve npax_ dist ac in
        (o, set_aircraft (set_nth (aircraft s) i ac') s)
    end.

(** The closure [fly_it] of [fleet_analysis]. *)
Definition fly_it (i : nat) (nflight capa npax_ dist : R) : M Fleet unit :=
  ('(fuel, time, tow) <- aircraft_operation i npax_ dist ;;
   add_at fleet_trip set_fleet_trip i nflight ;;;
   add_at fleet_npax set_fleet_npax i (npax_ * nflight) ;;;
   add_at fleet_capa set_fleet_capa i (capa * nflight) ;;;
   add_at fleet_dist set_fleet_dist i (dist * nflight) ;;;
   add_at fleet_fuel set_fleet_fuel i (fuel * nflight) ;;;
   add_at fleet_time set_fleet_time i (time * nflight) ;;;
   add_at fleet_paxkm set_fleet_paxkm i (npax_ * (dist * 1e-3) * nflight) ;;;
   acs <- gets aircraft ;;
   mp <- (fun s => match nth_error acs i with
                   | Some ac => (Ok (mpax ac), s)
                   | None => (Raise IndexError, s)
                   end) ;;
   add_at fleet_tonkm set_fleet_tonkm i
     ((dist * 1e-3) * (npax_ * mp * 1e-3) * nflight))%py.

(** The loop of [fleet_analysis] that serves a demand above the capacity of
    the largest aircraft (index [i]) by full flights:
    [while npax>0.40*capa: fly_it(i,nflight,capa,capa,dist); npax -= capa;
    nf += 1].  The result is the remaining demand and the number of turns;
    [fuel] bounds the number of tests of the loop condition, and [None]
    means that the bound was reached before the loop ended.  The two [print]
    calls around the loop are not modelled. *)
Fixpoint fly_at_capacity (fuel : nat) (i : nat) (nflight capa dist npax_ : R)
    (nf : Z) : M Fleet (option (R * Z)) :=
  match fuel with
  | O => ret None
  | S fuel' =>
      if Rgt_dec npax_ (0.40 * capa) then
        (fly_it i nflight capa capa dist ;;;
         fly_at_capacity fuel' i nflight capa dist (npax_ - capa) (nf + 1))%py
      else ret (Some (npax_, nf))
  end.

End Model.

End FleetModel.

(* ====================================================================== *)
(** ** Vocabulary of the fleet *)

Module FleetSpec.
Import Pico FleetModel.

(** [ac] is the aircraft of index [i] and each accumulator has an entry of
    that index, as after [Fleet.__init__]. *)
Definition fleet_ok (s : Fleet) (i : nat) (ac : Aircraft) : Prop :=
  nth_error (aircraft s) i = Some ac /\
  (i < List.length (fleet_trip s))%nat /\ (i < List.length (fleet_npax s))%nat /\
  (i < List.length (fleet_capa s))%nat /\ (i < List.length (fleet_dist s))%nat /\
  (i < List.length (fleet_fuel s))%nat /\ (i < List.length (fleet_time s))%nat /\
  (i < List.length (fleet_paxkm s))%nat /\ (i < List.length (fleet_tonkm s))%nat.

End FleetSpec.

(* ====================================================================== *)
(** ** Instances of the fleet examples *)

Module FleetExamples.
Import Pico PicoSpec Examples MoreExamples FleetModel.

(** A fleet of one aircraft, and the range that the Breguet relation of
    [ac_sized] gives without passengers for a mission fuel of 10000 kg. *)
Definition fleet_one : Fleet := Fleet_init [ac_sized].
Definition range_empty : R := K_150 * ln (54560 / (54560 - 10000)).

End FleetExamples.

(* ====================================================================== *)
(** * Properties *)

Module PicoFacts.
Import Pico PicoSpec.

Lemma atmosphere_loop_unfold altp j T P :
  atmosphere_loop altp j T P =
  match idx Z_tab (1+j) with
  | Raise e => Raise e
  | Ok z1 =>
      if Rle_dec z1 altp then
        match atmosphere_body j T P with
        | Ok (T', P') => atmosphere_loop altp (j+1) T' P'
        | Raise ex => Raise ex
        end
      else Ok (j, T, P)
  end.
Proof.
  funelim (atmosphere_loop altp j T P); unfold idx; rewrite e; try reflexivity.
  - rewrite Heq; reflexivity.
  - rewrite Heq0, Heq; reflexivity.
  - rewrite Heq0, Heq; reflexivity.
Qed.

Lemma six_inv a : six a -> exists a0 a1 a2 a3 a4 a5, a = [a0; a1; a2; a3; a4; a5].
Proof.
  unfold six; intros H.
  do 6 (destruct a as [|? a]; [discriminate|]).
  destruct a; [|discriminate]. repeat eexists.
Qed.

Lemma atmosphere_body_ok j T P :
  (j < 5)%nat -> six T -> six P ->
  exists T' P', atmosphere_body j T P = Ok (T', P') /\ six T' /\ six P'.
Proof.
  intros Hj HT HP.
  destruct (six_inv T HT) as (t0 & t1 & t2 & t3 & t4 & t5 & ->).
  destruct (six_inv P HP) as (p0 & p1 & p2 & p3 & p4 & p5 & ->).
  do 5 (destruct j as [|j]; [unfold atmosphere_body; cbn;
        destruct (Rlt_dec _ _); cbn; do 2 eexists; repeat split; reflexivity|]).
  lia.
Qed.

Ltac rdec :=
  match goal with
  | |- context [Rle_dec ?a ?b] => destruct (Rle_dec a b); try lra
  | |- context [Rlt_dec ?a ?b] => destruct (Rlt_dec a b); try lra
  end.

(** One turn of the loop whose test succeeds. *)
Lemma atmosphere_loop_step altp j z T P :
  (j < 5)%nat -> six T -> six P ->
  idx Z_tab (1 + j) = Ok z -> z <= altp ->
  exists T' P', six T' /\ six P' /\
    atmosphere_loop altp j T P = atmosphere_loop altp (S j) T' P'.
Proof.
  intros Hj HT HP Hz Hle. rewrite <- Nat.add_1_r.
  destruct (atmosphere_body_ok j T P Hj HT HP) as (T' & P' & Hb & HT' & HP').
  exists T', P'. repeat split; trivial.
  rewrite atmosphere_loop_unfold, Hz.
  destruct (Rle_dec z altp); [|contradiction].
  now rewrite Hb.
Qed.

(** The turn whose test fails ends the loop. *)
Lemma atmosphere_loop_stop altp j z T P :
  idx Z_tab (1 + j) = Ok z -> altp < z ->
  atmosphere_loop altp j T P = Ok (j, T, P).
Proof.
  intros Hz Hlt. rewrite atmosphere_loop_unfold, Hz.
  destruct (Rle_dec z altp); [lra|reflexivity].
Qed.

Lemma six_T_init : six T_init. Proof. reflexivity. Qed.
Lemma six_P_init : six P_init. Proof. reflexivity. Qed.

(** Below the ceiling the loop stops at a band [j <= 4] with full arrays. *)
Lemma atmosphere_loop_below altp :
  altp < 50000 ->
  exists j T P, (j < 5)%nat /\ six T /\ six P /\
    atmosphere_loop altp 0 T_init P_init = Ok (j, T, P).
Proof.
  intros Hlt.
  pose proof six_T_init as HT. pose proof six_P_init as HP.
  revert HT HP. generalize T_init as T, P_init as P. intros T P HT HP.
  destruct (Rlt_le_dec altp 11000) as [H1|H1].
  { exists 0%nat, T, P. repeat split; trivial; try lia.
    apply atmosphere_loop_stop with (z := 11000); [reflexivity|lra]. }
  destruct (atmosphere_loop_step altp 0 11000 T P ltac:(lia) HT HP eq_refl ltac:(lra))
    as (T1 & P1 & HT1 & HP1 & ->).
  destruct (Rlt_le_dec altp 20000) as [H2|H2].
  { exists 1%nat, T1, P1. repeat split; trivial; try lia.
    apply atmosphere_loop_stop with (z := 20000); [reflexivity|lra]. }
  destruct (atmosphere_loop_step altp 1 20000 T1 P1 ltac:(lia) HT1 HP1 eq_refl ltac:(lra))
    as (T2 & P2 & HT2 & HP2 & ->).
  destruct (Rlt_le_dec altp 32000) as [H3|H3].
  { exists 2%nat, T2, P2. repeat split; trivial; try lia.
    apply atmosphere_loop_stop with (z := 32000); [reflexivity|lra]. }
  destruct (atmosphere_loop_step altp 2 32000 T2 P2 ltac:(lia) HT2 HP2 eq_refl ltac:(lra))
    as (T3 & P3 & HT3 & HP3 & ->).
  destruct (Rlt_le_dec altp 47000) as [H4|H4].
  { exists 3%nat, T3, P3. repeat split; trivial; try lia.
    apply atmosphere_loop_stop with (z := 47000); [reflexivity|lra]. }
  destruct (atmosphere_loop_step altp 3 47000 T3 P3 ltac:(lia) HT3 HP3 eq_refl ltac:(lra))
    as (T4 & P4 & HT4 & HP4 & ->).
  exists 4%nat, T4, P4. repeat split; trivial; try lia.
  apply atmosphere_loop_stop with (z := 50000); [reflexivity|lra].
Qed.

(** From the ceiling upwards every test succeeds and the sixth test reads
    [Z[6]]. *)
Lemma atmosphere_loop_overrun altp :
  50000 <= altp -> atmosphere_loop altp 0 T_init P_init = Raise IndexError.
Proof.
  intros Hle.
  pose proof six_T_init as HT. pose proof six_P_init as HP.
  revert HT HP. generalize T_init as T, P_init as P. intros T P HT HP.
  destruct (atmosphere_loop_step altp 0 11000 T P ltac:(lia) HT HP eq_refl ltac:(lra))
    as (T1 & P1 & HT1 & HP1 & ->).
  destruct (atmosphere_loop_step altp 1 20000 T1 P1 ltac:(lia) HT1 HP1 eq_refl ltac:(lra))
    as (T2 & P2 & HT2 & HP2 & ->).
  destruct (atmosphere_loop_step altp 2 32000 T2 P2 ltac:(lia) HT2 HP2 eq_refl ltac:(lra))
    as (T3 & P3 & HT3 & HP3 & ->).
  destruct (atmosphere_loop_step altp 3 47000 T3 P3 ltac:(lia) HT3 HP3 eq_refl ltac:(lra))
    as (T4 & P4 & HT4 & HP4 & ->).
  destruct (atmosphere_loop_step altp 4 50000 T4 P4 ltac:(lia) HT4 HP4 eq_refl ltac:(lra))
    as (T5 & P5 & HT5 & HP5 & ->).
  rewrite atmosphere_loop_unfold. reflexivity.
Qed.

Lemma atmosphere_guard altp disa :
  atmosphere altp disa =
  if Rlt_dec 50000 altp then
    Raise (Exception "atmosphere, altitude cannot exceed 50km")
  else
    ('(j, T, P) <~ atmosphere_loop altp 0 T_init P_init ;;
     dj <~ idx dtodz_tab j ;;
     Pj <~ idx P j ;;
     Tj <~ idx T j ;;
     Zj <~ idx Z_tab j ;;
     let pamb :=
       if Rlt_dec 0 (Rabs dj)
       then Pj * Rpower (1 + (dj / Tj) * (altp - Zj)) (- g_const / (r_const * dj))
       else Pj * exp (- (g_const / r_const) * ((altp - Zj) / Tj)) in
     let tamb := Tj + dj * (altp - Zj) + disa in
     let vsnd := sqrt (gam_const * r_const * tamb) in
     Ok (pamb, tamb, vsnd, g_const))%py.
Proof. reflexivity. Qed.

Lemma atmosphere_above_ceiling altp disa :
  50000 < altp ->
  atmosphere altp disa = Raise (Exception "atmosphere, altitude cannot exceed 50km").
Proof.
  intros H. rewrite atmosphere_guard. destruct (Rlt_dec 50000 altp); [reflexivity|lra].
Qed.

Lemma atmosphere_below_ceiling altp disa :
  altp < 50000 ->
  exists pamb tamb vsnd, atmosphere altp disa = Ok (pamb, tamb, vsnd, g_const).
Proof.
  intros H. rewrite atmosphere_guard. destruct (Rlt_dec 50000 altp); [lra|].
  destruct (atmosphere_loop_below altp H) as (j & T & P & Hj & HT & HP & ->).
  destruct (six_inv T HT) as (t0 & t1 & t2 & t3 & t4 & t5 & ->).
  destruct (six_inv P HP) as (p0 & p1 & p2 & p3 & p4 & p5 & ->).
  do 5 (destruct j as [|j]; [cbn; do 3 eexists; reflexivity|]).
  lia.
Qed.

(** Below 11 km the loop does not turn and the first band applies. *)
Lemma atmosphere_troposphere altp disa :
  altp < 11000 ->
  atmosphere altp disa =
  Ok (101325 * Rpower (1 + (-0.0065 / 288.15) * (altp - 0))
                      (- g_const / (r_const * -0.0065)),
      288.15 + -0.0065 * (altp - 0) + disa,
      sqrt (gam_const * r_const * (288.15 + -0.0065 * (altp - 0) + disa)),
      g_const).
Proof.
  intros H. rewrite atmosphere_guard.
  destruct (Rlt_dec 50000 altp); [lra|].
  rewrite (atmosphere_loop_stop altp 0 11000) by (reflexivity || lra).
  cbn [obind idx nth_error dtodz_tab T_init P_init Z_tab].
  destruct (Rlt_dec 0 (Rabs (-0.0065))) as [_|Hn]; [reflexivity|].
  exfalso. apply Hn. apply Rabs_pos_lt. lra.
Qed.

(** The only exceptions of [atmosphere]. *)
Lemma atmosphere_raises altp disa e :
  atmosphere altp disa = Raise e ->
  e = IndexError \/ e = Exception "atmosphere, altitude cannot exceed 50km".
Proof.
  intros H.
  destruct (Rlt_le_dec altp 50000) as [Hlt|Hge].
  - destruct (atmosphere_below_ceiling altp disa Hlt) as (p & t & v & Hok).
    rewrite Hok in H. discriminate.
  - destruct Hge as [Hgt|Heq].
    + rewrite atmosphere_above_ceiling in H by exact Hgt.
      injection H as <-. now right.
    + rewrite atmosphere_guard in H.
      destruct (Rlt_dec 50000 altp); [lra|].
      rewrite atmosphere_loop_overrun in H by lra.
      injection H as <-. now left.
Qed.

(** C7 (code defect).  At the documented ceiling itself, [altp = 50000] m,
    the guard [Z[-1] < altp] lets the call through, all five loop tests
    succeed, and the sixth test reads [Z[6]] past the end of the altitude
    table: the call raises [IndexError] instead of returning the ambient
    data. *)
Theorem atmosphere_at_ceiling_IndexError (disa : R) :
  atmosphere 50000 disa = Raise IndexError.
Proof.
  rewrite atmosphere_guard. destruct (Rlt_dec 50000 50000); [lra|].
  rewrite atmosphere_loop_overrun by lra. reflexivity.
Qed.

End PicoFacts.

Module PicoMethods.
Import Pico PicoSpec.

Ltac step_fields :=
  cbn [cruise_altp cruise_mach cruise_speed range npax mpax payload mtow owe
       ldw fuel_mission fuel_reserve kr payload_max range_pl_max
       payload_fuel_max range_fuel_max range_no_pl lod sfc eff_ratio owe_coef
       set_cruise_speed set_mpax set_payload set_mtow set_owe set_ldw
       set_fuel_mission set_fuel_reserve set_kr set_payload_max
       set_range_pl_max set_payload_fuel_max set_range_fuel_max
       set_range_no_pl set_eff_ratio set_owe_coef design_point design_partial
       need fst snd].

Ltac step_bind := unfold bind at 1; step_fields.

(** Call-by-value evaluation of attribute assignments and reads. *)
Ltac norm_fields :=
  cbv beta iota zeta delta
    [cruise_altp cruise_mach cruise_speed range npax mpax payload mtow owe
     ldw fuel_mission fuel_reserve kr payload_max range_pl_max
     payload_fuel_max range_fuel_max range_no_pl lod sfc eff_ratio owe_coef
     set_cruise_speed set_mpax set_payload set_mtow set_owe set_ldw
     set_fuel_mission set_fuel_reserve set_kr set_payload_max
     set_range_pl_max set_payload_fuel_max set_range_fuel_max
     set_range_no_pl set_eff_ratio set_owe_coef design_point design_partial
     corners frame params fst snd].

Section Facts.
Variable conv : R -> R.

Lemma structure_None m a :
  structure m None a = (structure_value (owe_coef a) m, a).
Proof.
  unfold structure, structure_value, bind, ret, gets, lift, modify, obind.
  destruct (idx (owe_coef a) 0); trivial.
  destruct (idx (owe_coef a) 1); trivial.
  destruct (idx (owe_coef a) 2); trivial.
Qed.

Lemma structure_Some m c a :
  structure m (Some c) a = (structure_value c m, set_owe_coef c a).
Proof.
  unfold structure, structure_value, bind, ret, gets, lift, modify, obind.
  cbn [owe_coef set_owe_coef].
  destruct (idx c 0); trivial.
  destruct (idx c 1); trivial.
  destruct (idx c 2); trivial.
Qed.

Lemma mission_None tow fm a :
  mission conv tow fm None a = (breguet a tow fm, a).
Proof.
  unfold mission, breguet, range_factor, bind, ret, gets, lift, modify, obind.
  destruct (atmosphere (cruise_altp a) 0) as [[[[pamb tamb] vsnd] g]|e]; trivial.
Qed.

Lemma mission_Some tow fm e a :
  mission conv tow fm (Some e) a =
  (breguet (set_eff_ratio (e / conv 1) a) tow fm, set_eff_ratio (e / conv 1) a).
Proof.
  unfold mission, breguet, range_factor, bind, ret, gets, lift, modify, obind.
  cbn [cruise_altp set_eff_ratio].
  destruct (atmosphere (cruise_altp a) 0) as [[[[pamb tamb] vsnd] g]|ex]; trivial.
Qed.

Lemma eval_design_spec X a :
  eval_design conv X a =
  match residual a X with
  | Ok y => (Ok y, design_point a X)
  | Raise e => (Raise e, design_partial a X)
  end.
Proof.
  unfold eval_design.
  step_bind. unfold modify at 1.
  step_bind. unfold modify at 1.
  step_bind. unfold getf at 1. step_fields.
  step_bind. rewrite structure_None. step_fields.
  unfold residual at 1. unfold obind at 1.
  destruct (structure_value (owe_coef a) (fst X)) as [owe_eff|e]; [|reflexivity].
  step_bind. unfold getf at 1. step_fields.
  step_bind. unfold getf at 1. step_fields.
  step_bind. rewrite mission_None. step_fields.
  unfold breguet at 1 2. unfold range_factor at 1 2. step_fields.
  destruct (atmosphere (cruise_altp a) 0) as [[[[pamb tamb] vsnd] g]|e];
    cbn [obind]; [|reflexivity].
  step_bind. unfold gets at 1. step_fields.
  step_bind. unfold getf at 1. step_fields.
  step_bind. unfold modify at 1. step_fields.
  step_bind. unfold getf at 1. step_fields.
  step_bind. unfold getf at 1. step_fields.
  step_bind. unfold modify at 1. step_fields.
  step_bind. unfold gets at 1. step_fields.
  step_bind. unfold gets at 1. step_fields.
  step_bind. unfold modify at 1. step_fields.
  step_bind. unfold getf at 1. step_fields.
  step_bind. unfold getf at 1. step_fields.
  step_bind. unfold getf at 1. step_fields.
  step_bind. unfold getf at 1. step_fields.
  step_bind. unfold modify at 1. step_fields.
  step_bind. unfold getf at 1. step_fields.
  step_bind. unfold gets at 1. step_fields.
  unfold ret.
  reflexivity.
Qed.

End Facts.
End PicoMethods.

Module PicoRuns.
Import Pico PicoSpec PicoFacts PicoMethods.

Section Facts.
Variable conv : R -> R.

Lemma frame_design_point a X : frame (design_point a X) = frame a.
Proof. reflexivity. Qed.

Lemma frame_design_partial a X : frame (design_partial a X) = frame a.
Proof. reflexivity. Qed.

Lemma frame_fields a b :
  frame a = frame b ->
  cruise_altp a = cruise_altp b /\ cruise_mach a = cruise_mach b /\
  cruise_speed a = cruise_speed b /\ range a = range b /\
  npax a = npax b /\ mpax a = mpax b /\ kr a = kr b /\
  payload_max a = payload_max b /\ range_pl_max a = range_pl_max b /\
  payload_fuel_max a = payload_fuel_max b /\
  range_fuel_max a = range_fuel_max b /\ range_no_pl a = range_no_pl b /\
  lod a = lod b /\ sfc a = sfc b /\ eff_ratio a = eff_ratio b /\
  owe_coef a = owe_coef b.
Proof.
  intros H. destruct a, b. unfold frame in H. cbn in H.
  injection H as -> -> -> -> -> -> -> -> -> -> -> -> -> -> -> ->.
  cbn. repeat split.
Qed.

Lemma residual_frame a b X : frame a = frame b -> residual a X = residual b X.
Proof.
  intros H. apply frame_fields in H.
  destruct H as (H1 & H2 & _ & H4 & H5 & H6 & H7 & _ & _ & _ & _ & _ & _ & _ & H15 & H16).
  unfold residual, breguet, range_factor.
  now rewrite H1, H2, H4, H5, H6, H7, H15, H16.
Qed.

Lemma design_point_frame a b X :
  frame a = frame b -> design_point a X = design_point b X.
Proof.
  intros H. destruct a, b. unfold frame in H. cbn in H.
  injection H as -> -> -> -> -> -> -> -> -> -> -> -> -> -> -> ->.
  reflexivity.
Qed.

Lemma answer_ext {X Y : Type} (F G : X -> outcome Y) (p : strategy X Y) :
  (forall x, F x = G x) -> answer F p = answer G p.
Proof.
  intros H. induction p as [x ier|x k IH]; cbn; trivial.
  rewrite <- H. destruct (F x); trivial.
Qed.

(** A run of the solver against [eval_design]: the answer is that of the
    run against the residual, and the object is [after_run]. *)
Lemma run_eval_design p : forall a cur,
  frame cur = frame a ->
  run (eval_design conv) p cur = (answer (residual a) p, after_run a cur p).
Proof.
  induction p as [x ier|x k IH]; intros a cur Hf; cbn [run answer after_run].
  - reflexivity.
  - rewrite eval_design_spec, (residual_frame cur a x Hf).
    destruct (residual a x) as [y|e]; [|reflexivity].
    rewrite (design_point_frame cur a x Hf).
    apply IH. apply frame_design_point.
Qed.

Lemma frame_after_run p : forall a cur,
  frame cur = frame a -> frame (after_run a cur p) = frame a.
Proof.
  induction p as [x ier|x k IH]; intros a cur Hf; cbn; trivial.
  destruct (residual a x) as [y|e].
  - apply IH, frame_design_point.
  - now rewrite frame_design_partial.
Qed.

(** After a run that returns, the object is the one it started from when
    the solver asked nothing, and otherwise carries the attributes of the
    last point asked. *)
Lemma after_run_last p : forall a cur r,
  answer (residual a) p = Ok r ->
  (queries (residual a) p = [] /\ after_run a cur p = cur) \/
  (exists l xl, queries (residual a) p = l ++ [xl] /\
                after_run a cur p = design_point a xl).
Proof.
  induction p as [x ier|x k IH]; intros a cur r Ha; cbn in *.
  - now left.
  - right. destruct (residual a x) as [y|e]; [|discriminate].
    destruct (IH y a (design_point a x) r Ha) as [[Hq Hs]|(l & xl & Hq & Hs)].
    + exists [], x. now rewrite Hq, Hs.
    + exists (x :: l), xl. now rewrite Hq, Hs.
Qed.

(** The exceptions of the residual are those of the table lookups and of
    the atmosphere. *)
Lemma structure_value_raises c m e :
  structure_value c m = Raise e -> e = IndexError.
Proof.
  unfold structure_value, idx, obind.
  destruct (nth_error c 0); [|now intros [= <-]].
  destruct (nth_error c 1); [|now intros [= <-]].
  destruct (nth_error c 2); [|now intros [= <-]].
  discriminate.
Qed.

Lemma breguet_raises a tow fm e :
  breguet a tow fm = Raise e ->
  e = IndexError \/ e = Exception "atmosphere, altitude cannot exceed 50km".
Proof.
  unfold breguet, range_factor, obind.
  destruct (atmosphere (cruise_altp a) 0) as [[[[pamb tamb] vsnd] g]|ex] eqn:Ha;
    [discriminate|].
  intros [= <-]. eapply atmosphere_raises; eauto.
Qed.

Lemma residual_raises a X e :
  residual a X = Raise e ->
  e = IndexError \/ e = Exception "atmosphere, altitude cannot exceed 50km".
Proof.
  unfold residual, obind.
  destruct (structure_value (owe_coef a) (fst X)) as [s|ex] eqn:Hs.
  - destruct (breguet a (fst X) (snd X)) as [b|ex] eqn:Hb; [discriminate|].
    intros [= <-]. eapply breguet_raises; eauto.
  - intros [= <-]. left. eapply structure_value_raises; eauto.
Qed.

Lemma answer_raises {X Y : Type} (F : X -> outcome Y) (p : strategy X Y) e :
  answer F p = Raise e -> exists x, F x = Raise e.
Proof.
  induction p as [x ier|x k IH]; cbn; [discriminate|].
  destruct (F x) as [y|ex] eqn:HF.
  - apply IH.
  - intros [= <-]. now exists x.
Qed.

End Facts.
End PicoRuns.

Module PicoDesign.
Import Pico PicoSpec PicoFacts PicoMethods PicoRuns.

Section Facts.
Variable conv : R -> R.
Variable fsolve : R * R -> strategy (R * R) (R * R).

Lemma design_setup_spec coef kr_ mpax_ effr a :
  design_setup conv coef kr_ mpax_ effr a =
  let b := with_overrides coef kr_ mpax_ a in
  match effr with
  | Some e => (Ok (guess b), set_eff_ratio (e / conv 1) b)
  | None =>
      match pydiv (l_o_d (npax b)) (sfc b) with
      | Ok er => (Ok (guess b), set_eff_ratio er b)
      | Raise ex => (Raise ex, b)
      end
  end.
Proof.
  unfold design_setup, with_overrides, override, guess,
    bind, ret, gets, lift, modify.
  destruct coef, kr_, mpax_, effr; cbn;
    try (destruct (pydiv _ _)); reflexivity.
Qed.

(** The setup assigns [owe_coef], [kr], [mpax] and [eff_ratio] only. *)
Lemma design_setup_keeps coef kr_ mpax_ effr a o a1 :
  design_setup conv coef kr_ mpax_ effr a = (o, a1) ->
  cruise_speed a1 = cruise_speed a /\ payload_max a1 = payload_max a /\
  range_pl_max a1 = range_pl_max a /\ payload_fuel_max a1 = payload_fuel_max a /\
  range_fuel_max a1 = range_fuel_max a /\ range_no_pl a1 = range_no_pl a /\
  mtow a1 = mtow a /\ fuel_mission a1 = fuel_mission a /\
  fuel_reserve a1 = fuel_reserve a /\ ldw a1 = ldw a /\
  payload a1 = payload a /\ owe a1 = owe a.
Proof.
  rewrite design_setup_spec. unfold with_overrides, override.
  destruct coef, kr_, mpax_, effr; cbn;
    try (destruct (pydiv _ _)); intros [= <- <-]; cbn; repeat split.
Qed.

Lemma design_setup_raises coef kr_ mpax_ effr a e a1 :
  design_setup conv coef kr_ mpax_ effr a = (Raise e, a1) ->
  e = ZeroDivisionError.
Proof.
  rewrite design_setup_spec. cbv zeta.
  destruct effr; [discriminate|].
  unfold pydiv. destruct (Req_dec_T _ 0); [|discriminate].
  now intros [= <- <-].
Qed.

(** [design_aircraft] in terms of its three phases. *)
Lemma design_aircraft_unfold coef kr_ mpax_ effr a :
  design_aircraft conv fsolve coef kr_ mpax_ effr a =
  match design_setup conv coef kr_ mpax_ effr a with
  | (Ok Xini, a1) =>
      match run (eval_design conv) (fsolve Xini) a1 with
      | (Ok (x, ier), a2) =>
          if negb (ier =? 1)%Z
          then (Raise (Exception "Convergence problem"), a2)
          else design_envelope conv x a2
      | (Raise e, a2) => (Raise e, a2)
      end
  | (Raise e, a1) => (Raise e, a1)
  end.
Proof.
  unfold design_aircraft, bind, raise.
  destruct (design_setup conv coef kr_ mpax_ effr a) as [[Xini|e] a1]; trivial.
  destruct (run (eval_design conv) (fsolve Xini) a1) as [[[x ier]|e] a2]; trivial.
  destruct (negb (ier =? 1)%Z); reflexivity.
Qed.

End Facts.
End PicoDesign.

Module PicoEnvelope.
Import Pico PicoSpec PicoFacts PicoMethods PicoRuns PicoDesign.

Section Facts.
Variable conv : R -> R.

Lemma residual_Ok a X y :
  residual a X = Ok y ->
  exists s pamb tamb vsnd g,
    structure_value (owe_coef a) (fst X) = Ok s /\
    atmosphere (cruise_altp a) 0 = Ok (pamb, tamb, vsnd, g) /\
    y = (fst X - npax a * mpax a - snd X - kr a * snd X - s,
         range a - (cruise_mach a * vsnd * eff_ratio a) / g
                   * ln (fst X / (fst X - snd X))).
Proof.
  unfold residual, breguet, range_factor, obind.
  destruct (structure_value (owe_coef a) (fst X)) as [s|e]; [|discriminate].
  destruct (atmosphere (cruise_altp a) 0) as [[[[pamb tamb] vsnd] g]|e];
    [|discriminate].
  intros [= <-]. now exists s, pamb, tamb, vsnd, g.
Qed.

Lemma design_envelope_spec a x pamb tamb vsnd g s :
  structure_value (owe_coef a) (fst x) = Ok s ->
  atmosphere (cruise_altp a) 0 = Ok (pamb, tamb, vsnd, g) ->
  design_envelope conv x a = (Ok tt, corners a x vsnd g).
Proof.
  intros Hs Ha.
  assert (HK : forall b, cruise_altp b = cruise_altp a ->
             range_factor b = Ok ((cruise_mach b * vsnd * eff_ratio b) / g)).
  { intros b Hb. unfold range_factor. rewrite Hb, Ha. reflexivity. }
  unfold design_envelope.
  step_bind. rewrite eval_design_spec.
  unfold residual. cbn [fst snd]. rewrite Hs. unfold breguet at 1.
  rewrite (HK a eq_refl). cbn [obind].
  step_bind. unfold gets at 1.
  step_bind. unfold lift at 1. step_fields. rewrite Ha.
  step_bind. unfold gets at 1. step_fields.
  step_bind. unfold modify at 1. step_fields.
  step_bind. unfold getf at 1. step_fields.
  step_bind. unfold modify at 1. step_fields.
  step_bind. unfold getf at 1. step_fields.
  step_bind. unfold getf at 1. step_fields.
  step_bind. unfold getf at 1. step_fields.
  step_bind. unfold gets at 1. step_fields.
  step_bind. unfold getf at 1. step_fields.
  step_bind. rewrite mission_None. unfold breguet at 1.
  rewrite HK by reflexivity. cbn [obind]. step_fields.
  step_bind. unfold modify at 1. step_fields.
  step_bind. unfold getf at 1. step_fields.
  step_bind. unfold modify at 1. step_fields.
  step_bind. unfold getf at 1. step_fields.
  step_bind. unfold getf at 1. step_fields.
  step_bind. unfold getf at 1. step_fields.
  step_bind. unfold gets at 1. step_fields.
  step_bind. unfold getf at 1. step_fields.
  step_bind. rewrite mission_None. unfold breguet at 1.
  rewrite HK by reflexivity. cbn [obind]. step_fields.
  step_bind. unfold modify at 1. step_fields.
  step_bind. unfold getf at 1. step_fields.
  step_bind. unfold gets at 1. step_fields.
  step_bind. rewrite mission_None. unfold breguet at 1.
  rewrite HK by reflexivity. cbn [obind]. step_fields.
  unfold modify. unfold corners. cbv zeta. step_fields.
  reflexivity.
Qed.

End Facts.
End PicoEnvelope.

Module PicoClaims.
Import Pico PicoSpec PicoFacts PicoMethods PicoRuns PicoDesign PicoEnvelope.
Import Examples.

Lemma residual_params a b X : params a = params b -> residual a X = residual b X.
Proof.
  unfold params. intros [= H1 H2 H3 H4 H5 H6 H7 H8].
  unfold residual, breguet, range_factor.
  now rewrite H1, H2, H3, H4, H5, H6, H7, H8.
Qed.

Lemma params_frame a b : frame a = frame b -> params a = params b.
Proof.
  intros H. apply frame_fields in H.
  destruct H as (H1 & H2 & _ & H4 & H5 & H6 & H7 & _ & _ & _ & _ & _ & _ & _ & H15 & H16).
  unfold params. now rewrite H1, H2, H4, H5, H6, H7, H15, H16.
Qed.

Lemma atmosphere_g altp disa pamb tamb vsnd g :
  atmosphere altp disa = Ok (pamb, tamb, vsnd, g) -> g = g_const.
Proof.
  intros H.
  destruct (Rlt_le_dec altp 50000) as [Hlt|Hge].
  - destruct (atmosphere_below_ceiling altp disa Hlt) as (p & t & v & Hok).
    rewrite Hok in H. now injection H.
  - destruct Hge as [Hgt|Heq].
    + rewrite atmosphere_above_ceiling in H by exact Hgt. discriminate.
    + rewrite atmosphere_guard in H.
      destruct (Rlt_dec 50000 altp); [lra|].
      rewrite atmosphere_loop_overrun in H by lra. discriminate.
Qed.

(** What a successful call of [design_aircraft] went through. *)
Lemma design_aircraft_Ok conv fsolve coef kr_ mpax_ effr a a' :
  design_aircraft conv fsolve coef kr_ mpax_ effr a = (Ok tt, a') ->
  exists Xini a1 x y pamb tamb vsnd,
    design_setup conv coef kr_ mpax_ effr a = (Ok Xini, a1) /\
    answer (residual a1) (fsolve Xini) = Ok (x, 1%Z) /\
    residual a1 x = Ok y /\
    atmosphere (cruise_altp a1) 0 = Ok (pamb, tamb, vsnd, g_const) /\
    a' = corners (after_run a1 a1 (fsolve Xini)) x vsnd g_const /\
    params (after_run a1 a1 (fsolve Xini)) = params a1.
Proof.
  rewrite design_aircraft_unfold.
  destruct (design_setup conv coef kr_ mpax_ effr a) as [[Xini|e] a1] eqn:Hs;
    [|discriminate].
  rewrite (run_eval_design conv (fsolve Xini) a1 a1 eq_refl).
  destruct (answer (residual a1) (fsolve Xini)) as [[x ier]|e] eqn:Hans;
    [|discriminate].
  destruct (ier =? 1)%Z eqn:Hier; cbn [negb]; [|discriminate].
  apply Z.eqb_eq in Hier. subst ier.
  set (a2 := after_run a1 a1 (fsolve Xini)).
  assert (Hf : frame a2 = frame a1) by (apply frame_after_run; reflexivity).
  assert (Hp : params a2 = params a1) by (apply params_frame; exact Hf).
  intros Henv.
  destruct (residual a2 x) as [y|e] eqn:Hres.
  - destruct (residual_Ok a2 x y Hres) as (s & pamb & tamb & vsnd & g & Hsv & Hatm & Hy).
    pose proof (atmosphere_g _ _ _ _ _ _ Hatm) as ->.
    rewrite (design_envelope_spec conv a2 x pamb tamb vsnd g_const s Hsv Hatm) in Henv.
    injection Henv as <-.
    exists Xini, a1, x, y, pamb, tamb, vsnd.
    repeat split; trivial.
    + now rewrite <- (residual_params a2 a1 x Hp).
    + injection Hp as Hc _. now rewrite <- Hc.
  - exfalso. unfold design_envelope in Henv. unfold bind at 1 in Henv.
    rewrite eval_design_spec in Henv. cbn [fst snd] in Henv.
    replace (fst x, snd x) with x in Henv by (now destruct x).
    rewrite Hres in Henv. discriminate.
Qed.

Lemma design_point_corners a x vsnd g :
  design_point (corners a x vsnd g) x = corners a x vsnd g.
Proof.
  destruct a, x. norm_fields. reflexivity.
Qed.

(** C1.  When [design_aircraft] returns, the object holds the solution the
    root-finder flagged as converged, and, for a root-finder whose flag 1
    certifies residuals below its tolerance [tol], both balance equations
    hold within [tol] on the object: the structural regression at [mtow]
    agrees with [mtow - payload - fuel_mission - fuel_reserve] (where
    [payload = npax*mpax] and [fuel_reserve = kr*fuel_mission]), the Breguet
    range at [(mtow, fuel_mission)] agrees with the requested range, and
    [eval_design] evaluated again at that point returns a residual within
    [tol] and leaves the object as it is. *)
Theorem design_aircraft_balance_closure tol conv fsolve coef kr_ mpax_ effr a a' :
  fsolve_contract tol fsolve ->
  design_aircraft conv fsolve coef kr_ mpax_ effr a = (Ok tt, a') ->
  exists m fm owe_eff range_eff,
    mtow a' = Some m /\ fuel_mission a' = Some fm /\
    payload a' = Some (npax a' * mpax a') /\
    fuel_reserve a' = Some (kr a' * fm) /\
    structure m None a' = (Ok owe_eff, a') /\
    mission conv m fm None a' = (Ok range_eff, a') /\
    Rabs (owe_eff - (m - npax a' * mpax a' - fm - kr a' * fm)) < tol /\
    Rabs (range_eff - range a') < tol /\
    exists y, eval_design conv (m, fm) a' = (Ok y, a') /\ within tol y.
Proof.
  intros Hc Hd.
  destruct (design_aircraft_Ok _ _ _ _ _ _ _ _ Hd)
    as (Xini & a1 & x & y0 & pamb & tamb & vsnd & Hs & Hans & Hres & Hatm & -> & Hp).
  destruct (Hc (residual a1) Xini x Hans) as (y & Hy & Hw).
  set (a2 := after_run a1 a1 (fsolve Xini)) in *.
  set (a' := corners a2 x vsnd g_const).
  assert (Hres' : residual a' x = Ok y).
  { rewrite <- Hy. apply residual_params. exact Hp. }
  destruct (residual_Ok a' x y Hres')
    as (s & pamb' & tamb' & vsnd' & g' & Hsv & Hatm' & Hyeq).
  exists (fst x), (snd x), s,
    ((cruise_mach a' * vsnd' * eff_ratio a') / g' * ln (fst x / (fst x - snd x))).
  destruct Hw as [Hw1 Hw2]. rewrite Hyeq in Hw1, Hw2. cbn [fst snd] in Hw1, Hw2.
  repeat split; try reflexivity.
  - rewrite structure_None, Hsv. reflexivity.
  - rewrite mission_None. unfold breguet, range_factor. rewrite Hatm'. reflexivity.
  - rewrite Rabs_minus_sym. exact Hw1.
  - rewrite Rabs_minus_sym. exact Hw2.
  - exists y. split.
    + rewrite eval_design_spec. replace (fst x, snd x) with x by (now destruct x).
      rewrite Hres'. unfold a'. rewrite design_point_corners. reflexivity.
    + rewrite Hyeq. split; assumption.
Qed.

Lemma design_envelope_raises conv x a e a3 :
  design_envelope conv x a = (Raise e, a3) ->
  e = IndexError \/ e = Exception "atmosphere, altitude cannot exceed 50km".
Proof.
  intros H.
  destruct (residual a x) as [y|ex] eqn:Hres.
  - destruct (residual_Ok a x y Hres) as (s & pamb & tamb & vsnd & g & Hsv & Hatm & Hy).
    rewrite (design_envelope_spec conv a x pamb tamb vsnd g s Hsv Hatm) in H.
    discriminate.
  - unfold design_envelope in H. unfold bind at 1 in H.
    rewrite eval_design_spec in H.
    replace (fst x, snd x) with x in H by (now destruct x).
    rewrite Hres in H. injection H as <- _.
    eapply residual_raises; eauto.
Qed.

(** What a call of [design_aircraft] that raises the convergence exception
    went through. *)
Lemma design_aircraft_not_converged conv fsolve coef kr_ mpax_ effr a a2 :
  design_aircraft conv fsolve coef kr_ mpax_ effr a
    = (Raise (Exception "Convergence problem"), a2) ->
  exists Xini a1 x ier,
    design_setup conv coef kr_ mpax_ effr a = (Ok Xini, a1) /\
    answer (residual a1) (fsolve Xini) = Ok (x, ier) /\ ier <> 1%Z /\
    a2 = after_run a1 a1 (fsolve Xini).
Proof.
  rewrite design_aircraft_unfold.
  destruct (design_setup conv coef kr_ mpax_ effr a) as [[Xini|e] a1] eqn:Hs.
  - rewrite (run_eval_design conv (fsolve Xini) a1 a1 eq_refl).
    destruct (answer (residual a1) (fsolve Xini)) as [[x ier]|e] eqn:Hans.
    + destruct (ier =? 1)%Z eqn:Hier; cbn [negb].
      * intros H. apply design_envelope_raises in H. destruct H; discriminate.
      * intros [= <-]. apply Z.eqb_neq in Hier. now exists Xini, a1, x, ier.
    + intros [= -> _]. apply answer_raises in Hans. destruct Hans as (x & Hx).
      apply residual_raises in Hx. destruct Hx; discriminate.
  - intros [= -> _]. apply design_setup_raises in Hs. discriminate.
Qed.

(** C8 (amended).  When [design_aircraft] raises the convergence exception,
    the envelope corners and the cruise speed hold their values from before
    the call, but the masses do not in general: [eval_design] assigns
    [mtow], [fuel_mission], [fuel_reserve], [ldw], [payload] and [owe] at
    every evaluation of the residual, so after the failure they hold the
    values of the last point the root-finder evaluated; they are unchanged
    only when the root-finder evaluated nothing. *)
Theorem design_aircraft_failure_state conv fsolve coef kr_ mpax_ effr a a2 :
  design_aircraft conv fsolve coef kr_ mpax_ effr a
    = (Raise (Exception "Convergence problem"), a2) ->
  (cruise_speed a2 = cruise_speed a /\ payload_max a2 = payload_max a /\
   range_pl_max a2 = range_pl_max a /\ payload_fuel_max a2 = payload_fuel_max a /\
   range_fuel_max a2 = range_fuel_max a /\ range_no_pl a2 = range_no_pl a) /\
  exists Xini a1,
    design_setup conv coef kr_ mpax_ effr a = (Ok Xini, a1) /\
    ((queries (residual a1) (fsolve Xini) = [] /\
      mtow a2 = mtow a /\ fuel_mission a2 = fuel_mission a /\
      fuel_reserve a2 = fuel_reserve a /\ ldw a2 = ldw a /\
      payload a2 = payload a /\ owe a2 = owe a) \/
     (exists l xl,
        queries (residual a1) (fsolve Xini) = l ++ [xl] /\
        mtow a2 = Some (fst xl) /\ fuel_mission a2 = Some (snd xl) /\
        fuel_reserve a2 = Some (kr a2 * snd xl) /\
        ldw a2 = Some (fst xl - snd xl) /\
        payload a2 = Some (npax a2 * mpax a2) /\
        owe a2 = Some (fst xl - npax a2 * mpax a2 - snd xl - kr a2 * snd xl))).
Proof.
  intros H.
  destruct (design_aircraft_not_converged _ _ _ _ _ _ _ _ H)
    as (Xini & a1 & x & ier & Hs & Hans & Hier & ->).
  pose proof (design_setup_keeps _ _ _ _ _ _ _ _ Hs)
    as (K1 & K2 & K3 & K4 & K5 & K6 & K7 & K8 & K9 & K10 & K11 & K12).
  pose proof (frame_after_run (fsolve Xini) a1 a1 eq_refl) as Hf.
  apply frame_fields in Hf.
  destruct Hf as (_ & _ & F3 & _ & _ & _ & _ & F8 & F9 & F10 & F11 & F12 & _).
  split.
  - rewrite F3, F8, F9, F10, F11, F12. repeat split; assumption.
  - exists Xini, a1. split; [exact Hs|].
    destruct (after_run_last (fsolve Xini) a1 a1 _ Hans)
      as [[Hq Ha]|(l & xl & Hq & Ha)].
    + left. rewrite Ha. repeat split; assumption.
    + right. exists l, xl. rewrite Ha. repeat split; trivial.
Qed.

End PicoClaims.

Module PicoExamples.
Import Pico PicoSpec PicoFacts PicoMethods PicoRuns PicoDesign PicoEnvelope.
Import PicoClaims Examples.

(** Speed of sound at 35000 ft, ISA. *)
Lemma atmosphere_35000ft :
  exists pamb,
    atmosphere (ft 35000) 0 =
    Ok (pamb, 288.15 + -0.0065 * (ft 35000 - 0) + 0,
        sqrt (gam_const * r_const * (288.15 + -0.0065 * (ft 35000 - 0) + 0)),
        g_const).
Proof.
  eexists. apply atmosphere_troposphere. unfold ft. lra.
Qed.

Lemma residual_total a X c0 c1 c2 :
  owe_coef a = [c0; c1; c2] -> cruise_altp a < 50000 ->
  exists y, residual a X = Ok y.
Proof.
  intros Hc Ha.
  destruct (atmosphere_below_ceiling (cruise_altp a) 0 Ha) as (p & t & v & Hatm).
  unfold residual, breguet, range_factor, structure_value.
  rewrite Hc, Hatm. cbn [idx nth_error obind]. eexists. reflexivity.
Qed.

Lemma sfc_example_nonzero : kg_daN_h 0.54 <> 0.
Proof. unfold kg_daN_h. lra. Qed.

(** With a root-finder that gives up at the initial guess,
    [design_aircraft()] raises and leaves the masses of the initial guess
    behind. *)
Lemma design_gives_up conv a c0 c1 c2 :
  sfc a <> 0 -> owe_coef a = [c0; c1; c2] -> cruise_altp a < 50000 ->
  design_aircraft conv fsolve_gives_up None None None None a =
  (Raise (Exception "Convergence problem"),
   design_point (set_eff_ratio (l_o_d (npax a) / sfc a) a) (guess a)).
Proof.
  intros Hs Hc Ha.
  rewrite design_aircraft_unfold, design_setup_spec.
  cbn [with_overrides override]. cbv zeta.
  unfold pydiv. destruct (Req_dec_T (sfc a) 0) as [E|_]; [contradiction|].
  set (a1 := set_eff_ratio (l_o_d (npax a) / sfc a) a).
  rewrite (run_eval_design conv _ a1 a1 eq_refl).
  unfold fsolve_gives_up. cbn [answer after_run].
  destruct (residual_total a1 (guess a) c0 c1 c2 Hc Ha) as (y & Hy).
  rewrite Hy. reflexivity.
Qed.

Lemma ac_sized_below_ceiling : cruise_altp ac_sized < 50000.
Proof. change (ft 35000 < 50000). unfold ft. lra. Qed.

Lemma design_gives_up_sized :
  design_aircraft kg_daN_h fsolve_gives_up None None None None ac_sized =
  (Raise (Exception "Convergence problem"),
   design_point (set_eff_ratio (l_o_d (npax ac_sized) / sfc ac_sized) ac_sized)
                (guess ac_sized)).
Proof.
  exact (design_gives_up kg_daN_h ac_sized (-1.478e-07) 5.459e-01 8.40e+02
           sfc_example_nonzero eq_refl ac_sized_below_ceiling).
Qed.

(** C8 as stated fails: [ac_sized] holds [mtow = 77000]; a call of
    [design_aircraft()] whose root-finder gives up after evaluating the
    residual at the initial guess raises the convergence exception and
    leaves [mtow = 78000], [fuel_mission = 19500] on the object. *)
Lemma design_aircraft_not_atomic :
  exists a2,
    design_aircraft kg_daN_h fsolve_gives_up None None None None ac_sized
      = (Raise (Exception "Convergence problem"), a2) /\
    mtow ac_sized = Some 77000 /\ mtow a2 = Some (150 * 130 * 4) /\
    fuel_mission ac_sized = Some 12800 /\ fuel_mission a2 = Some (150 * 130 * 1) /\
    mtow a2 <> mtow ac_sized.
Proof.
  eexists. split; [apply design_gives_up_sized|].
  repeat split.
  intros [= E]. lra.
Qed.

(** C8, witness: the hypothesis of [design_aircraft_failure_state] holds on
    the same call. *)
Lemma design_aircraft_failure_state_witness :
  exists a2,
    design_aircraft kg_daN_h fsolve_gives_up None None None None ac_sized
      = (Raise (Exception "Convergence problem"), a2) /\
    range_no_pl a2 = range_no_pl ac_sized.
Proof.
  eexists. split; [apply design_gives_up_sized|].
  apply (design_aircraft_failure_state kg_daN_h fsolve_gives_up
           None None None None ac_sized _ design_gives_up_sized).
Defined.

End PicoExamples.

Module NacelleFacts.
Import Nacelle NacelleSpec.

Section Facts.
Variable gas_data : R * R * R * R.
Variable sound_speed : R -> R.
Variable total_pressure : R -> R -> R.
Variable total_temperature : R -> R -> R.

Lemma jet_velocity_code eff PwShaft q Vinlet :
  sqrt (2 * (eff * PwShaft) / q + Vinlet ^ 2) = jet_velocity eff PwShaft q Vinlet.
Proof.
  unfold jet_velocity. f_equal. unfold Rdiv. ring.
Qed.

Lemma unitary_thrust_fct_spec self q PwShaft pamb Ttot Vair :
  unitary_thrust_fct gas_data sound_speed total_pressure self q PwShaft pamb Ttot Vair =
  match nozzle_area self with
  | Some na =>
      Ok (continuity_residual gas_data sound_speed total_pressure
            (efficiency_fan self) na PwShaft pamb Ttot Vair q)
  | None => Raise TypeError
  end.
Proof.
  unfold unitary_thrust_fct, continuity_residual, nozzle_flow_per_area.
  destruct gas_data as [[[r gam] Cp] Cv].
  rewrite jet_velocity_code.
  destruct (nozzle_area self); reflexivity.
Qed.

Lemma unitary_sc_fct_spec self x thrust pamb Ttot Vair :
  unitary_sc_fct gas_data sound_speed total_pressure self x thrust pamb Ttot Vair =
  match nozzle_area self with
  | Some na =>
      Ok (continuity_residual gas_data sound_speed total_pressure
            (efficiency_fan self) na (snd x) pamb Ttot Vair (fst x),
          thrust - fst x * (jet_velocity (efficiency_fan self) (snd x) (fst x) Vair - Vair))
  | None => Raise TypeError
  end.
Proof.
  unfold unitary_sc_fct, continuity_residual, nozzle_flow_per_area.
  destruct gas_data as [[[r gam] Cp] Cv].
  rewrite jet_velocity_code.
  destruct (nozzle_area self); reflexivity.
Qed.

End Facts.
End NacelleFacts.

Module NacelleClaims.
Import Nacelle NacelleSpec NacelleFacts.

Section Claims.
Variable gas_data : R * R * R * R.
Variable sound_speed : R -> R.
Variable total_pressure : R -> R -> R.
Variable total_temperature : R -> R -> R.
Variable fsolve_1 : R -> strategy R R.
Variable fsolve_2 : R * R -> strategy (R * R) (R * R).

Local Abbreviation thrust_of :=
  (unitary_thrust gas_data sound_speed total_pressure total_temperature fsolve_1).
Local Abbreviation sc_of :=
  (unitary_sc gas_data sound_speed total_pressure total_temperature fsolve_2).

Local Abbreviation guess_of :=
  (flow_guess gas_data total_pressure total_temperature).

Lemma unitary_thrust_unfold self pamb tamb mach rating throttle off :
  thrust_of self pamb tamb mach rating throttle off =
  match dict_get (rating_factor self) rating with
  | Raise e => Raise e
  | Ok rf =>
      match fan_width self with
      | None => Raise TypeError
      | Some fw =>
          let PwShaft := shaft_power self rf throttle off in
          let Vair := mach * sound_speed tamb in
          match answer (fun q => unitary_thrust_fct gas_data sound_speed
                                   total_pressure self q PwShaft pamb
                                   (total_temperature tamb mach) Vair)
                       (fsolve_1 (guess_of pamb tamb mach fw)) with
          | Raise e => Raise e
          | Ok (q0, ier) =>
              if negb (ier =? 1)%Z then Raise (Exception "Convergence problem")
              else Ok [("fn"%string,
                        q0 * (jet_velocity (efficiency_fan self) PwShaft q0 Vair - Vair));
                       ("pw"%string, efficiency_fan self * PwShaft)]
          end
      end
  end.
Proof.
  unfold unitary_thrust, shaft_power, flow_guess, obind.
  destruct (dict_get (rating_factor self) rating) as [rf|e]; trivial.
  destruct (fan_width self) as [fw|]; cbn [need]; trivial.
  cbv zeta.
  destruct (answer _ _) as [[q0 ier]|e]; trivial.
  destruct (negb (ier =? 1)%Z); trivial.
  now rewrite jet_velocity_code.
Qed.

Lemma unitary_sc_unfold self pamb tamb mach rating thrust off :
  sc_of self pamb tamb mach rating thrust off =
  match fan_width self with
  | None => Raise TypeError
  | Some fw =>
      match dict_get (rating_factor self) rating with
      | Raise e => Raise e
      | Ok rf =>
          let Vair := mach * sound_speed tamb in
          match answer (fun x_in => unitary_sc_fct gas_data sound_speed
                                      total_pressure self x_in thrust pamb
                                      (total_temperature tamb mach) Vair)
                       (fsolve_2 (guess_of pamb tamb mach fw,
                                  shaft_power self rf 1 off)) with
          | Raise e => Raise e
          | Ok (x, ier) =>
              if negb (ier =? 1)%Z then Raise (Exception "Convergence problem")
              else
                let eFn := fst x * (jet_velocity (efficiency_fan self) (snd x) (fst x) Vair - Vair) in
                Ok [("sec"%string, snd x / eFn);
                    ("pw"%string, snd x);
                    ("thtl"%string, (snd x + off) / (reference_power self * rf))]
          end
      end
  end.
Proof.
  unfold unitary_sc, shaft_power, flow_guess, obind.
  destruct (fan_width self) as [fw|]; cbn [need]; trivial.
  destruct (dict_get (rating_factor self) rating) as [rf|e]; trivial.
  cbv zeta. rewrite Rmult_1_r.
  destruct (answer _ _) as [[x ier]|e]; trivial.
  destruct (negb (ier =? 1)%Z); trivial.
  now rewrite jet_velocity_code.
Qed.

(** C5.  When [unitary_thrust] returns, the flow [q] found by the
    root-finder satisfies the corrected-flow continuity equation at the
    nozzle within the tolerance certified by the root-finder, with
    [TtotJet = Ttot + PwShaft/(q*Cp)] and
    [Vjet = sqrt(2*efficiency_fan*PwShaft/q + Vinlet^2)], and the returned
    thrust is exactly [q*(Vjet - Vinlet)] for that flow and shaft power; the
    returned power is [efficiency_fan*PwShaft]. *)
Theorem unitary_thrust_energy_conservation tol self pamb tamb mach rating throttle off d :
  fsolve_contract_1 tol fsolve_1 ->
  thrust_of self pamb tamb mach rating throttle off = Ok d ->
  exists q rf na,
    dict_get (rating_factor self) rating = Ok rf /\
    nozzle_area self = Some na /\
    let PwShaft := shaft_power self rf throttle off in
    let Ttot := total_temperature tamb mach in
    let Vinlet := mach * sound_speed tamb in
    Rabs (continuity_residual gas_data sound_speed total_pressure
            (efficiency_fan self) na PwShaft pamb Ttot Vinlet q) < tol /\
    dict_get d "fn" =
      Ok (q * (jet_velocity (efficiency_fan self) PwShaft q Vinlet - Vinlet)) /\
    dict_get d "pw" = Ok (efficiency_fan self * PwShaft).
Proof.
  intros Hc. rewrite unitary_thrust_unfold.
  destruct (dict_get (rating_factor self) rating) as [rf|e]; [|discriminate].
  destruct (fan_width self) as [fw|]; [|discriminate].
  cbv zeta.
  destruct (answer _ _) as [[q ier]|e] eqn:Hans; [|discriminate].
  destruct (ier =? 1)%Z eqn:Hier; cbn [negb]; [|discriminate].
  apply Z.eqb_eq in Hier. subst ier.
  intros [= <-].
  destruct (Hc _ _ _ Hans) as (y & Hy & Htol).
  rewrite unitary_thrust_fct_spec in Hy.
  destruct (nozzle_area self) as [na|]; [|discriminate].
  injection Hy as <-.
  exists q, rf, na. repeat split; trivial.
Qed.

(** C6.  In [unitary_sc] the unknowns are the flow [q] and the shaft power
    [Pw] jointly, and the residual pair is the continuity equation and the
    thrust equation.  When the call returns, both hold within the tolerance
    certified by the root-finder, in particular the thrust recomputed as
    [q*(Vjet - Vinlet)] agrees with the requested thrust; the returned
    specific consumption is the returned shaft power divided by that
    recomputed thrust. *)
Theorem unitary_sc_thrust_matching tol self pamb tamb mach rating thrust off d :
  fsolve_contract tol fsolve_2 ->
  sc_of self pamb tamb mach rating thrust off = Ok d ->
  exists q Pw rf na,
    dict_get (rating_factor self) rating = Ok rf /\
    nozzle_area self = Some na /\
    let Ttot := total_temperature tamb mach in
    let Vinlet := mach * sound_speed tamb in
    let eFn := q * (jet_velocity (efficiency_fan self) Pw q Vinlet - Vinlet) in
    unitary_sc_fct gas_data sound_speed total_pressure self (q, Pw) thrust
      pamb Ttot Vinlet =
      Ok (continuity_residual gas_data sound_speed total_pressure
            (efficiency_fan self) na Pw pamb Ttot Vinlet q,
          thrust - eFn) /\
    Rabs (continuity_residual gas_data sound_speed total_pressure
            (efficiency_fan self) na Pw pamb Ttot Vinlet q) < tol /\
    Rabs (eFn - thrust) < tol /\
    dict_get d "pw" = Ok Pw /\
    dict_get d "sec" = Ok (Pw / eFn) /\
    dict_get d "thtl" = Ok ((Pw + off) / (reference_power self * rf)).
Proof.
  intros Hc. rewrite unitary_sc_unfold.
  destruct (fan_width self) as [fw|]; [|discriminate].
  destruct (dict_get (rating_factor self) rating) as [rf|e]; [|discriminate].
  cbv zeta.
  destruct (answer _ _) as [[[q Pw] ier]|e] eqn:Hans; [|discriminate].
  destruct (ier =? 1)%Z eqn:Hier; cbn [negb]; [|discriminate].
  apply Z.eqb_eq in Hier. subst ier.
  intros [= <-].
  destruct (Hc _ _ _ Hans) as (y & Hy & Htol1 & Htol2).
  rewrite unitary_sc_fct_spec in Hy. cbn [fst snd] in Hy.
  destruct (nozzle_area self) as [na|] eqn:Hna; [|discriminate].
  injection Hy as <-. cbn [fst snd] in Htol1, Htol2.
  exists q, Pw, rf, na. repeat split; trivial.
  - rewrite unitary_sc_fct_spec, Hna. reflexivity.
  - rewrite Rabs_minus_sym. exact Htol2.
Qed.

End Claims.
End NacelleClaims.

Module Convergence.
Import Pico PicoSpec PicoFacts PicoMethods PicoRuns PicoDesign PicoEnvelope.
Import PicoClaims PicoExamples Examples.
Import Nacelle NacelleSpec NacelleFacts NacelleClaims.

Lemma operation_fct_spec conv n_pax rng x a :
  operation_fct conv n_pax rng x a =
  match breguet a (fst x) (snd x) with
  | Raise e => (Raise e, a)
  | Ok range_eff =>
      match owe a with
      | None => (Raise TypeError, a)
      | Some o =>
          (Ok (o - (fst x - (mpax a * n_pax + (1 + kr a) * snd x)),
               rng - range_eff), a)
      end
  end.
Proof.
  unfold operation_fct. cbv zeta. unfold bind at 1. rewrite mission_None.
  destruct (breguet a (fst x) (snd x)) as [r|e]; [|reflexivity].
  unfold bind, gets, getf, ret. destruct (owe a); reflexivity.
Qed.

Lemma operation_unfold conv fsolve n_pax rng a :
  operation conv fsolve n_pax rng a =
  match run (operation_fct conv n_pax rng) (fsolve (guess a)) a with
  | (Ok (x, ier), a2) =>
      if negb (ier =? 1)%Z
      then (Raise (Exception "Convergence problem"), a2)
      else
        match cruise_speed a2 with
        | Some cs => (Ok (snd x, 20 * 60 + cs * rng, fst x), a2)
        | None => (Raise TypeError, a2)
        end
  | (Raise e, a2) => (Raise e, a2)
  end.
Proof.
  unfold operation. unfold bind at 1. unfold gets at 1.
  unfold bind at 1. unfold gets at 1. cbv zeta.
  unfold bind at 1. fold (guess a).
  destruct (run (operation_fct conv n_pax rng) (fsolve (guess a)) a)
    as [[[x ier]|e] a2]; [|reflexivity].
  destruct (negb (ier =? 1)%Z); [reflexivity|].
  unfold bind, getf, ret. destruct (cruise_speed a2); reflexivity.
Qed.

(** C2 (amended).  At each of the four solves, when the root-finder ends
    with a flag other than 1 the call raises, and returns nothing; what it
    raises is the generic [Exception] with the fixed message
    "Convergence problem", the same value at every site and for every
    iterate and residual. *)
Theorem nonconvergence_raises_generic_exception :
  (forall conv fsolve coef kr_ mpax_ effr a Xini a1 x ier a2,
     design_setup conv coef kr_ mpax_ effr a = (Ok Xini, a1) ->
     run (eval_design conv) (fsolve Xini) a1 = (Ok (x, ier), a2) ->
     ier <> 1%Z ->
     design_aircraft conv fsolve coef kr_ mpax_ effr a
       = (Raise (Exception "Convergence problem"), a2)) /\
  (forall conv fsolve n_pax rng a x ier a2,
     run (operation_fct conv n_pax rng) (fsolve (guess a)) a = (Ok (x, ier), a2) ->
     ier <> 1%Z ->
     operation conv fsolve n_pax rng a
       = (Raise (Exception "Convergence problem"), a2)) /\
  (forall gas_data sound_speed total_pressure total_temperature fsolve_1
          self pamb tamb mach rating throttle off rf fw q ier,
     dict_get (rating_factor self) rating = Ok rf ->
     fan_width self = Some fw ->
     answer (fun q => unitary_thrust_fct gas_data sound_speed total_pressure
                        self q (shaft_power self rf throttle off) pamb
                        (total_temperature tamb mach) (mach * sound_speed tamb))
            (fsolve_1 (flow_guess gas_data total_pressure total_temperature
                         pamb tamb mach fw)) = Ok (q, ier) ->
     ier <> 1%Z ->
     unitary_thrust gas_data sound_speed total_pressure total_temperature
       fsolve_1 self pamb tamb mach rating throttle off
       = Raise (Exception "Convergence problem")) /\
  (forall gas_data sound_speed total_pressure total_temperature fsolve_2
          self pamb tamb mach rating thrust off rf fw x ier,
     dict_get (rating_factor self) rating = Ok rf ->
     fan_width self = Some fw ->
     answer (fun x_in => unitary_sc_fct gas_data sound_speed total_pressure
                           self x_in thrust pamb
                           (total_temperature tamb mach) (mach * sound_speed tamb))
            (fsolve_2 (flow_guess gas_data total_pressure total_temperature
                         pamb tamb mach fw,
                       shaft_power self rf 1 off)) = Ok (x, ier) ->
     ier <> 1%Z ->
     unitary_sc gas_data sound_speed total_pressure total_temperature
       fsolve_2 self pamb tamb mach rating thrust off
       = Raise (Exception "Convergence problem")).
Proof.
  repeat split.
  - intros * Hs Hr Hi. rewrite design_aircraft_unfold, Hs, Hr.
    apply Z.eqb_neq in Hi. now rewrite Hi.
  - intros * Hr Hi. rewrite operation_unfold, Hr.
    apply Z.eqb_neq in Hi. now rewrite Hi.
  - intros * Hd Hf Ha Hi. rewrite unitary_thrust_unfold, Hd, Hf. cbv zeta.
    rewrite Ha. apply Z.eqb_neq in Hi. now rewrite Hi.
  - intros * Hd Hf Ha Hi. rewrite unitary_sc_unfold, Hf, Hd. cbv zeta.
    rewrite Ha. apply Z.eqb_neq in Hi. now rewrite Hi.
Qed.

(** The setup of [design_aircraft()]. *)
Lemma design_setup_plain conv a :
  sfc a <> 0 ->
  design_setup conv None None None None a =
  (Ok (guess a), set_eff_ratio (l_o_d (npax a) / sfc a) a).
Proof.
  intros Hs. rewrite design_setup_spec. cbn [with_overrides override]. cbv zeta.
  unfold pydiv. destruct (Req_dec_T (sfc a) 0) as [E|_]; [contradiction|].
  reflexivity.
Qed.

(** A root-finder that stops at [x] with a flag other than 1 makes
    [design_aircraft()] raise the convergence exception. *)
Lemma design_stops conv a c0 c1 c2 x ier :
  sfc a <> 0 -> owe_coef a = [c0; c1; c2] -> cruise_altp a < 50000 ->
  ier <> 1%Z ->
  exists a2,
    design_aircraft conv (fsolve_stops x ier) None None None None a
      = (Raise (Exception "Convergence problem"), a2).
Proof.
  intros Hs Hc Ha Hi. rewrite design_aircraft_unfold, design_setup_plain by exact Hs.
  set (a1 := set_eff_ratio (l_o_d (npax a) / sfc a) a).
  rewrite (run_eval_design conv _ a1 a1 eq_refl).
  unfold fsolve_stops. cbn [answer after_run].
  destruct (residual_total a1 (guess a) c0 c1 c2 Hc Ha) as (y0 & ->).
  destruct (residual_total a1 x c0 c1 c2 Hc Ha) as (y & ->).
  apply Z.eqb_neq in Hi. rewrite Hi. cbn [negb]. eexists. reflexivity.
Qed.

Lemma design_stops_sized x ier :
  ier <> 1%Z ->
  exists a2,
    design_aircraft kg_daN_h (fsolve_stops x ier) None None None None ac_sized
      = (Raise (Exception "Convergence problem"), a2).
Proof.
  intros Hi.
  exact (design_stops kg_daN_h ac_sized (-1.478e-07) 5.459e-01 8.40e+02 x ier
           sfc_example_nonzero eq_refl ac_sized_below_ceiling Hi).
Qed.

(** C2 as stated fails: the exception raised on non-convergence does not
    carry the last iterate.  Two runs of [design_aircraft()] on [ac_sized]
    whose root-finder stops, with flag 5, at the different iterates
    [(70000, 12000)] and [(80000, 15000)] raise the same exception value, so
    no reading of the exception gives back the iterate. *)
Lemma convergence_exception_carries_no_iterate :
  ~ exists last_iterate : exn -> R * R,
      forall (x : R * R) (e : exn) (a2 : Aircraft),
        design_aircraft kg_daN_h (fsolve_stops x 5%Z) None None None None ac_sized
          = (Raise e, a2) ->
        last_iterate e = x.
Proof.
  intros (f & Hf).
  destruct (design_stops_sized (70000, 12000) 5%Z) as (a2 & H2); [discriminate|].
  destruct (design_stops_sized (80000, 15000) 5%Z) as (a3 & H3); [discriminate|].
  apply Hf in H2. apply Hf in H3.
  rewrite H2 in H3. injection H3 as E _. lra.
Qed.

Lemma breguet_sized tow fm : exists r, breguet ac_sized tow fm = Ok r.
Proof.
  destruct (atmosphere_below_ceiling _ 0 ac_sized_below_ceiling)
    as (p & t & v & Hatm).
  unfold breguet, range_factor. rewrite Hatm. cbn [obind]. eexists. reflexivity.
Qed.

(** C2, witness: the four implications at runs that give up at the initial
    guess, on [ac_sized] and on [nacelle_150] at sea level, Mach 0.25. *)
Lemma nonconvergence_raises_generic_exception_witness :
  (exists a2,
     design_aircraft kg_daN_h fsolve_gives_up None None None None ac_sized
       = (Raise (Exception "Convergence problem"), a2)) /\
  (exists a2,
     operation kg_daN_h fsolve_gives_up 100 1000000 ac_sized
       = (Raise (Exception "Convergence problem"), a2)) /\
  unitary_thrust gas_air sound_speed_air total_pressure_air
    total_temperature_air fsolve_gives_up nacelle_150
    101325 288.15 0.25 "MTO" 1 0 = Raise (Exception "Convergence problem") /\
  unitary_sc gas_air sound_speed_air total_pressure_air
    total_temperature_air fsolve_gives_up nacelle_150
    101325 288.15 0.25 "MTO" 25000 0 = Raise (Exception "Convergence problem").
Proof.
  destruct nonconvergence_raises_generic_exception as (H1 & H2 & H3 & H4).
  split; [|split; [|split]].
  - eexists.
    eapply (H1 kg_daN_h fsolve_gives_up None None None None ac_sized).
    + apply design_setup_plain. exact sfc_example_nonzero.
    + rewrite (run_eval_design kg_daN_h _ _ _ eq_refl).
      unfold fsolve_gives_up. cbn [answer after_run].
      destruct (residual_total
                  (set_eff_ratio (l_o_d (npax ac_sized) / sfc ac_sized) ac_sized)
                  (guess ac_sized) (-1.478e-07) 5.459e-01 8.40e+02 eq_refl
                  ac_sized_below_ceiling) as (y0 & ->).
      reflexivity.
    + discriminate.
  - eexists.
    eapply (H2 kg_daN_h fsolve_gives_up 100 1000000 ac_sized).
    + unfold fsolve_gives_up. cbn [run]. rewrite operation_fct_spec.
      destruct (breguet_sized (fst (guess ac_sized)) (snd (guess ac_sized)))
        as (r & ->).
      reflexivity.
    + discriminate.
  - eapply (H3 gas_air sound_speed_air total_pressure_air total_temperature_air
              fsolve_gives_up nacelle_150 101325 288.15 0.25 "MTO"%string 1 0
              1.00 2).
    + reflexivity.
    + reflexivity.
    + unfold fsolve_gives_up. cbn [answer].
      rewrite unitary_thrust_fct_spec. cbn [nozzle_area nacelle_150]. reflexivity.
    + discriminate.
  - eapply (H4 gas_air sound_speed_air total_pressure_air total_temperature_air
              fsolve_gives_up nacelle_150 101325 288.15 0.25 "MTO"%string 25000 0
              1.00 2).
    + reflexivity.
    + reflexivity.
    + unfold fsolve_gives_up. cbn [answer].
      rewrite unitary_sc_fct_spec. cbn [nozzle_area nacelle_150]. reflexivity.
    + discriminate.
Defined.

End Convergence.

Module PicoQueries.
Import Pico PicoSpec PicoFacts PicoMethods PicoRuns PicoDesign PicoEnvelope.
Import PicoClaims PicoExamples Examples Convergence PicoFloat.

Lemma breguet_Ok a tow fm :
  cruise_altp a < 50000 -> exists v, breguet a tow fm = Ok v.
Proof.
  intros H. destruct (atmosphere_below_ceiling (cruise_altp a) 0 H) as (p & t & v & Hatm).
  unfold breguet, range_factor. rewrite Hatm. cbn [obind]. eexists. reflexivity.
Qed.

Lemma breguet_raises_altitude a tow fm e :
  breguet a tow fm = Raise e -> 50000 <= cruise_altp a.
Proof.
  intros H. destruct (Rlt_le_dec (cruise_altp a) 50000) as [Hlt|Hge]; trivial.
  destruct (breguet_Ok a tow fm Hlt) as (v & Hv). rewrite Hv in H. discriminate.
Qed.

(** [mission_float] in terms of the Breguet factor of the object that the
    optional argument leaves. *)
Lemma mission_float_spec conv tow fm effr a :
  mission_float conv tow fm effr a =
  let a1 := override (fun e => set_eff_ratio (e / conv 1)) effr a in
  match range_factor a1 with
  | Ok K => (Ok (np_scale K (np_log (tow / (tow - fm)))), a1)
  | Raise e => (Raise e, a1)
  end.
Proof.
  unfold mission_float, range_factor, override, bind, ret, gets, lift, modify, obind.
  destruct effr as [e|]; cbv zeta.
  - change (cruise_altp (set_eff_ratio (e / conv 1) a)) with (cruise_altp a).
    destruct (atmosphere (cruise_altp a) 0) as [[[[pamb tamb] vsnd] g]|ex]; trivial.
  - destruct (atmosphere (cruise_altp a) 0) as [[[[pamb tamb] vsnd] g]|ex]; trivial.
Qed.

Lemma mission_spec conv tow fm effr a :
  mission conv tow fm effr a =
  let a1 := override (fun e => set_eff_ratio (e / conv 1)) effr a in
  (breguet a1 tow fm, a1).
Proof.
  destruct effr as [e|]; [apply mission_Some|apply mission_None].
Qed.

Lemma range_factor_Ok a :
  cruise_altp a < 50000 -> exists K, range_factor a = Ok K.
Proof.
  intros H. destruct (atmosphere_below_ceiling (cruise_altp a) 0 H) as (p & t & v & Hatm).
  unfold range_factor. rewrite Hatm. cbn [obind]. eexists. reflexivity.
Qed.

Lemma range_factor_raises a e :
  range_factor a = Raise e ->
  50000 <= cruise_altp a /\
  (e = IndexError \/ e = Exception "atmosphere, altitude cannot exceed 50km").
Proof.
  intros H. split.
  - destruct (Rlt_le_dec (cruise_altp a) 50000) as [Hlt|Hge]; trivial.
    destruct (range_factor_Ok a Hlt) as (K & HK). rewrite HK in H. discriminate.
  - unfold range_factor, obind in H.
    destruct (atmosphere (cruise_altp a) 0) as [[[[pamb tamb] vsnd] g]|ex] eqn:Ha;
      [discriminate|].
    injection H as <-. eapply atmosphere_raises; eauto.
Qed.

Lemma override_effr_altp conv effr a :
  cruise_altp (override (fun e => set_eff_ratio (e / conv 1)) effr a) = cruise_altp a.
Proof. destruct effr; reflexivity. Qed.

(** C3 (amended).  [mission] has no check of the landing weight.  For
    [fuel_mission > tow] and a cruise altitude below the ceiling of the
    atmosphere it raises nothing and returns the Breguet expression
    [range_factor*np.log(tow/(tow-fuel_mission))] as numpy evaluates it:
    nan for a positive take-off weight (the weight ratio is negative), and
    the finite Breguet value for a negative one (the ratio is positive, and
    the real-number model [mission] returns the same number).  The object is
    left as it is, apart from [eff_ratio] when [effr] is given.  When the
    call raises, the cruise altitude is at or above 50 km and the exception
    is the one of [atmosphere]. *)
Theorem mission_has_no_landing_weight_guard conv tow fm effr a :
  tow - fm < 0 ->
  let a1 := override (fun e => set_eff_ratio (e / conv 1)) effr a in
  (cruise_altp a < 50000 ->
   exists K,
     range_factor a1 = Ok K /\
     mission_float conv tow fm effr a =
       (Ok (np_scale K (np_log (tow / (tow - fm)))), a1) /\
     (0 < tow -> mission_float conv tow fm effr a = (Ok NaN, a1)) /\
     (tow < 0 ->
      mission_float conv tow fm effr a =
        (Ok (Finite (K * ln (tow / (tow - fm)))), a1) /\
      mission conv tow fm effr a = (Ok (K * ln (tow / (tow - fm))), a1))) /\
  (forall e a', mission_float conv tow fm effr a = (Raise e, a') ->
     50000 <= cruise_altp a /\
     (e = IndexError \/ e = Exception "atmosphere, altitude cannot exceed 50km")).
Proof.
  intros Hlw a1. rewrite mission_float_spec. cbv zeta. fold a1. split.
  - intros Halt.
    assert (Halt1 : cruise_altp a1 < 50000)
      by (unfold a1; rewrite override_effr_altp; exact Halt).
    destruct (range_factor_Ok a1 Halt1) as (K & HK). rewrite HK.
    exists K. split; [reflexivity|]. split; [reflexivity|]. split.
    + intros Ht.
      assert (Hr : tow / (tow - fm) < 0).
      { unfold Rdiv.
        assert (/ (tow - fm) < 0) by (apply Rinv_lt_0_compat; exact Hlw).
        nra. }
      unfold np_log.
      destruct (Rlt_dec 0 (tow / (tow - fm))); [lra|].
      destruct (Rlt_dec (tow / (tow - fm)) 0); [reflexivity|lra].
    + intros Ht.
      assert (Hr : 0 < tow / (tow - fm)).
      { unfold Rdiv.
        assert (/ (tow - fm) < 0) by (apply Rinv_lt_0_compat; exact Hlw).
        nra. }
      split.
      * unfold np_log.
        destruct (Rlt_dec 0 (tow / (tow - fm))); [reflexivity|lra].
      * rewrite mission_spec. cbv zeta. fold a1.
        unfold breguet. rewrite HK. reflexivity.
  - intros e a'. destruct (range_factor a1) as [K|ex] eqn:HK; [discriminate|].
    intros [= <- _]. apply range_factor_raises in HK.
    unfold a1 in HK. rewrite override_effr_altp in HK. exact HK.
Qed.

(** C3 as stated fails: with a take-off weight of 60000 kg and a mission
    fuel of 70000 kg (landing weight -10000 kg) [mission] returns a value
    on [ac_sized] and raises nothing; the value that numpy computes is
    nan. *)
Lemma mission_negative_landing_weight_returns :
  60000 - 70000 <= 0 /\
  (exists v, mission kg_daN_h 60000 70000 None ac_sized = (Ok v, ac_sized)) /\
  mission_float kg_daN_h 60000 70000 None ac_sized = (Ok NaN, ac_sized).
Proof.
  split; [lra|]. split.
  - rewrite mission_None. destruct (breguet_sized 60000 70000) as (r & ->).
    now exists r.
  - rewrite mission_float_spec. cbv zeta. cbn [override].
    destruct (range_factor_Ok ac_sized ac_sized_below_ceiling) as (K & ->).
    unfold np_log.
    destruct (Rlt_dec 0 (60000 / (60000 - 70000))) as [H|_]; [lra|].
    destruct (Rlt_dec (60000 / (60000 - 70000)) 0) as [_|H]; [reflexivity|lra].
Qed.

(** C3, witness: the landing weight of -10000 kg on [ac_sized]. *)
Lemma mission_has_no_landing_weight_guard_witness :
  exists K,
    range_factor ac_sized = Ok K /\
    mission_float kg_daN_h 60000 70000 None ac_sized =
      (Ok (np_scale K (np_log (60000 / (60000 - 70000)))), ac_sized) /\
    (0 < 60000 ->
     mission_float kg_daN_h 60000 70000 None ac_sized = (Ok NaN, ac_sized)) /\
    (60000 < 0 ->
     mission_float kg_daN_h 60000 70000 None ac_sized =
       (Ok (Finite (K * ln (60000 / (60000 - 70000)))), ac_sized) /\
     mission kg_daN_h 60000 70000 None ac_sized =
       (Ok (K * ln (60000 / (60000 - 70000))), ac_sized)).
Proof.
  refine (proj1 (mission_has_no_landing_weight_guard kg_daN_h 60000 70000 None
                   ac_sized _) ac_sized_below_ceiling).
  lra.
Defined.

(** [design_envelope] never assigns [eff_ratio] or [owe_coef]. *)
Lemma design_envelope_keeps conv x a o a' :
  design_envelope conv x a = (o, a') ->
  eff_ratio a' = eff_ratio a /\ owe_coef a' = owe_coef a.
Proof.
  destruct (residual a x) as [y|ex] eqn:Hres.
  - destruct (residual_Ok a x y Hres) as (s & pamb & tamb & vsnd & g & Hsv & Hatm & Hy).
    rewrite (design_envelope_spec conv a x pamb tamb vsnd g s Hsv Hatm).
    intros [= _ <-]. split; reflexivity.
  - unfold design_envelope. unfold bind at 1. rewrite eval_design_spec.
    replace (fst x, snd x) with x by (now destruct x).
    rewrite Hres. intros [= _ <-]. split; reflexivity.
Qed.

(** After [design_aircraft], whatever its outcome, [eff_ratio] and
    [owe_coef] are those its setup assigned. *)
Lemma design_aircraft_keeps_setup conv fsolve coef kr_ mpax_ effr a :
  eff_ratio (snd (design_aircraft conv fsolve coef kr_ mpax_ effr a)) =
    eff_ratio (snd (design_setup conv coef kr_ mpax_ effr a)) /\
  owe_coef (snd (design_aircraft conv fsolve coef kr_ mpax_ effr a)) =
    owe_coef (snd (design_setup conv coef kr_ mpax_ effr a)).
Proof.
  rewrite design_aircraft_unfold.
  destruct (design_setup conv coef kr_ mpax_ effr a) as [[Xini|e] a1];
    [|split; reflexivity].
  rewrite (run_eval_design conv (fsolve Xini) a1 a1 eq_refl).
  pose proof (frame_after_run (fsolve Xini) a1 a1 eq_refl) as Hf.
  apply frame_fields in Hf.
  destruct Hf as (_ & _ & _ & _ & _ & _ & _ & _ & _ & _ & _ & _ & _ & _ & F15 & F16).
  cbn [snd].
  destruct (answer (residual a1) (fsolve Xini)) as [[x ier]|e];
    [|now split].
  destruct (negb (ier =? 1)%Z); [now split|].
  destruct (design_envelope conv x (after_run a1 a1 (fsolve Xini))) as [o a3] eqn:He.
  apply design_envelope_keeps in He. destruct He as [E1 E2].
  cbn [snd]. rewrite E1, E2. now split.
Qed.

(** C10 (amended).  Without the optional argument [structure] and [mission]
    leave the object unchanged.  With [coef] (resp. [effr]) they assign
    [owe_coef] (resp. [eff_ratio], to [effr/convert_from("kg/daN/h", 1)]) and
    nothing else, and later calls without the argument compute with the
    assigned value.  The residual closures of both solves keep the two
    attributes, and [design_aircraft] called without [coef] keeps
    [owe_coef]; but [design_aircraft] always assigns [eff_ratio] anew, from
    its own [effr] or else from [l_o_d(npax)/sfc], so an [eff_ratio] set
    through [mission] lasts only until the next call of [design_aircraft]. *)
Theorem optional_arguments_overwrite conv fsolve :
  (forall m a, snd (structure m None a) = a) /\
  (forall t f a, snd (mission conv t f None a) = a) /\
  (forall m c a, snd (structure m (Some c) a) = set_owe_coef c a) /\
  (forall t f e a,
     snd (mission conv t f (Some e) a) = set_eff_ratio (e / conv 1) a) /\
  (forall m m' c a,
     structure m' None (snd (structure m (Some c) a)) =
     (structure_value c m', set_owe_coef c a)) /\
  (forall t f t' f' e a,
     mission conv t' f' None (snd (mission conv t f (Some e) a)) =
     (breguet (set_eff_ratio (e / conv 1) a) t' f',
      set_eff_ratio (e / conv 1) a)) /\
  (forall X a,
     owe_coef (snd (eval_design conv X a)) = owe_coef a /\
     eff_ratio (snd (eval_design conv X a)) = eff_ratio a) /\
  (forall n_pax rng X a, snd (operation_fct conv n_pax rng X a) = a) /\
  (forall kr_ mpax_ effr a,
     owe_coef (snd (design_aircraft conv fsolve None kr_ mpax_ effr a)) =
     owe_coef a) /\
  (forall coef kr_ mpax_ e a,
     eff_ratio (snd (design_aircraft conv fsolve coef kr_ mpax_ (Some e) a)) =
     e / conv 1) /\
  (forall coef kr_ mpax_ a,
     eff_ratio (snd (design_aircraft conv fsolve coef kr_ mpax_ None a)) =
     match pydiv (l_o_d (npax a)) (sfc a) with
     | Ok er => er
     | Raise _ => eff_ratio a
     end).
Proof.
  repeat apply conj.
  - intros. now rewrite structure_None.
  - intros. now rewrite mission_None.
  - intros. now rewrite structure_Some.
  - intros. now rewrite mission_Some.
  - intros. now rewrite structure_Some, structure_None.
  - intros. now rewrite mission_Some, mission_None.
  - intros. rewrite eval_design_spec.
    destruct (residual a X); split; reflexivity.
  - intros. rewrite Convergence.operation_fct_spec.
    destruct (breguet a (fst X) (snd X)); [|reflexivity].
    now destruct (owe a).
  - intros.
    destruct (design_aircraft_keeps_setup conv fsolve None kr_ mpax_ effr a) as [_ ->].
    rewrite design_setup_spec. unfold with_overrides, override.
    destruct kr_, mpax_, effr; cbn; try (destruct (pydiv _ _)); reflexivity.
  - intros.
    destruct (design_aircraft_keeps_setup conv fsolve coef kr_ mpax_ (Some e) a) as [-> _].
    rewrite design_setup_spec. reflexivity.
  - intros.
    destruct (design_aircraft_keeps_setup conv fsolve coef kr_ mpax_ None a) as [-> _].
    rewrite design_setup_spec. unfold with_overrides, override.
    destruct coef, kr_, mpax_; cbn; destruct (pydiv _ _); reflexivity.
Qed.

End PicoQueries.

Module PicoCapacity.
Import Pico PicoSpec PicoFacts PicoMethods PicoRuns PicoDesign PicoEnvelope.
Import PicoClaims PicoExamples Examples Convergence.

Lemma l_o_d_150 : l_o_d 150 = 19.5.
Proof.
  unfold l_o_d. cbv zeta.
  replace (15 + (20 - 15) * (150 - 60) / (160 - 60)) with 19.5 by lra.
  rewrite Rmin_left by lra. rewrite Rmax_right by lra. reflexivity.
Qed.

Lemma max_capacity_spec a pm pfm rpm rfm rnp rng :
  payload_max a = Some pm -> payload_fuel_max a = Some pfm ->
  range_pl_max a = Some rpm -> range_fuel_max a = Some rfm ->
  range_no_pl a = Some rnp ->
  rpm < rfm -> rfm < rnp -> mpax a <> 0 ->
  max_capacity rng a = (Ok (capacity pm pfm rpm rfm rnp (mpax a) rng), a).
Proof.
  intros Hpm Hpfm Hrpm Hrfm Hrnp H1 H2 Hmp.
  unfold max_capacity, capacity, bind, getf, gets, lift, ret.
  rewrite Hrpm. cbn [need].
  destruct (Rle_dec rng rpm) as [L1|L1].
  - rewrite Hpm. cbn [need]. unfold pydiv.
    destruct (Req_dec_T (mpax a) 0); [contradiction|reflexivity].
  - destruct (Rlt_dec rpm rng) as [_|N]; [|lra].
    rewrite Hrfm. cbn [need].
    destruct (Rle_dec rng rfm) as [L2|L2].
    + rewrite Hpfm, Hpm. reflexivity.
    + rewrite Hrfm. cbn [need].
      destruct (Rlt_dec rfm rng) as [_|N]; [|lra].
      rewrite Hrnp. cbn [need].
      destruct (Rle_dec rng rnp) as [L3|L3]; [|reflexivity].
      rewrite Hpfm. reflexivity.
Qed.

Lemma np_floor_le x y : x <= y -> np_floor x <= np_floor y.
Proof. intros H. unfold np_floor. apply IZR_le, Zfloor_le, H. Qed.

Lemma np_floor_nonneg x : 0 <= x -> 0 <= np_floor x.
Proof.
  intros H. unfold np_floor. apply (IZR_le 0). apply Zfloor_lub. exact H.
Qed.

Lemma div_le_pos x y c : 0 < c -> x <= y -> x / c <= y / c.
Proof.
  intros Hc H. unfold Rdiv. apply Rmult_le_compat_r; [|exact H].
  left. now apply Rinv_0_lt_compat.
Qed.

(** A fraction of a non-negative quantity, along a segment of negative
    length [c]: [(x - b)/c] runs from 1 down to 0 as [x] runs from [b + c]
    up to [b]. *)
Lemma ratio_bounds x b c : c < 0 -> b + c <= x -> x <= b ->
  0 <= (x - b) / c <= 1.
Proof.
  intros Hc H1 H2.
  assert (E : (x - b) / c * c = x - b) by (field; lra).
  set (t := (x - b) / c) in *.
  split; nra.
Qed.

Lemma ratio_antitone x y b c : c < 0 -> x <= y -> (y - b) / c <= (x - b) / c.
Proof.
  intros Hc H.
  assert (E1 : (x - b) / c * c = x - b) by (field; lra).
  assert (E2 : (y - b) / c * c = y - b) by (field; lra).
  set (t := (x - b) / c) in *. set (u := (y - b) / c) in *.
  nra.
Qed.

Lemma interp_eq p x b c : (p * (x - b)) / c = p * ((x - b) / c).
Proof. unfold Rdiv. ring. Qed.

Lemma capacity_antitone pm pfm rpm rfm rnp mp r r' :
  rpm < rfm -> rfm < rnp -> pfm <= pm -> 0 <= pfm -> 0 < mp ->
  r <= r' ->
  capacity pm pfm rpm rfm rnp mp r' <= capacity pm pfm rpm rfm rnp mp r.
Proof.
  intros H1 H2 H3 H4 Hmp Hr.
  (* the three payloads, as functions of the range *)
  assert (P2 : forall x, rpm <= x <= rfm ->
            pfm <= pfm + (pm - pfm) * (x - rfm) / (rpm - rfm) <= pm).
  { intros x Hx. rewrite interp_eq.
    destruct (ratio_bounds x rfm (rpm - rfm)) as [B1 B2]; try lra.
    split; nra. }
  assert (P3 : forall x, rfm <= x <= rnp ->
            0 <= pfm * (x - rnp) / (rfm - rnp) <= pfm).
  { intros x Hx. rewrite interp_eq.
    destruct (ratio_bounds x rnp (rfm - rnp)) as [B1 B2]; try lra.
    split; nra. }
  assert (M2 : forall x y, x <= y ->
            pfm + (pm - pfm) * (y - rfm) / (rpm - rfm)
            <= pfm + (pm - pfm) * (x - rfm) / (rpm - rfm)).
  { intros x y Hxy. rewrite !interp_eq.
    pose proof (ratio_antitone x y rfm (rpm - rfm)) as B.
    assert (B' : (y - rfm) / (rpm - rfm) <= (x - rfm) / (rpm - rfm)) by (apply B; lra).
    nra. }
  assert (M3 : forall x y, x <= y ->
            pfm * (y - rnp) / (rfm - rnp) <= pfm * (x - rnp) / (rfm - rnp)).
  { intros x y Hxy. rewrite !interp_eq.
    pose proof (ratio_antitone x y rnp (rfm - rnp)) as B.
    assert (B' : (y - rnp) / (rfm - rnp) <= (x - rnp) / (rfm - rnp)) by (apply B; lra).
    nra. }
  assert (Q : forall x y, x <= y -> np_floor (x / mp) <= np_floor (y / mp)).
  { intros x y Hxy. apply np_floor_le, div_le_pos; assumption. }
  assert (Z : forall x, 0 <= x -> 0 <= np_floor (x / mp)).
  { intros x Hx. apply np_floor_nonneg. unfold Rdiv.
    apply Rmult_le_pos; [exact Hx|]. left. now apply Rinv_0_lt_compat. }
  unfold capacity.
  destruct (Rle_dec r' rpm), (Rle_dec r rpm); try lra;
  destruct (Rle_dec r' rfm), (Rle_dec r rfm); try lra;
  destruct (Rle_dec r' rnp), (Rle_dec r rnp); try lra.
  all: try apply Q; try apply Z.
  all: pose proof (M2 r r' Hr) as A5; pose proof (M3 r r' Hr) as A6.
  all: try pose proof (P2 r ltac:(lra)) as A1.
  all: try pose proof (P2 r' ltac:(lra)) as A2.
  all: try pose proof (P3 r ltac:(lra)) as A3.
  all: try pose proof (P3 r' ltac:(lra)) as A4.
  all: lra.
Qed.

(** C9 (amended).  For an aircraft with a positive mass per passenger
    ([mpax > 0]) whose corners satisfy the envelope invariant,
    [max_capacity] returns for every range, without raising and without
    changing the object: [floor(payload_max/mpax)] up to [range_pl_max], the
    floor of the linearly interpolated payload over [mpax] between the
    corners, and 0 beyond [range_no_pl]; and the returned capacity does not
    increase with the range. *)
Theorem max_capacity_total_antitone a pm pfm rpm rfm rnp :
  payload_max a = Some pm -> payload_fuel_max a = Some pfm ->
  range_pl_max a = Some rpm -> range_fuel_max a = Some rfm ->
  range_no_pl a = Some rnp ->
  rpm < rfm -> rfm < rnp -> pm >= pfm -> pfm >= 0 -> 0 < mpax a ->
  (forall rng,
     max_capacity rng a = (Ok (capacity pm pfm rpm rfm rnp (mpax a) rng), a)) /\
  (forall r r' c c',
     r <= r' ->
     max_capacity r a = (Ok c, a) -> max_capacity r' a = (Ok c', a) ->
     c' <= c) /\
  (forall rng, rng <= rpm ->
     max_capacity rng a = (Ok (np_floor (pm / mpax a)), a)) /\
  (forall rng, rnp < rng -> max_capacity rng a = (Ok 0, a)).
Proof.
  intros Hpm Hpfm Hrpm Hrfm Hrnp H1 H2 H3 H4 Hmp.
  assert (S : forall rng,
    max_capacity rng a = (Ok (capacity pm pfm rpm rfm rnp (mpax a) rng), a)).
  { intros rng. apply max_capacity_spec; trivial. lra. }
  repeat apply conj.
  - exact S.
  - intros r r' c c' Hr. rewrite !S. intros [= <-] [= <-].
    apply capacity_antitone; lra.
  - intros rng Hr. rewrite S. unfold capacity.
    destruct (Rle_dec rng rpm); [reflexivity|lra].
  - intros rng Hr. rewrite S. unfold capacity.
    destruct (Rle_dec rng rpm); [lra|].
    destruct (Rle_dec rng rfm); [lra|].
    destruct (Rle_dec rng rnp); [lra|reflexivity].
Qed.

(** C9, witness: [ac_sized]. *)
Lemma max_capacity_total_antitone_witness :
  max_capacity 5000000 ac_sized =
  (Ok (capacity 23400 7800 4300000 8600000 9400000 130 5000000), ac_sized).
Proof.
  apply (max_capacity_total_antitone ac_sized 23400 7800 4300000 8600000 9400000);
    try reflexivity; try lra.
  change (0 < 130). lra.
Defined.

(** C9 as stated fails: the envelope invariant alone does not make the
    lookup monotone.  With the corners of [ac_sized] and a mass per
    passenger of -130 the capacity is -180 at range 0 and 0 at 10000 km. *)
Lemma max_capacity_negative_mpax_increases :
  let a := set_mpax (-130) ac_sized in
  (range_pl_max a = Some 4300000 /\ range_fuel_max a = Some 8600000 /\
   range_no_pl a = Some 9400000 /\ payload_max a = Some 23400 /\
   payload_fuel_max a = Some 7800) /\
  4300000 < 8600000 < 9400000 /\ (23400 >= 7800 /\ 7800 >= 0) /\
  max_capacity 0 a = (Ok (-180), a) /\
  max_capacity 10000000 a = (Ok 0, a) /\
  0 <= 10000000 /\ -180 < 0.
Proof.
  cbv zeta. repeat apply conj; try reflexivity; try lra.
  - rewrite (max_capacity_spec _ 23400 7800 4300000 8600000 9400000);
      try reflexivity; try lra.
    + unfold capacity. destruct (Rle_dec 0 4300000); [|lra].
      change (mpax (set_mpax (-130) ac_sized)) with (-130).
      replace (23400 / -130) with (IZR (-180)) by lra.
      unfold np_floor. now rewrite ZfloorZ.
    + change (-130 <> 0). lra.
  - rewrite (max_capacity_spec _ 23400 7800 4300000 8600000 9400000);
      try reflexivity; try lra.
    + unfold capacity.
      destruct (Rle_dec 10000000 4300000); [lra|].
      destruct (Rle_dec 10000000 8600000); [lra|].
      destruct (Rle_dec 10000000 9400000); [lra|reflexivity].
    + change (-130 <> 0). lra.
Qed.

(** A root-finder that stops at [x] with flag 1 makes [design_aircraft()]
    return. *)
Lemma design_stops_converged conv a c0 c1 c2 x :
  sfc a <> 0 -> owe_coef a = [c0; c1; c2] -> cruise_altp a < 50000 ->
  fst (design_aircraft conv (fsolve_stops x 1%Z) None None None None a) = Ok tt.
Proof.
  intros Hs Hc Ha.
  rewrite design_aircraft_unfold, design_setup_plain by exact Hs.
  set (b := set_eff_ratio (l_o_d (npax a) / sfc a) a).
  rewrite (run_eval_design conv _ b b eq_refl).
  unfold fsolve_stops. cbn [answer after_run].
  destruct (residual_total b (guess a) c0 c1 c2 Hc Ha) as (y0 & ->).
  destruct (residual_total b x c0 c1 c2 Hc Ha) as (y & Hy). rewrite Hy.
  cbn [Z.eqb Pos.eqb negb].
  assert (Hy' : residual (design_point b x) x = Ok y).
  { rewrite <- Hy. apply residual_params. reflexivity. }
  destruct (residual_Ok _ _ _ Hy') as (s & pamb & tamb & vsnd & g & Hsv & Hatm & _).
  rewrite (design_envelope_spec conv _ _ pamb tamb vsnd g s Hsv Hatm).
  reflexivity.
Qed.

(** C10 as stated fails for [eff_ratio]: after [mission(..., effr=30)] has
    set it, a call of [design_aircraft()] that solves and returns has put
    back [l_o_d(npax)/sfc]. *)
Lemma mission_effr_overwritten_by_design :
  let a1 := snd (mission kg_daN_h 60000 10000 (Some 30) ac_sized) in
  let r := design_aircraft kg_daN_h (fsolve_stops (77000, 12800) 1%Z)
             None None None None a1 in
  eff_ratio a1 = 30 / kg_daN_h 1 /\
  fst r = Ok tt /\
  eff_ratio (snd r) = l_o_d 150 / kg_daN_h 0.54 /\
  eff_ratio (snd r) <> eff_ratio a1.
Proof.
  cbv zeta. rewrite mission_Some. cbn [snd].
  set (a1 := set_eff_ratio (30 / kg_daN_h 1) ac_sized).
  assert (E : eff_ratio
                (snd (design_aircraft kg_daN_h (fsolve_stops (77000, 12800) 1%Z)
                        None None None None a1)) = l_o_d 150 / kg_daN_h 0.54).
  { destruct (PicoQueries.design_aircraft_keeps_setup kg_daN_h
                (fsolve_stops (77000, 12800) 1%Z) None None None None a1) as [-> _].
    rewrite design_setup_plain by exact sfc_example_nonzero. reflexivity. }
  split; [reflexivity|]. split; [|split].
  - apply (design_stops_converged kg_daN_h a1 (-1.478e-07) 5.459e-01 8.40e+02).
    + exact sfc_example_nonzero.
    + reflexivity.
    + exact ac_sized_below_ceiling.
  - exact E.
  - rewrite E. change (eff_ratio a1) with (30 / kg_daN_h 1).
    rewrite l_o_d_150. unfold kg_daN_h.
    replace (19.5 / (0.54 / 36000)) with 1300000 by lra.
    replace (30 / (1 / 36000)) with 1080000 by lra.
    lra.
Qed.

End PicoCapacity.

Module PicoCorners.
Import Pico PicoSpec PicoFacts PicoMethods PicoRuns PicoDesign PicoEnvelope.
Import PicoClaims PicoExamples Examples Convergence.

Lemma ln_ratio_lt a b c d :
  0 < a -> 0 < b -> 0 < d -> a * d < c * b -> ln (a / b) < ln (c / d).
Proof.
  intros Ha Hb Hd H.
  apply ln_increasing.
  - now apply Rdiv_lt_0_compat.
  - assert (E : c / d - a / b = (c * b - a * d) / (b * d)) by (field; lra).
    assert (P : 0 < (c * b - a * d) / (b * d)).
    { apply Rdiv_lt_0_compat; [lra|]. now apply Rmult_lt_0_compat. }
    lra.
Qed.

Lemma ln_ratio_pos a b : 0 < a -> 0 < b -> (0 < ln (a / b) <-> b < a).
Proof.
  intros Ha Hb.
  assert (Hq : 0 < a / b) by now apply Rdiv_lt_0_compat.
  assert (E : a / b * b = a) by (field; lra).
  split; intros H.
  - rewrite <- ln_1 in H. apply ln_lt_inv in H; try lra. nra.
  - rewrite <- ln_1. apply ln_increasing; [lra|].
    assert (P : 0 < (a - b) / b) by (apply Rdiv_lt_0_compat; lra).
    assert (E2 : a / b - 1 = (a - b) / b) by (field; lra).
    lra.
Qed.

(** The three corner ranges of [design_aircraft], for a positive Breguet
    factor [K]. *)
Lemma corner_ranges_order K m fm p k :
  let o := m - p - fm - k * fm in
  let fuel := (m - o - p * 1.20) / (1 + k) in
  let fuel_max := (m - o - p * 0.40) / (1 + k) in
  let tow := o + fuel_max * (1 + k) in
  0 < K -> 0 < p -> -1 < k ->
  0 < fm + 0.60 * p / (1 + k) ->
  0 < o + k * (fm + 0.60 * p / (1 + k)) ->
  K * ln (m / (m - fuel)) < K * ln (m / (m - fuel_max)) /\
  K * ln (m / (m - fuel_max)) < K * ln (tow / (tow - fuel_max)) /\
  (0 < K * ln (m / (m - fuel)) <-> 0.20 * p / (1 + k) < fm).
Proof.
  intros o fuel fuel_max tow HK Hp Hk Hf Hl.
  assert (I : (1 + k) * / (1 + k) = 1) by (apply Rinv_r; lra).
  assert (Ip : 0 < / (1 + k)) by (apply Rinv_0_lt_compat; lra).
  assert (Ifm : fm * ((1 + k) * / (1 + k)) = fm) by (rewrite I; lra).
  assert (E1 : fuel = fm - 0.20 * p / (1 + k)).
  { unfold fuel, o, Rdiv in *. set (i := / (1 + k)) in *. lra. }
  assert (E2 : fuel_max = fm + 0.60 * p / (1 + k)).
  { unfold fuel_max, o, Rdiv in *. set (i := / (1 + k)) in *. lra. }
  assert (E3 : tow = m - p * 0.40).
  { unfold tow. rewrite E2. unfold o, Rdiv. set (i := / (1 + k)) in *.
    assert (Ipp : p * ((1 + k) * i) = p) by (rewrite I; lra).
    lra. }
  assert (Q : 0 < p / (1 + k)) by (apply Rdiv_lt_0_compat; lra).
  assert (Q1 : 0.20 * p / (1 + k) = 0.20 * (p / (1 + k))) by (unfold Rdiv; lra).
  assert (Q2 : 0.60 * p / (1 + k) = 0.60 * (p / (1 + k))) by (unfold Rdiv; lra).
  assert (T : 0 < tow - fuel_max).
  { replace (tow - fuel_max) with (o + k * fuel_max)
      by (unfold tow; ring).
    rewrite E2. exact Hl. }
  assert (F2 : 0 < fuel_max) by (rewrite E2; exact Hf).
  assert (F12 : fuel < fuel_max) by lra.
  assert (M2 : 0 < m - fuel_max) by lra.
  assert (M1 : 0 < m - fuel) by lra.
  assert (M : 0 < m) by lra.
  assert (W : 0 < tow) by lra.
  split; [|split].
  - apply Rmult_lt_compat_l; [exact HK|].
    apply ln_ratio_lt; try assumption. nra.
  - apply Rmult_lt_compat_l; [exact HK|].
    apply ln_ratio_lt; try assumption.
    assert (D : 0 < (m - tow) * fuel_max) by (apply Rmult_lt_0_compat; lra).
    nra.
  - pose proof (ln_ratio_pos m (m - fuel) M M1) as [L1 L2].
    split; intros H.
    + assert (0 < ln (m / (m - fuel))) by nra.
      assert (m - fuel < m) by (apply L1; assumption). lra.
    + apply Rmult_lt_0_compat; [exact HK|]. apply L2. lra.
Qed.

Lemma g_const_pos : 0 < g_const.
Proof. unfold g_const. lra. Qed.

(** C4 (amended).  After a successful [design_aircraft] the corner payloads
    are 1.2 and 0.4 times the design payload, hence ordered
    [payload_max >= payload_fuel_max >= 0] for a non-negative payload.  For
    a positive payload, a reserve fraction above -1, a positive cruise speed
    and efficiency ratio, a positive fuel of the max-fuel mission and a
    positive landing weight of the zero-payload mission, the corner ranges
    are ordered [range_pl_max < range_fuel_max < range_no_pl]; and
    [range_pl_max] is positive exactly when the design mission fuel exceeds
    [0.2*payload/(1+kr)], the fuel given up for the extra payload. *)
Theorem design_aircraft_envelope_order conv fsolve coef kr_ mpax_ effr a a' :
  design_aircraft conv fsolve coef kr_ mpax_ effr a = (Ok tt, a') ->
  exists p fm o cs r1 r2 r3,
    payload a' = Some p /\ fuel_mission a' = Some fm /\ owe a' = Some o /\
    cruise_speed a' = Some cs /\
    payload_max a' = Some (p * 1.20) /\ payload_fuel_max a' = Some (p * 0.40) /\
    range_pl_max a' = Some r1 /\ range_fuel_max a' = Some r2 /\
    range_no_pl a' = Some r3 /\
    (0 <= p -> p * 1.20 >= p * 0.40 /\ p * 0.40 >= 0) /\
    (0 < p -> -1 < kr a' -> 0 < cs -> 0 < eff_ratio a' ->
     0 < fm + 0.60 * p / (1 + kr a') ->
     0 < o + kr a' * (fm + 0.60 * p / (1 + kr a')) ->
     r1 < r2 /\ r2 < r3 /\ (0 < r1 <-> 0.20 * p / (1 + kr a') < fm)).
Proof.
  intros Hd.
  destruct (design_aircraft_Ok _ _ _ _ _ _ _ _ Hd)
    as (Xini & a1 & x & y0 & pamb & tamb & vsnd & Hs & Hans & Hres & Hatm & -> & Hp).
  set (a2 := after_run a1 a1 (fsolve Xini)) in *.
  set (m := fst x). set (fm := snd x).
  set (p := npax a2 * mpax a2). set (k := kr a2).
  set (K := (cruise_mach a2 * vsnd * eff_ratio a2) / g_const).
  set (o := m - p - fm - k * fm).
  set (fuel := (m - o - p * 1.20) / (1 + k)).
  set (fuel_max := (m - o - p * 0.40) / (1 + k)).
  set (tow := o + fuel_max * (1 + k)).
  exists p, fm, o, (vsnd * cruise_mach a2),
    (K * ln (m / (m - fuel))), (K * ln (m / (m - fuel_max))),
    (K * ln (tow / (tow - fuel_max))).
  repeat apply conj; try reflexivity.
  - intros H. split; lra.
  - change (kr (corners a2 x vsnd g_const)) with k.
    change (eff_ratio (corners a2 x vsnd g_const)) with (eff_ratio a2).
    intros H1 H2 H3 H4 H5 H6.
    apply (corner_ranges_order K m fm p k); trivial.
    unfold K.
    replace (cruise_mach a2 * vsnd * eff_ratio a2 / g_const)
      with ((vsnd * cruise_mach a2) * eff_ratio a2 / g_const)
      by (unfold Rdiv; ring).
    apply Rdiv_lt_0_compat; [|exact g_const_pos].
    now apply Rmult_lt_0_compat.
Qed.

End PicoCorners.

Module PicoSolutions.
Import Pico PicoSpec PicoFacts PicoMethods PicoRuns PicoDesign PicoEnvelope.
Import PicoClaims PicoExamples Examples Convergence PicoCorners PicoCapacity.

(** [fsolve_checks] honours the convergence contract by construction. *)
Lemma fsolve_checks_contract tol xs : fsolve_contract tol (fsolve_checks tol xs).
Proof.
  intros F x0 x H. unfold fsolve_checks in H. cbn [answer] in H.
  destruct (F x0) as [y0|e]; [|discriminate].
  destruct (F xs) as [y|e] eqn:Hy; [|discriminate].
  destruct (Rlt_dec (Rabs (fst y)) tol) as [H1|H1]; [|discriminate].
  destruct (Rlt_dec (Rabs (snd y)) tol) as [H2|H2]; [|discriminate].
  cbn [answer] in H. injection H as <-.
  exists y. repeat split; assumption.
Qed.

(** [design_aircraft()] with [fsolve_checks] at an exact solution [xs]. *)
Lemma design_checks_root conv tol xs a c0 c1 c2 pamb tamb vsnd :
  0 < tol -> sfc a <> 0 -> owe_coef a = [c0; c1; c2] ->
  atmosphere (cruise_altp a) 0 = Ok (pamb, tamb, vsnd, g_const) ->
  residual (set_eff_ratio (l_o_d (npax a) / sfc a) a) xs = Ok (0, 0) ->
  design_aircraft conv (fsolve_checks tol xs) None None None None a =
  (Ok tt,
   corners (design_point (set_eff_ratio (l_o_d (npax a) / sfc a) a) xs)
           xs vsnd g_const).
Proof.
  intros Ht Hs Hc Hatm Hres.
  rewrite design_aircraft_unfold, design_setup_plain by exact Hs.
  set (b := set_eff_ratio (l_o_d (npax a) / sfc a) a) in *.
  rewrite (run_eval_design conv _ b b eq_refl).
  unfold fsolve_checks. cbn [answer after_run].
  assert (Hg : exists y0, residual b (guess a) = Ok y0).
  { unfold residual, breguet, range_factor, structure_value.
    change (owe_coef b) with (owe_coef a). change (cruise_altp b) with (cruise_altp a).
    rewrite Hc, Hatm. cbn [idx nth_error obind]. eexists. reflexivity. }
  destruct Hg as (y0 & ->). rewrite Hres. cbn [fst snd].
  rewrite Rabs_R0.
  destruct (Rlt_dec 0 tol) as [_|N]; [|contradiction].
  cbn [answer after_run Z.eqb Pos.eqb negb].
  assert (Hsv : exists s, structure_value (owe_coef (design_point b xs)) (fst xs) = Ok s).
  { change (owe_coef (design_point b xs)) with (owe_coef a).
    unfold structure_value. rewrite Hc. cbn [idx nth_error obind].
    eexists. reflexivity. }
  destruct Hsv as (s & Hsv).
  apply (design_envelope_spec conv (design_point b xs) xs pamb tamb vsnd g_const s Hsv).
  exact Hatm.
Qed.

Lemma residual_root m : residual (ac_setup m) (m, fuel_of m) = Ok (0, 0).
Proof.
  unfold residual, breguet, range_factor, structure_value, ac_setup, ac_for.
  cbn [owe_coef cruise_altp cruise_mach eff_ratio npax mpax kr range sfc
       set_eff_ratio init_fields fst snd idx nth_error obind].
  destruct atmosphere_35000ft as (pamb & ->). cbn [obind].
  f_equal. f_equal.
  - unfold fuel_of. lra.
  - unfold range_of, K_150, vsnd_cruise. lra.
Qed.

Lemma design_root m :
  design_aircraft kg_daN_h (fsolve_checks 1e-6 (m, fuel_of m))
    None None None None (ac_for m) =
  (Ok tt,
   corners (design_point (ac_setup m) (m, fuel_of m))
           (m, fuel_of m) vsnd_cruise g_const).
Proof.
  destruct atmosphere_35000ft as (pamb & Hatm).
  refine (design_checks_root kg_daN_h 1e-6 (m, fuel_of m) (ac_for m)
           (-1.478e-07) 5.459e-01 8.40e+02 pamb
           (288.15 + -0.0065 * (ft 35000 - 0) + 0) vsnd_cruise
           _ sfc_example_nonzero eq_refl Hatm (residual_root m)).
  lra.
Qed.

Lemma vsnd_cruise_pos : 0 < vsnd_cruise.
Proof.
  unfold vsnd_cruise. apply sqrt_lt_R0.
  unfold gam_const, r_const, ft. lra.
Qed.

Lemma eff_ratio_150_pos : 0 < l_o_d 150 / kg_daN_h 0.54.
Proof. rewrite l_o_d_150. unfold kg_daN_h. lra. Qed.

Lemma K_150_pos : 0 < K_150.
Proof.
  unfold K_150. apply Rdiv_lt_0_compat; [|exact g_const_pos].
  apply Rmult_lt_0_compat; [|exact eff_ratio_150_pos].
  apply Rmult_lt_0_compat; [lra|exact vsnd_cruise_pos].
Qed.

(** C1, witness: the sizing of [ac_long] with a root-finder that honours the
    contract returns. *)
Lemma design_aircraft_balance_closure_witness :
  exists a' m fm,
    design_aircraft kg_daN_h (fsolve_checks 1e-6 xs_long)
      None None None None ac_long = (Ok tt, a') /\
    mtow a' = Some m /\ fuel_mission a' = Some fm /\
    exists y, eval_design kg_daN_h (m, fm) a' = (Ok y, a') /\ within 1e-6 y.
Proof.
  pose proof (design_root 77000) as Hd.
  destruct (design_aircraft_balance_closure 1e-6 kg_daN_h
              (fsolve_checks 1e-6 xs_long) None None None None ac_long _
              (fsolve_checks_contract 1e-6 xs_long) Hd)
    as (m & fm & owe_eff & range_eff & H1 & H2 & _ & _ & _ & _ & _ & _ & Hy).
  eexists. exists m, fm. split; [exact Hd|]. repeat split; assumption.
Defined.

(** C4 as stated fails: for the design range of about 450 NM the sizing of
    [ac_short] converges to an exact solution of the balance (take-off
    weight 47000 kg) and [range_pl_max] is negative, because the extra
    20 % of payload weighs more than the mission fuel. *)
Lemma short_range_design_negative_corner :
  exists a' r1,
    design_aircraft kg_daN_h (fsolve_checks 1e-6 xs_short)
      None None None None ac_short = (Ok tt, a') /\
    residual a' xs_short = Ok (0, 0) /\
    range_pl_max a' = Some r1 /\ r1 < 0.
Proof.
  pose proof (design_root 47000) as Hd.
  eexists. eexists. split; [exact Hd|]. split; [|split].
  - rewrite <- (residual_root 47000). apply residual_params.
    unfold ac_setup, ac_for. norm_fields. reflexivity.
  - unfold ac_setup, ac_for, init_fields. norm_fields. reflexivity.
  - change (K_150 * ln (47000 / (47000 -
              (47000 - (47000 - 150 * 130 - fuel_of 47000 - 0.05 * fuel_of 47000)
               - 150 * 130 * 1.20) / (1 + 0.05))) < 0).
    apply Rmult_pos_neg; [exact K_150_pos|].
    rewrite <- ln_1. apply ln_increasing.
    + apply Rdiv_lt_0_compat; unfold fuel_of; lra.
    + assert (E : forall u v, 0 < v -> u < v -> u / v < 1).
      { intros u v Hv Huv.
        assert (P : 0 < (v - u) / v) by (apply Rdiv_lt_0_compat; lra).
        assert (E2 : 1 - u / v = (v - u) / v) by (field; lra). lra. }
      apply E; unfold fuel_of; lra.
Qed.

End PicoSolutions.

Module NacelleExamples.
Import Nacelle NacelleSpec NacelleFacts NacelleClaims Examples.
Import PicoSolutions.

Lemma Rpower_pos x y : 0 < Rpower x y.
Proof. unfold Rpower. apply exp_pos. Qed.

Lemma corrected_air_flow_pos P T M :
  0 < P -> 0 < T -> 0 < M -> 0 < corrected_air_flow gas_air P T M.
Proof.
  intros HP HT HM. unfold corrected_air_flow, gas_air.
  apply Rmult_lt_0_compat.
  - apply Rdiv_lt_0_compat; [|now apply sqrt_lt_R0].
    apply Rmult_lt_0_compat; [|exact HP].
    apply sqrt_lt_R0. lra.
  - apply Rmult_lt_0_compat; [exact HM|apply Rpower_pos].
Qed.

Lemma Cp_air_inv : / (1.4 * (287.053 / 0.4)) = 0.4 / (1.4 * 287.053).
Proof. lra. Qed.

Lemma Vair_to_sqr : Vair_to ^ 2 = 0.0625 * (1.4 * 287.053 * 303.15).
Proof.
  unfold Vair_to, sound_speed_air. rewrite Rpow_mult_distr.
  rewrite pow2_sqrt by lra. lra.
Qed.

(** The jet of the sized nacelle: positive velocity, positive static
    temperature, hence a positive corrected flow per unit area. *)
Lemma nozzle_flow_per_area_pos q Pw :
  0 < q -> 0 < Pw ->
  0 < nozzle_flow_per_area gas_air sound_speed_air total_pressure_air
        0.95 Pw 101325 Ttot_to Vair_to q.
Proof.
  intros Hq HP.
  assert (Hw : 0 < Pw / q) by now apply Rdiv_lt_0_compat.
  assert (HV : 0 <= Vair_to ^ 2) by (rewrite Vair_to_sqr; lra).
  assert (Harg : 0 < 2 * 0.95 * Pw / q + Vair_to ^ 2).
  { replace (2 * 0.95 * Pw / q) with (1.9 * (Pw / q)) by (unfold Rdiv; lra). lra. }
  assert (HVj : 0 < jet_velocity 0.95 Pw q Vair_to)
    by (unfold jet_velocity; now apply sqrt_lt_R0).
  assert (HVj2 : jet_velocity 0.95 Pw q Vair_to ^ 2 = 1.9 * (Pw / q) + Vair_to ^ 2).
  { unfold jet_velocity. rewrite pow2_sqrt by lra. unfold Rdiv. lra. }
  assert (HT : Ttot_to = 303.15 * (1 + 0.2 * 0.0625)).
  { unfold Ttot_to, total_temperature_air. lra. }
  assert (Hu : Pw / (q * (1.4 * (287.053 / 0.4))) = Pw / q * (0.4 / (1.4 * 287.053))).
  { unfold Rdiv at 1. rewrite Rinv_mult, Cp_air_inv. unfold Rdiv. lra. }
  unfold nozzle_flow_per_area, gas_air.
  set (Vj := jet_velocity 0.95 Pw q Vair_to) in *.
  set (Tt := Ttot_to + Pw / (q * (1.4 * (287.053 / 0.4)))).
  set (Ts := Tt - 0.5 * Vj ^ 2 / (1.4 * (287.053 / 0.4))).
  assert (HTt : 0 < Tt).
  { unfold Tt. rewrite Hu, HT.
    assert (0 < Pw / q * (0.4 / (1.4 * 287.053)))
      by (apply Rmult_lt_0_compat; lra).
    lra. }
  assert (HTs : 0 < Ts).
  { unfold Ts, Tt. rewrite Hu, HT, HVj2, Vair_to_sqr.
    unfold Rdiv at 3. rewrite Cp_air_inv.
    set (w := Pw / q) in *. lra. }
  apply corrected_air_flow_pos.
  - unfold total_pressure_air. apply Rmult_lt_0_compat; [lra|apply Rpower_pos].
  - exact HTt.
  - apply Rdiv_lt_0_compat; [exact HVj|].
    unfold sound_speed_air. apply sqrt_lt_R0.
    apply Rmult_lt_0_compat; [lra|exact HTs].
Qed.

(** The nozzle sized for [(q, Pw)] satisfies the continuity equation there
    exactly. *)
Lemma sized_residual_zero q Pw :
  0 < q -> 0 < Pw ->
  continuity_residual gas_air sound_speed_air total_pressure_air 0.95
    (q / nozzle_flow_per_area gas_air sound_speed_air total_pressure_air
           0.95 Pw 101325 Ttot_to Vair_to q)
    Pw 101325 Ttot_to Vair_to q = 0.
Proof.
  intros Hq HP. unfold continuity_residual.
  pose proof (nozzle_flow_per_area_pos q Pw Hq HP) as Hn.
  set (n := nozzle_flow_per_area _ _ _ _ _ _ _ _ _) in *.
  field. lra.
Qed.

Lemma fsolve_checks_1_contract tol qs : fsolve_contract_1 tol (fsolve_checks_1 tol qs).
Proof.
  intros F x0 x H. unfold fsolve_checks_1 in H. cbn [answer] in H.
  destruct (F x0) as [y0|e]; [|discriminate].
  destruct (F qs) as [y|e] eqn:Hy; [|discriminate].
  destruct (Rlt_dec (Rabs y) tol) as [H1|H1]; [|discriminate].
  cbn [answer] in H. injection H as <-.
  exists y. split; assumption.
Qed.

Lemma Pw_to_pos : 0 < Pw_to.
Proof.
  unfold Pw_to, shaft_power. cbn [reference_power motor_efficiency
    controller_efficiency nacelle_150]. lra.
Qed.

(** [unitary_thrust] on the nacelle sized for the flow of 100 kg/s, with a
    root-finder that honours the contract. *)
Lemma unitary_thrust_sized :
  unitary_thrust gas_air sound_speed_air total_pressure_air
    total_temperature_air (fsolve_checks_1 1e-6 100) (nacelle_sized 100 Pw_to)
    101325 303.15 0.25 "MTO" 1 0 =
  Ok [("fn"%string, 100 * (jet_velocity 0.95 Pw_to 100 Vair_to - Vair_to));
      ("pw"%string, 0.95 * Pw_to)].
Proof.
  rewrite unitary_thrust_unfold.
  change (dict_get (rating_factor (nacelle_sized 100 Pw_to)) "MTO") with (Ok 1.00).
  cbn [fan_width nacelle_sized]. cbv zeta.
  change (shaft_power (nacelle_sized 100 Pw_to) 1.00 1 0) with Pw_to.
  change (total_temperature_air 303.15 0.25) with Ttot_to.
  change (0.25 * sound_speed_air 303.15) with Vair_to.
  unfold fsolve_checks_1. cbn [answer].
  rewrite !unitary_thrust_fct_spec. cbn [nozzle_area efficiency_fan nacelle_sized].
  rewrite sized_residual_zero by (lra || exact Pw_to_pos).
  rewrite Rabs_R0. destruct (Rlt_dec 0 1e-6) as [_|N]; [|lra].
  cbn [answer Z.eqb Pos.eqb negb]. reflexivity.
Qed.

(** C5, witness. *)
Lemma unitary_thrust_energy_conservation_witness :
  exists q,
    Rabs (continuity_residual gas_air sound_speed_air total_pressure_air 0.95
            (100 / nozzle_flow_per_area gas_air sound_speed_air
                     total_pressure_air 0.95 Pw_to 101325 Ttot_to Vair_to 100)
            Pw_to 101325 Ttot_to Vair_to q) < 1e-6 /\
    Ok (100 * (jet_velocity 0.95 Pw_to 100 Vair_to - Vair_to)) =
    Ok (q * (jet_velocity 0.95 Pw_to q Vair_to - Vair_to)).
Proof.
  destruct (unitary_thrust_energy_conservation gas_air sound_speed_air
              total_pressure_air total_temperature_air (fsolve_checks_1 1e-6 100)
              1e-6 (nacelle_sized 100 Pw_to) 101325 303.15 0.25 "MTO"%string 1 0 _
              (fsolve_checks_1_contract 1e-6 100) unitary_thrust_sized)
    as (q & rf & na & Hrf & Hna & Hres & Hfn & _).
  injection Hrf as <-. injection Hna as <-.
  exists q. split; [exact Hres|exact Hfn].
Defined.

(** [unitary_sc] for that thrust on the same nacelle. *)
Lemma unitary_sc_sized :
  unitary_sc gas_air sound_speed_air total_pressure_air
    total_temperature_air (fsolve_checks 1e-6 (100, Pw_to))
    (nacelle_sized 100 Pw_to) 101325 303.15 0.25 "MTO" thrust_to 0 =
  Ok [("sec"%string, Pw_to / thrust_to);
      ("pw"%string, Pw_to);
      ("thtl"%string,
       (Pw_to + 0) / (reference_power (nacelle_sized 100 Pw_to) * 1.00))].
Proof.
  rewrite unitary_sc_unfold.
  cbn [fan_width nacelle_sized].
  change (dict_get (rating_factor (nacelle_sized 100 Pw_to)) "MTO") with (Ok 1.00).
  cbv zeta.
  change (total_temperature_air 303.15 0.25) with Ttot_to.
  change (0.25 * sound_speed_air 303.15) with Vair_to.
  unfold fsolve_checks. cbn [answer].
  rewrite !unitary_sc_fct_spec. cbn [nozzle_area efficiency_fan nacelle_sized fst snd].
  rewrite sized_residual_zero by (lra || exact Pw_to_pos).
  fold thrust_to. rewrite Rminus_diag.
  rewrite Rabs_R0. destruct (Rlt_dec 0 1e-6) as [_|N]; [|lra].
  cbn [answer Z.eqb Pos.eqb negb fst snd]. reflexivity.
Qed.

(** C6, witness. *)
Lemma unitary_sc_thrust_matching_witness :
  exists q Pw,
    Rabs (q * (jet_velocity 0.95 Pw q Vair_to - Vair_to) - thrust_to) < 1e-6 /\
    Ok Pw_to = Ok Pw /\
    Ok (Pw_to / thrust_to) =
    Ok (Pw / (q * (jet_velocity 0.95 Pw q Vair_to - Vair_to))).
Proof.
  destruct (unitary_sc_thrust_matching gas_air sound_speed_air
              total_pressure_air total_temperature_air
              (fsolve_checks 1e-6 (100, Pw_to))
              1e-6 (nacelle_sized 100 Pw_to) 101325 303.15 0.25 "MTO"%string
              thrust_to 0 _
              (fsolve_checks_contract 1e-6 (100, Pw_to)) unitary_sc_sized)
    as (q & Pw & rf & na & Hrf & Hna & _ & _ & Hthr & Hpw & Hsec & _).
  exists q, Pw. split; [exact Hthr|]. split; [exact Hpw|exact Hsec].
Defined.

End NacelleExamples.

Module PicoCornersExamples.
Import Pico PicoSpec PicoFacts PicoMethods PicoRuns PicoDesign PicoEnvelope.
Import PicoClaims PicoExamples Examples Convergence PicoCorners PicoCapacity.
Import PicoSolutions.

Ltac norm_fields_in H :=
  cbv beta iota zeta delta
    [cruise_altp cruise_mach cruise_speed range npax mpax payload mtow owe
     ldw fuel_mission fuel_reserve kr payload_max range_pl_max
     payload_fuel_max range_fuel_max range_no_pl lod sfc eff_ratio owe_coef
     set_cruise_speed set_mpax set_payload set_mtow set_owe set_ldw
     set_fuel_mission set_fuel_reserve set_kr set_payload_max
     set_range_pl_max set_payload_fuel_max set_range_fuel_max
     set_range_no_pl set_eff_ratio set_owe_coef design_point design_partial
     corners frame params fst snd ac_setup ac_for init_fields] in H.

(** C4, witness: the sizing of [ac_long] (take-off weight 77000 kg). *)
Lemma design_aircraft_envelope_order_witness :
  exists a' r1 r2 r3,
    design_aircraft kg_daN_h (fsolve_checks 1e-6 xs_long)
      None None None None ac_long = (Ok tt, a') /\
    range_pl_max a' = Some r1 /\ range_fuel_max a' = Some r2 /\
    range_no_pl a' = Some r3 /\
    0 < r1 /\ r1 < r2 /\ r2 < r3.
Proof.
  pose proof (design_root 77000) as Hd.
  destruct (design_aircraft_envelope_order kg_daN_h (fsolve_checks 1e-6 xs_long)
              None None None None ac_long _ Hd)
    as (p & fm & o & cs & r1 & r2 & r3 & Hp & Hfm & Ho & Hcs & _ & _ &
        Hr1 & Hr2 & Hr3 & _ & Hord).
  norm_fields_in Hp. norm_fields_in Hfm. norm_fields_in Ho. norm_fields_in Hcs.
  injection Hp as <-. injection Hfm as <-. injection Ho as <-. injection Hcs as <-.
  norm_fields_in Hord.
  destruct Hord as (H12 & H23 & H1).
  - lra.
  - lra.
  - apply Rmult_lt_0_compat; [exact vsnd_cruise_pos|lra].
  - exact eff_ratio_150_pos.
  - unfold fuel_of. lra.
  - unfold fuel_of. lra.
  - eexists. exists r1, r2, r3. split; [exact Hd|].
    repeat split; trivial.
    apply H1. unfold fuel_of. lra.
Defined.

End PicoCornersExamples.

Module PicoProfile.
Import Pico PicoSpec PicoFacts.

(** The first turn of the loop on the initial arrays. *)
Lemma atmosphere_body_first :
  atmosphere_body 0 T_init P_init =
  Ok ([288.15; 288.15 + -0.0065 * (11000 - 0); 0; 0; 0; 0],
      [101325;
       101325 * Rpower (1 + (-0.0065 / 288.15) * (11000 - 0))
                       (- g_const / (r_const * -0.0065));
       0; 0; 0; 0]).
Proof.
  unfold atmosphere_body.
  cbn [obind idx nth_error dtodz_tab T_init P_init Z_tab upd Nat.add
       Nat.ltb Nat.leb List.length replace_nth].
  destruct (Rlt_dec 0 (Rabs (-0.0065))) as [_|Hn]; [reflexivity|].
  exfalso. apply Hn. apply Rabs_pos_lt. lra.
Qed.

(** X1.  [atmosphere] has no lower bound on the altitude: for every
    pressure altitude below 11000 m, negative ones included, it returns the
    values of the first band: the temperature [288.15 - 0.0065*altp + disa],
    the pressure [101325*(1 - 0.0065/288.15*altp)**(g/(r*0.0065))], the speed
    of sound of that temperature and the constant gravity. *)
Theorem atmosphere_first_band (altp disa : R) :
  altp < 11000 ->
  atmosphere altp disa =
  Ok (101325 * Rpower (1 - 0.0065 / 288.15 * altp)
                      (9.80665 / (287.053 * 0.0065)),
      288.15 - 0.0065 * altp + disa,
      sqrt (1.4 * 287.053 * (288.15 - 0.0065 * altp + disa)),
      9.80665).
Proof.
  intros H. rewrite atmosphere_troposphere by exact H.
  unfold g_const, r_const, gam_const.
  replace (1 + -0.0065 / 288.15 * (altp - 0)) with (1 - 0.0065 / 288.15 * altp)
    by lra.
  match goal with
  | |- context [Rpower _ ?b] =>
      replace b with (9.80665 / (287.053 * 0.0065)) by lra
  end.
  replace (288.15 + -0.0065 * (altp - 0) + disa)
    with (288.15 - 0.0065 * altp + disa) by lra.
  reflexivity.
Qed.

Lemma atmosphere_first_band_witness :
  atmosphere (-100) 0 =
  Ok (101325 * Rpower (1 - 0.0065 / 288.15 * (-100))
                      (9.80665 / (287.053 * 0.0065)),
      288.15 - 0.0065 * (-100) + 0,
      sqrt (1.4 * 287.053 * (288.15 - 0.0065 * (-100) + 0)),
      9.80665).
Proof. apply (atmosphere_first_band (-100) 0). lra. Defined.

(** X2.  Between 11000 m and 20000 m the atmosphere is isothermal at
    216.65 K plus [disa], and the pressure decays exponentially from the
    value that the first band reaches at 11000 m: temperature and pressure
    are continuous across the band limit. *)
Theorem atmosphere_isothermal_band (altp disa : R) :
  11000 <= altp -> altp < 20000 ->
  atmosphere altp disa =
  Ok (101325 * Rpower (1 - 0.0065 / 288.15 * 11000)
                      (9.80665 / (287.053 * 0.0065))
        * exp (- (9.80665 / 287.053) * ((altp - 11000) / 216.65)),
      216.65 + disa,
      sqrt (1.4 * 287.053 * (216.65 + disa)),
      9.80665).
Proof.
  intros H1 H2. rewrite atmosphere_guard.
  destruct (Rlt_dec 50000 altp); [lra|].
  rewrite atmosphere_loop_unfold.
  cbn [idx nth_error Z_tab Nat.add].
  destruct (Rle_dec 11000 altp); [|lra].
  rewrite atmosphere_body_first.
  rewrite (atmosphere_loop_stop altp (0 + 1) 20000) by (reflexivity || lra).
  cbn [obind idx nth_error dtodz_tab Z_tab Nat.add].
  destruct (Rlt_dec 0 (Rabs 0)) as [Hp|_].
  { rewrite Rabs_R0 in Hp. lra. }
  unfold g_const, r_const, gam_const.
  replace (1 + -0.0065 / 288.15 * (11000 - 0)) with (1 - 0.0065 / 288.15 * 11000)
    by lra.
  match goal with
  | |- context [Rpower _ ?b] =>
      replace b with (9.80665 / (287.053 * 0.0065)) by lra
  end.
  replace (288.15 + -0.0065 * (11000 - 0)) with 216.65 by lra.
  replace (216.65 + 0 * (altp - 11000) + disa) with (216.65 + disa) by lra.
  reflexivity.
Qed.

Lemma atmosphere_isothermal_band_witness :
  atmosphere 15000 10 =
  Ok (101325 * Rpower (1 - 0.0065 / 288.15 * 11000)
                      (9.80665 / (287.053 * 0.0065))
        * exp (- (9.80665 / 287.053) * ((15000 - 11000) / 216.65)),
      216.65 + 10,
      sqrt (1.4 * 287.053 * (216.65 + 10)),
      9.80665).
Proof. apply (atmosphere_isothermal_band 15000 10); lra. Defined.

(** X3.  [atmosphere] returns ambient data exactly for the altitudes
    strictly below 50000 m; the temperature shift [disa] plays no part in
    that. *)
Theorem atmosphere_returns_iff_below_ceiling (altp disa : R) :
  (exists res, atmosphere altp disa = Ok res) <-> altp < 50000.
Proof.
  split.
  - intros [res H].
    destruct (Rlt_le_dec altp 50000) as [Hlt|Hge]; [exact Hlt|exfalso].
    rewrite atmosphere_guard in H.
    destruct (Rlt_dec 50000 altp); [discriminate|].
    rewrite atmosphere_loop_overrun in H by exact Hge. discriminate.
  - intros H. destruct (atmosphere_below_ceiling altp disa H) as (p & t & v & E).
    eexists. exact E.
Qed.

(** X4.  The lift-to-drag ratio stays between 15 and 20 and never decreases
    with the number of passengers. *)
Theorem l_o_d_bounded_monotone (n1 n2 : R) :
  n1 <= n2 ->
  15 <= l_o_d n1 /\ l_o_d n1 <= l_o_d n2 /\ l_o_d n2 <= 20.
Proof.
  intros H. unfold l_o_d. cbv zeta.
  replace (160 - 60) with 100 by lra.
  repeat apply conj.
  - apply Rmax_l.
  - apply Rle_max_compat_l, Rle_min_compat_r. lra.
  - apply Rmax_lub; [lra|apply Rmin_r].
Qed.

Lemma l_o_d_bounded_monotone_witness :
  15 <= l_o_d 100 /\ l_o_d 100 <= l_o_d 150 /\ l_o_d 150 <= 20.
Proof. apply (l_o_d_bounded_monotone 100 150). lra. Defined.

(** X5.  The lift-to-drag ratio is 15 up to 60 passengers, 20 from 160
    passengers on, and grows by 0.05 per passenger in between. *)
Theorem l_o_d_piecewise (npax : R) :
  l_o_d npax =
  if Rle_dec npax 60 then 15
  else if Rle_dec 160 npax then 20
  else 15 + 0.05 * (npax - 60).
Proof.
  unfold l_o_d. cbv zeta.
  replace (160 - 60) with 100 by lra.
  replace ((20 - 15) * (npax - 60) / 100) with (0.05 * (npax - 60)) by lra.
  destruct (Rle_dec npax 60) as [H1|H1].
  - rewrite Rmin_left by lra. rewrite Rmax_left by lra. reflexivity.
  - destruct (Rle_dec 160 npax) as [H2|H2].
    + rewrite Rmin_right by lra. rewrite Rmax_right by lra. reflexivity.
    + rewrite Rmin_left by lra. rewrite Rmax_right by lra. reflexivity.
Qed.

End PicoProfile.

Module PlrFacts.
Import Pico PicoSpec Plr PlrSpec PicoCapacity Examples.

Lemma max_range_spec a pm pfm rpm rfm rnp n :
  sized a pm pfm rpm rfm rnp ->
  max_range n a = (Ok (range_at pm pfm rpm rfm rnp (mpax a * n)), a).
Proof.
  intros (Hpm & Hpfm & Hrpm & Hrfm & Hrnp).
  unfold max_range, range_at, bind, getf, gets, ret.
  rewrite Hpm. cbn [need].
  destruct (Rlt_dec pm (mpax a * n)) as [L1|L1]; [reflexivity|].
  rewrite Hpfm. cbn [need].
  destruct (Rlt_dec pfm (mpax a * n)) as [L2|L2].
  - rewrite Hpm. cbn [need].
    destruct (Rle_dec (mpax a * n) pm) as [L3|L3]; [|lra].
    rewrite Hrfm, Hpfm, Hrpm, Hpm. reflexivity.
  - rewrite Hrnp, Hrfm, Hpfm. reflexivity.
Qed.

Lemma range_at_antitone pm pfm rpm rfm rnp p p' :
  0 <= rpm -> rpm <= rfm -> rfm <= rnp -> 0 < pfm -> pfm <= pm ->
  p <= p' ->
  range_at pm pfm rpm rfm rnp p' <= range_at pm pfm rpm rfm rnp p.
Proof.
  intros H0 H1 H2 H3 H4 Hp. unfold range_at.
  assert (A : forall x, x <= pfm -> rfm <= rnp + x * (rfm - rnp) / pfm).
  { intros x Hx.
    replace (rnp + x * (rfm - rnp) / pfm)
      with (rfm + (pfm - x) * ((rnp - rfm) / pfm)) by (field; lra).
    assert (0 <= (rnp - rfm) / pfm)
      by (apply Rmult_le_pos; [lra|left; apply Rinv_0_lt_compat; lra]).
    nra. }
  assert (B : forall x y, x <= y ->
            rnp + y * (rfm - rnp) / pfm <= rnp + x * (rfm - rnp) / pfm).
  { intros x y Hxy.
    assert (0 <= (rnp - rfm) / pfm)
      by (apply Rmult_le_pos; [lra|left; apply Rinv_0_lt_compat; lra]).
    replace (rnp + y * (rfm - rnp) / pfm)
      with (rnp - y * ((rnp - rfm) / pfm)) by (field; lra).
    replace (rnp + x * (rfm - rnp) / pfm)
      with (rnp - x * ((rnp - rfm) / pfm)) by (field; lra).
    nra. }
  assert (C : forall x, pfm < x -> x <= pm ->
            rpm <= rfm + (x - pfm) * (rpm - rfm) / (pm - pfm) <= rfm).
  { intros x Hx1 Hx2.
    assert (0 <= (rfm - rpm) / (pm - pfm))
      by (apply Rmult_le_pos; [lra|left; apply Rinv_0_lt_compat; lra]).
    replace (rfm + (x - pfm) * (rpm - rfm) / (pm - pfm))
      with (rpm + (pm - x) * ((rfm - rpm) / (pm - pfm))) by (field; lra).
    assert ((pm - x) * ((rfm - rpm) / (pm - pfm)) <= rfm - rpm).
    { replace (rfm - rpm) with ((pm - pfm) * ((rfm - rpm) / (pm - pfm))) at 2
        by (field; lra).
      nra. }
    nra. }
  assert (D : forall x y, pfm < x -> x <= y -> y <= pm ->
            rfm + (y - pfm) * (rpm - rfm) / (pm - pfm)
            <= rfm + (x - pfm) * (rpm - rfm) / (pm - pfm)).
  { intros x y Hx Hxy Hy.
    assert (0 <= (rfm - rpm) / (pm - pfm))
      by (apply Rmult_le_pos; [lra|left; apply Rinv_0_lt_compat; lra]).
    replace (rfm + (y - pfm) * (rpm - rfm) / (pm - pfm))
      with (rfm - (y - pfm) * ((rfm - rpm) / (pm - pfm))) by (field; lra).
    replace (rfm + (x - pfm) * (rpm - rfm) / (pm - pfm))
      with (rfm - (x - pfm) * ((rfm - rpm) / (pm - pfm))) by (field; lra).
    nra. }
  destruct (Rlt_dec pm p') as [L1|L1], (Rlt_dec pm p) as [M1|M1]; try lra.
  - destruct (Rlt_dec pfm p) as [M2|M2].
    + pose proof (C p M2 ltac:(lra)). lra.
    + pose proof (A p ltac:(lra)). lra.
  - destruct (Rlt_dec pfm p') as [L2|L2], (Rlt_dec pfm p) as [M2|M2]; try lra.
    + apply D; lra.
    + pose proof (C p' L2 ltac:(lra)). pose proof (A p ltac:(lra)). lra.
    + apply B; lra.
Qed.

(** X6.  On an object with known corners, [max_range] returns the corner
    ranges at the corner payloads: [range_pl_max] for the passengers of
    [payload_max], [range_fuel_max] for those of [payload_fuel_max] and
    [range_no_pl] without passengers; the object is left as it is. *)
Theorem max_range_corner_values a pm pfm rpm rfm rnp :
  sized a pm pfm rpm rfm rnp ->
  0 < pfm -> pfm < pm -> mpax a <> 0 ->
  max_range (pm / mpax a) a = (Ok rpm, a) /\
  max_range (pfm / mpax a) a = (Ok rfm, a) /\
  max_range 0 a = (Ok rnp, a).
Proof.
  intros S H1 H2 Hmp.
  rewrite !(max_range_spec a pm pfm rpm rfm rnp) by exact S.
  replace (mpax a * (pm / mpax a)) with pm by (field; exact Hmp).
  replace (mpax a * (pfm / mpax a)) with pfm by (field; exact Hmp).
  rewrite Rmult_0_r. unfold range_at.
  repeat apply conj.
  - destruct (Rlt_dec pm pm); [lra|]. destruct (Rlt_dec pfm pm); [|lra].
    do 2 f_equal. field. lra.
  - destruct (Rlt_dec pm pfm); [lra|]. destruct (Rlt_dec pfm pfm); [lra|].
    do 2 f_equal. field. lra.
  - destruct (Rlt_dec pm 0); [lra|]. destruct (Rlt_dec pfm 0); [lra|].
    do 2 f_equal. unfold Rdiv. ring.
Qed.

Lemma ac_sized_sized : sized ac_sized 23400 7800 4300000 8600000 9400000.
Proof. repeat split. Qed.

Lemma max_range_corner_values_witness :
  max_range (23400 / mpax ac_sized) ac_sized = (Ok 4300000, ac_sized) /\
  max_range (7800 / mpax ac_sized) ac_sized = (Ok 8600000, ac_sized) /\
  max_range 0 ac_sized = (Ok 9400000, ac_sized).
Proof.
  apply (max_range_corner_values ac_sized 23400 7800 4300000 8600000 9400000).
  - exact ac_sized_sized.
  - lra.
  - lra.
  - change (130 <> 0). lra.
Defined.

(** X7.  On an object with ordered corners and a positive mass per
    passenger, [max_range] returns for every number of passengers, leaves
    the object as it is, and the returned range does not increase with the
    number of passengers. *)
Theorem max_range_total_antitone a pm pfm rpm rfm rnp :
  sized a pm pfm rpm rfm rnp ->
  0 <= rpm -> rpm <= rfm -> rfm <= rnp -> 0 < pfm -> pfm <= pm ->
  0 < mpax a ->
  (forall n, exists r, max_range n a = (Ok r, a)) /\
  (forall n n' r r',
     n <= n' ->
     max_range n a = (Ok r, a) -> max_range n' a = (Ok r', a) ->
     r' <= r).
Proof.
  intros S H0 H1 H2 H3 H4 Hmp. split.
  - intros n. eexists. apply (max_range_spec a pm pfm rpm rfm rnp n S).
  - intros n n' r r' Hn.
    rewrite !(max_range_spec a pm pfm rpm rfm rnp) by exact S.
    intros [= <-] [= <-].
    apply range_at_antitone; trivial. nra.
Qed.

Lemma max_range_total_antitone_witness :
  (forall n, exists r, max_range n ac_sized = (Ok r, ac_sized)) /\
  (forall n n' r r',
     n <= n' ->
     max_range n ac_sized = (Ok r, ac_sized) ->
     max_range n' ac_sized = (Ok r', ac_sized) ->
     r' <= r).
Proof.
  apply (max_range_total_antitone ac_sized 23400 7800 4300000 8600000 9400000).
  - exact ac_sized_sized.
  - lra.
  - lra.
  - lra.
  - lra.
  - lra.
  - change (0 < 130). lra.
Defined.

Lemma div_le_1 x y : 0 < y -> x <= y -> x / y <= 1.
Proof.
  intros Hy Hxy. apply (Rmult_le_reg_r y); [exact Hy|].
  unfold Rdiv. rewrite Rmult_assoc, Rinv_l by lra. lra.
Qed.

Lemma div_lt_1 x y : 0 < y -> x < y -> x / y < 1.
Proof.
  intros Hy Hxy. apply (Rmult_lt_reg_r y); [exact Hy|].
  unfold Rdiv. rewrite Rmult_assoc, Rinv_l by lra. lra.
Qed.

Lemma np_floor_below x : np_floor x <= x.
Proof.
  unfold np_floor. pose proof (Zfloor_bound x). lra.
Qed.

(** X8.  The two lookups agree: on an object with ordered corners and a
    positive mass per passenger, the capacity that [max_capacity] returns for
    a range up to [range_no_pl] is a number of passengers for which
    [max_range] returns at least that range. *)
Theorem max_capacity_within_max_range a pm pfm rpm rfm rnp rng :
  sized a pm pfm rpm rfm rnp ->
  rpm < rfm -> rfm < rnp -> 0 < pfm -> pfm <= pm -> 0 < mpax a ->
  rng <= rnp ->
  exists capa r,
    max_capacity rng a = (Ok capa, a) /\
    max_range capa a = (Ok r, a) /\
    rng <= r.
Proof.
  intros S H1 H2 H3 H4 Hmp Hr.
  pose proof S as (Hpm & Hpfm & Hrpm & Hrfm & Hrnp).
  exists (capacity pm pfm rpm rfm rnp (mpax a) rng).
  eexists. split; [|split].
  - apply max_capacity_spec; trivial. lra.
  - apply (max_range_spec a pm pfm rpm rfm rnp _ S).
  - set (mp := mpax a) in *.
    assert (F : forall p, mp * np_floor (p / mp) <= p).
    { intros p. pose proof (np_floor_below (p / mp)) as B.
      replace p with (mp * (p / mp)) at 2 by (field; lra).
      apply Rmult_le_compat_l; lra. }
    assert (K2 : 0 < (rfm - rpm)) by lra.
    assert (K3 : 0 < (rnp - rfm)) by lra.
    unfold capacity.
    destruct (Rle_dec rng rpm) as [L1|L1].
    { pose proof (F pm) as Fp. set (q := mp * np_floor (pm / mp)) in *.
      unfold range_at.
      destruct (Rlt_dec pm q); [lra|].
      destruct (Rlt_dec pfm q) as [Q|Q].
      - assert (0 <= (rfm - rpm) / (pm - pfm))
          by (apply Rmult_le_pos; [lra|left; apply Rinv_0_lt_compat; lra]).
        replace (rfm + (q - pfm) * (rpm - rfm) / (pm - pfm))
          with (rpm + (pm - q) * ((rfm - rpm) / (pm - pfm))) by (field; lra).
        nra.
      - assert (0 <= (rnp - rfm) / pfm)
          by (apply Rmult_le_pos; [lra|left; apply Rinv_0_lt_compat; lra]).
        replace (rnp + q * (rfm - rnp) / pfm)
          with (rfm + (pfm - q) * ((rnp - rfm) / pfm)) by (field; lra).
        nra. }
    destruct (Rle_dec rng rfm) as [L2|L2].
    { set (p := pfm + (pm - pfm) * (rng - rfm) / (rpm - rfm)).
      pose proof (F p) as Fp. set (q := mp * np_floor (p / mp)) in *.
      assert (Hp : p = pfm + (pm - pfm) * ((rfm - rng) / (rfm - rpm)))
        by (unfold p; field; lra).
      assert (U : 0 <= (rfm - rng) / (rfm - rpm) <= 1).
      { split.
        - apply Rmult_le_pos; [lra|left; apply Rinv_0_lt_compat; lra].
        - apply div_le_1; lra. }
      assert (Pp : p <= pm) by nra.
      unfold range_at.
      destruct (Rlt_dec pm q); [lra|].
      destruct (Rlt_dec pfm q) as [Q|Q].
      - assert (E : rng = rfm - (p - pfm) * ((rfm - rpm) / (pm - pfm))).
        { rewrite Hp. field. split; lra. }
        assert (0 <= (rfm - rpm) / (pm - pfm))
          by (apply Rmult_le_pos; [lra|left; apply Rinv_0_lt_compat; lra]).
        replace (rfm + (q - pfm) * (rpm - rfm) / (pm - pfm))
          with (rfm - (q - pfm) * ((rfm - rpm) / (pm - pfm))) by (field; lra).
        rewrite E at 1. nra.
      - assert (0 <= (rnp - rfm) / pfm)
          by (apply Rmult_le_pos; [lra|left; apply Rinv_0_lt_compat; lra]).
        replace (rnp + q * (rfm - rnp) / pfm)
          with (rfm + (pfm - q) * ((rnp - rfm) / pfm)) by (field; lra).
        nra. }
    destruct (Rle_dec rng rnp) as [L3|L3]; [|lra].
    set (p := pfm * (rng - rnp) / (rfm - rnp)).
    pose proof (F p) as Fp. set (q := mp * np_floor (p / mp)) in *.
    assert (Hp : p = pfm * ((rnp - rng) / (rnp - rfm)))
      by (unfold p; field; lra).
    assert (U : 0 <= (rnp - rng) / (rnp - rfm) < 1).
    { split.
      - apply Rmult_le_pos; [lra|left; apply Rinv_0_lt_compat; lra].
      - apply div_lt_1; lra. }
    assert (Pp : p < pfm) by nra.
    unfold range_at.
    destruct (Rlt_dec pm q); [lra|].
    destruct (Rlt_dec pfm q) as [Q|Q]; [lra|].
    assert (E : rng = rnp - p * ((rnp - rfm) / pfm)).
    { rewrite Hp. field. split; lra. }
    assert (0 <= (rnp - rfm) / pfm)
      by (apply Rmult_le_pos; [lra|left; apply Rinv_0_lt_compat; lra]).
    replace (rnp + q * (rfm - rnp) / pfm)
      with (rnp - q * ((rnp - rfm) / pfm)) by (field; lra).
    rewrite E at 1. nra.
Qed.

Lemma max_capacity_within_max_range_witness :
  exists capa r,
    max_capacity 5000000 ac_sized = (Ok capa, ac_sized) /\
    max_range capa ac_sized = (Ok r, ac_sized) /\
    5000000 <= r.
Proof.
  apply (max_capacity_within_max_range ac_sized 23400 7800 4300000 8600000
           9400000 5000000).
  - exact ac_sized_sized.
  - lra.
  - lra.
  - lra.
  - lra.
  - change (0 < 130). lra.
  - lra.
Defined.

End PlrFacts.

Module PlrFlags.
Import Pico PicoSpec Plr PlrSpec PlrFacts Examples.

Lemma is_in_plr_spec a pm pfm rpm rfm rnp n rng :
  sized a pm pfm rpm rfm rnp ->
  is_in_plr n rng a =
  (let '(c1, c2, c3, c4) := margins pm pfm rpm rfm rnp (n * mpax a) rng in
   Ok [("capa"%string, negb ((lt0 c1 || lt0 c2 || lt0 c3) && ge0 c4));
       ("dist"%string, negb (ge0 c1 && (lt0 c2 || lt0 c3 || lt0 c4)));
       ("both"%string, negb (lt0 c1 && lt0 c4))], a).
Proof.
  intros (Hpm & Hpfm & Hrpm & Hrfm & Hrnp).
  unfold is_in_plr, margins, bind, getf, gets, ret.
  rewrite Hpm, Hpfm, Hrpm, Hrfm, Hrnp. cbn [need]. cbv zeta.
  destruct ((lt0 _ || lt0 _ || lt0 _) && ge0 _);
  destruct (ge0 _ && (lt0 _ || lt0 _ || lt0 _));
  destruct (lt0 _ && lt0 _); reflexivity.
Qed.

Lemma lt0_true x : lt0 x = true <-> x < 0.
Proof. unfold lt0. destruct (Rlt_dec x 0); split; (lra || discriminate || trivial). Qed.

Lemma lt0_false x : lt0 x = false <-> 0 <= x.
Proof. unfold lt0. destruct (Rlt_dec x 0); split; (lra || discriminate || trivial). Qed.

Lemma ge0_true x : ge0 x = true <-> 0 <= x.
Proof. unfold ge0. destruct (Rge_dec x 0); split; (lra || discriminate || trivial). Qed.

Lemma ge0_false x : ge0 x = false <-> x < 0.
Proof. unfold ge0. destruct (Rge_dec x 0); split; (lra || discriminate || trivial). Qed.

Lemma ge0_lt0 x : ge0 x = negb (lt0 x).
Proof. unfold ge0, lt0. destruct (Rge_dec x 0), (Rlt_dec x 0); trivial; lra. Qed.

(** X9.  On an object with known corners, [is_in_plr] returns a dict with
    the three keys and leaves the object as it is; the three flags are all
    [True] exactly when the four margins (payload, take-off weight, fuel,
    range) are all non-negative. *)
Theorem is_in_plr_accepts_iff_margins a pm pfm rpm rfm rnp n rng :
  sized a pm pfm rpm rfm rnp ->
  exists capa dist both,
    is_in_plr n rng a =
      (Ok [("capa"%string, capa); ("dist"%string, dist); ("both"%string, both)], a) /\
    (capa = true /\ dist = true /\ both = true <->
     0 <= pm - n * mpax a /\
     0 <= (n * mpax a - pfm) * (rpm - rfm) - (pm - pfm) * (rng - rfm) /\
     0 <= n * mpax a * (rfm - rnp) - pm * (rng - rnp) /\
     0 <= rnp - rng).
Proof.
  intros S. rewrite (is_in_plr_spec a pm pfm rpm rfm rnp n rng S).
  unfold margins.
  set (c1 := pm - n * mpax a).
  set (c2 := (n * mpax a - pfm) * (rpm - rfm) - (pm - pfm) * (rng - rfm)).
  set (c3 := n * mpax a * (rfm - rnp) - pm * (rng - rnp)).
  set (c4 := rnp - rng).
  do 3 eexists. split; [reflexivity|].
  rewrite !ge0_lt0.
  rewrite <- (lt0_false c1), <- (lt0_false c2), <- (lt0_false c3), <- (lt0_false c4).
  destruct (lt0 c1), (lt0 c2), (lt0 c3), (lt0 c4); cbn; intuition congruence.
Qed.

Lemma is_in_plr_accepts_iff_margins_witness :
  exists capa dist both,
    is_in_plr 150 5000000 ac_sized =
      (Ok [("capa"%string, capa); ("dist"%string, dist); ("both"%string, both)],
       ac_sized) /\
    (capa = true /\ dist = true /\ both = true <->
     0 <= 23400 - 150 * mpax ac_sized /\
     0 <= (150 * mpax ac_sized - 7800) * (4300000 - 8600000)
          - (23400 - 7800) * (5000000 - 8600000) /\
     0 <= 150 * mpax ac_sized * (8600000 - 9400000)
          - 23400 * (5000000 - 9400000) /\
     0 <= 9400000 - 5000000).
Proof.
  apply (is_in_plr_accepts_iff_margins ac_sized 23400 7800 4300000 8600000
           9400000 150 5000000).
  exact ac_sized_sized.
Defined.

(** X10.  The flag "both" of [is_in_plr] is [False] exactly when the payload
    exceeds [payload_max] and the range exceeds [range_no_pl]; in that case
    the flags "capa" and "dist" stay [True], so a mission out of the diagram
    on both counts is reported under "both" only. *)
Theorem is_in_plr_both_flag a pm pfm rpm rfm rnp n rng :
  sized a pm pfm rpm rfm rnp ->
  exists capa dist both,
    is_in_plr n rng a =
      (Ok [("capa"%string, capa); ("dist"%string, dist); ("both"%string, both)], a) /\
    (both = false <-> pm < n * mpax a /\ rnp < rng) /\
    (both = false -> capa = true /\ dist = true).
Proof.
  intros S. rewrite (is_in_plr_spec a pm pfm rpm rfm rnp n rng S).
  unfold margins.
  set (c1 := pm - n * mpax a).
  set (c2 := (n * mpax a - pfm) * (rpm - rfm) - (pm - pfm) * (rng - rfm)).
  set (c3 := n * mpax a * (rfm - rnp) - pm * (rng - rnp)).
  set (c4 := rnp - rng).
  do 3 eexists. split; [reflexivity|].
  rewrite !ge0_lt0.
  assert (E1 : pm < n * mpax a <-> lt0 c1 = true)
    by (rewrite lt0_true; unfold c1; lra).
  assert (E4 : rnp < rng <-> lt0 c4 = true)
    by (rewrite lt0_true; unfold c4; lra).
  rewrite E1, E4.
  destruct (lt0 c1), (lt0 c2), (lt0 c3), (lt0 c4); cbn; intuition congruence.
Qed.

Lemma is_in_plr_both_flag_witness :
  exists capa dist both,
    is_in_plr 200 9500000 ac_sized =
      (Ok [("capa"%string, capa); ("dist"%string, dist); ("both"%string, both)],
       ac_sized) /\
    (both = false <-> 23400 < 200 * mpax ac_sized /\ 9400000 < 9500000) /\
    (both = false -> capa = true /\ dist = true).
Proof.
  apply (is_in_plr_both_flag ac_sized 23400 7800 4300000 8600000 9400000
           200 9500000).
  exact ac_sized_sized.
Defined.

(** X11.  For a payload above [payload_fuel_max], a mission that
    [is_in_plr] accepts (three flags [True]) has a range that [max_range]
    allows for its number of passengers. *)
Theorem is_in_plr_accepted_within_max_range a pm pfm rpm rfm rnp n rng d :
  sized a pm pfm rpm rfm rnp ->
  pfm < mpax a * n ->
  is_in_plr n rng a = (Ok d, a) ->
  dict_item d "capa" = Ok true -> dict_item d "dist" = Ok true ->
  dict_item d "both" = Ok true ->
  exists r, max_range n a = (Ok r, a) /\ rng <= r.
Proof.
  intros S Hp H Hc Hd Hb.
  rewrite (is_in_plr_spec a pm pfm rpm rfm rnp n rng S) in H.
  unfold margins in H.
  replace (n * mpax a) with (mpax a * n) in H by ring.
  set (p := mpax a * n) in *.
  set (c1 := pm - p) in *.
  set (c2 := (p - pfm) * (rpm - rfm) - (pm - pfm) * (rng - rfm)) in *.
  set (c3 := p * (rfm - rnp) - pm * (rng - rnp)) in *.
  set (c4 := rnp - rng) in *.
  injection H as <-.
  cbn in Hc, Hd, Hb.
  injection Hc as Hc. injection Hd as Hd. injection Hb as Hb.
  rewrite !ge0_lt0 in *.
  assert (L1 : lt0 c1 = false).
  { destruct (lt0 c1), (lt0 c2), (lt0 c3), (lt0 c4); cbn in *; congruence. }
  assert (L2 : lt0 c2 = false).
  { destruct (lt0 c1), (lt0 c2), (lt0 c3), (lt0 c4); cbn in *; congruence. }
  apply lt0_false in L1, L2. unfold c1 in L1. unfold c2 in L2.
  eexists. split; [apply (max_range_spec a pm pfm rpm rfm rnp n S)|].
  fold p. unfold range_at.
  destruct (Rlt_dec pm p); [lra|].
  destruct (Rlt_dec pfm p); [|lra].
  assert (K : 0 < pm - pfm) by lra.
  apply (Rmult_le_reg_r (pm - pfm)); [exact K|].
  replace ((rfm + (p - pfm) * (rpm - rfm) / (pm - pfm)) * (pm - pfm))
    with (rfm * (pm - pfm) + (p - pfm) * (rpm - rfm)) by (field; lra).
  lra.
Qed.

Lemma is_in_plr_accepted_within_max_range_witness :
  exists r, max_range 150 ac_sized = (Ok r, ac_sized) /\ 5000000 <= r.
Proof.
  apply (is_in_plr_accepted_within_max_range ac_sized 23400 7800 4300000
           8600000 9400000 150 5000000
           [("capa"%string, true); ("dist"%string, true); ("both"%string, true)]).
  - exact ac_sized_sized.
  - change (7800 < 130 * 150). lra.
  - rewrite (is_in_plr_spec ac_sized 23400 7800 4300000 8600000 9400000 150
               5000000 ac_sized_sized).
    unfold margins. change (mpax ac_sized) with 130.
    assert (A1 : lt0 (23400 - 150 * 130) = false) by (apply lt0_false; lra).
    assert (A2 : lt0 ((150 * 130 - 7800) * (4300000 - 8600000)
                      - (23400 - 7800) * (5000000 - 8600000)) = false)
      by (apply lt0_false; lra).
    assert (A3 : lt0 (150 * 130 * (8600000 - 9400000)
                      - 23400 * (5000000 - 9400000)) = false)
      by (apply lt0_false; lra).
    assert (A4 : lt0 (9400000 - 5000000) = false) by (apply lt0_false; lra).
    rewrite !ge0_lt0, A1, A2, A3, A4. reflexivity.
  - reflexivity.
  - reflexivity.
  - reflexivity.
Defined.

(** X12.  On an object whose payload-range corners were never computed
    ([payload_max] and [range_pl_max] still [None]) the three lookups
    [max_capacity], [max_range] and [is_in_plr] raise [TypeError] and leave
    the object as it is. *)
Theorem plr_lookups_need_corners a n rng :
  payload_max a = None -> range_pl_max a = None ->
  max_capacity rng a = (Raise TypeError, a) /\
  max_range n a = (Raise TypeError, a) /\
  is_in_plr n rng a = (Raise TypeError, a).
Proof.
  intros H1 H2.
  unfold max_capacity, max_range, is_in_plr, bind, getf, gets, ret.
  rewrite H1, H2. cbn [need]. repeat split.
Qed.

Lemma plr_lookups_need_corners_witness :
  max_capacity 5000000 ac_new = (Raise TypeError, ac_new) /\
  max_range 150 ac_new = (Raise TypeError, ac_new) /\
  is_in_plr 150 5000000 ac_new = (Raise TypeError, ac_new).
Proof.
  apply (plr_lookups_need_corners ac_new 150 5000000); reflexivity.
Defined.

End PlrFlags.

Module OperationFacts.
Import Pico PicoSpec PicoFacts PicoMethods PicoRuns Convergence PicoQueries.
Import PicoExamples PicoSolutions Examples MoreExamples.

(** A run of the solver against a method that assigns nothing. *)
Lemma run_read_only {S X Y : Type} (f : X -> M S Y) (p : strategy X Y) (s : S) :
  (forall x, snd (f x s) = s) ->
  run f p s = (answer (fun x => fst (f x s)) p, s).
Proof.
  intros Hf. induction p as [x ier|x k IH]; cbn [run answer]; [reflexivity|].
  specialize (Hf x) as Hx. destruct (f x s) as [[y|e] s']; cbn [fst snd] in *.
  - subst s'. apply IH.
  - subst s'. reflexivity.
Qed.

Lemma operation_fct_read_only conv n_pax rng a x :
  snd (operation_fct conv n_pax rng x a) = a.
Proof.
  rewrite operation_fct_spec.
  destruct (breguet a (fst x) (snd x)); [|reflexivity].
  destruct (owe a); reflexivity.
Qed.

(** The residual of [operation] as a function of the attributes. *)
Lemma operation_fct_value conv n_pax rng a x :
  fst (operation_fct conv n_pax rng x a) =
  match breguet a (fst x) (snd x) with
  | Raise e => Raise e
  | Ok range_eff =>
      match owe a with
      | None => Raise TypeError
      | Some o =>
          Ok (o - (fst x - (mpax a * n_pax + (1 + kr a) * snd x)),
              rng - range_eff)
      end
  end.
Proof.
  rewrite operation_fct_spec.
  destruct (breguet a (fst x) (snd x)); [|reflexivity].
  destruct (owe a); reflexivity.
Qed.

Lemma operation_pure conv fsolve n_pax rng a :
  operation conv fsolve n_pax rng a =
  match answer (fun x => fst (operation_fct conv n_pax rng x a)) (fsolve (guess a)) with
  | Ok (x, ier) =>
      if negb (ier =? 1)%Z
      then (Raise (Exception "Convergence problem"), a)
      else
        match cruise_speed a with
        | Some cs => (Ok (snd x, 20 * 60 + cs * rng, fst x), a)
        | None => (Raise TypeError, a)
        end
  | Raise e => (Raise e, a)
  end.
Proof.
  rewrite operation_unfold.
  rewrite run_read_only by (intros x; apply operation_fct_read_only).
  destruct (answer _ _) as [[x ier]|e]; reflexivity.
Qed.

Lemma operation_leaves_state conv fsolve (n_pax rng : R) (a : Aircraft) :
  snd (operation conv fsolve n_pax rng a) = a.
Proof.
  rewrite operation_pure.
  destruct (answer _ _) as [[x ier]|e]; [|reflexivity].
  destruct (negb (ier =? 1)%Z); [reflexivity|].
  destruct (cruise_speed a); reflexivity.
Qed.

(** X13.  [operation] never changes the aircraft: whatever the solver does
    and whether the call returns or raises, the object afterwards is the
    object before (unlike [design_aircraft], whose residual assigns the
    masses at every evaluation). *)
Theorem operation_leaves_aircraft_unchanged conv fsolve (n_pax rng : R) (a : Aircraft) :
  snd (operation conv fsolve n_pax rng a) = a.
Proof.
  rewrite operation_pure.
  destruct (answer _ _) as [[x ier]|e]; [|reflexivity].
  destruct (negb (ier =? 1)%Z); [reflexivity|].
  destruct (cruise_speed a); reflexivity.
Qed.

(** X14.  When [operation] returns [(mission_fuel, mission_time, tow)] and
    the root-finder honours its contract for the tolerance [tol], the
    returned weights close the operational balance within [tol]: the empty
    weight of the object equals [tow] minus payload ([mpax*n_pax]) and fuel
    with reserve, and the Breguet range of [(tow, mission_fuel)] equals the
    requested range; the returned time is [20*60 + cruise_speed*range]. *)
Theorem operation_balance_closure tol conv fsolve n_pax rng a fuel time tow a' :
  fsolve_contract tol fsolve ->
  operation conv fsolve n_pax rng a = (Ok (fuel, time, tow), a') ->
  exists o cs range_eff,
    owe a = Some o /\ cruise_speed a = Some cs /\
    breguet a tow fuel = Ok range_eff /\
    Rabs (o - (tow - (mpax a * n_pax + (1 + kr a) * fuel))) < tol /\
    Rabs (rng - range_eff) < tol /\
    time = 20 * 60 + cs * rng.
Proof.
  intros Hc H. rewrite operation_pure in H.
  destruct (answer _ _) as [[x ier]|e] eqn:Ha; [|discriminate].
  destruct (Z.eqb_spec ier 1) as [->|Hne]; cbn [negb] in H; [|discriminate].
  destruct (cruise_speed a) as [cs|] eqn:Hcs; [|discriminate].
  injection H as <- <- <- <-.
  destruct (Hc _ _ _ Ha) as (y & Hy & Hw1 & Hw2).
  rewrite operation_fct_value in Hy.
  destruct (breguet a (fst x) (snd x)) as [re|e] eqn:Hb; [|discriminate].
  destruct (owe a) as [o|] eqn:Ho; [|discriminate].
  injection Hy as <-. cbn [fst snd] in Hw1, Hw2.
  exists o, cs, re. repeat split; trivial.
Qed.

Lemma breguet_sized_value tow fm :
  breguet ac_sized tow fm = Ok (K_150 * ln (tow / (tow - fm))).
Proof.
  destruct atmosphere_35000ft as (p & Hatm).
  unfold breguet, range_factor.
  change (cruise_altp ac_sized) with (ft 35000). rewrite Hatm.
  reflexivity.
Qed.

Lemma operation_sized_returns :
  operation kg_daN_h (fsolve_checks 1e-6 (77000, 12800)) 150 range_sized ac_sized =
  (Ok (12800, 20 * 60 + 231 * range_sized, 77000), ac_sized).
Proof.
  rewrite operation_pure.
  unfold fsolve_checks. cbn [answer].
  rewrite !operation_fct_value, !breguet_sized_value.
  cbn [owe ac_sized fst snd mpax kr answer].
  replace (44060 - (77000 - (130 * 150 + (1 + 0.05) * 12800))) with 0 by lra.
  fold range_sized.
  replace (range_sized - range_sized) with 0 by lra.
  rewrite Rabs_R0.
  destruct (Rlt_dec 0 1e-6) as [_|N]; [|lra].
  cbn [answer Z.eqb Pos.eqb negb cruise_speed ac_sized fst snd]. reflexivity.
Qed.

Lemma operation_balance_closure_witness :
  exists o cs range_eff,
    owe ac_sized = Some o /\ cruise_speed ac_sized = Some cs /\
    breguet ac_sized 77000 12800 = Ok range_eff /\
    Rabs (o - (77000 - (mpax ac_sized * 150 + (1 + kr ac_sized) * 12800))) < 1e-6 /\
    Rabs (range_sized - range_eff) < 1e-6 /\
    20 * 60 + 231 * range_sized = 20 * 60 + cs * range_sized.
Proof.
  apply (operation_balance_closure 1e-6 kg_daN_h
           (fsolve_checks 1e-6 (77000, 12800)) 150 range_sized ac_sized
           12800 (20 * 60 + 231 * range_sized) 77000 ac_sized).
  - apply fsolve_checks_contract.
  - exact operation_sized_returns.
Defined.

(** X15.  On a sized aircraft (empty weight and cruise speed known) whose
    cruise altitude is below 50000 m, [operation] either returns or raises
    the generic "Convergence problem": the residual itself cannot raise,
    whatever the weights at which the solver evaluates it. *)
Theorem operation_only_convergence_failure conv fsolve n_pax rng a o cs e a' :
  owe a = Some o -> cruise_speed a = Some cs -> cruise_altp a < 50000 ->
  operation conv fsolve n_pax rng a = (Raise e, a') ->
  e = Exception "Convergence problem".
Proof.
  intros Ho Hcs Halt H. rewrite operation_pure in H.
  destruct (answer _ _) as [[x ier]|e0] eqn:Ha.
  - destruct (negb (ier =? 1)%Z).
    + now injection H as <- _.
    + rewrite Hcs in H. discriminate.
  - exfalso.
    apply answer_raises in Ha. destruct Ha as (x & Hx).
    rewrite operation_fct_value in Hx.
    destruct (breguet_Ok a (fst x) (snd x) Halt) as (v & Hv).
    rewrite Hv, Ho in Hx. discriminate.
Qed.

Lemma operation_gives_up_sized :
  operation kg_daN_h fsolve_gives_up 100 1000000 ac_sized =
  (Raise (Exception "Convergence problem"), ac_sized).
Proof.
  rewrite operation_pure. unfold fsolve_gives_up. cbn [answer].
  rewrite operation_fct_value.
  destruct (breguet_sized (fst (guess ac_sized)) (snd (guess ac_sized))) as (r & ->).
  reflexivity.
Qed.

Lemma operation_only_convergence_failure_witness :
  operation kg_daN_h fsolve_gives_up 100 1000000 ac_sized =
    (Raise (Exception "Convergence problem"), ac_sized) /\
  Exception "Convergence problem" = Exception "Convergence problem".
Proof.
  split; [exact operation_gives_up_sized|].
  apply (operation_only_convergence_failure kg_daN_h fsolve_gives_up 100
           1000000 ac_sized 44060 231 (Exception "Convergence problem") ac_sized).
  - reflexivity.
  - reflexivity.
  - exact ac_sized_below_ceiling.
  - exact operation_gives_up_sized.
Defined.

End OperationFacts.

Module NacelleThrottle.
Import Nacelle NacelleSpec NacelleFacts NacelleClaims NacelleDesign.
Import PicoRuns Examples MoreExamples NacelleExamples.

Section Facts.
Variable gas_data : R * R * R * R.
Variable sound_speed : R -> R.
Variable total_pressure : R -> R -> R.
Variable total_temperature : R -> R -> R.
Variable fsolve_1 : R -> strategy R R.
Variable fsolve_2 : R * R -> strategy (R * R) (R * R).

Local Abbreviation thrust_of :=
  (unitary_thrust gas_data sound_speed total_pressure total_temperature fsolve_1).
Local Abbreviation sc_of :=
  (unitary_sc gas_data sound_speed total_pressure total_temperature fsolve_2).
Local Abbreviation sc_2_of :=
  (unitary_sc_2 gas_data sound_speed total_pressure total_temperature fsolve_1).
Local Abbreviation fct_sc_of :=
  (unitary_sc_2_fct gas_data sound_speed total_pressure total_temperature fsolve_1).

Lemma dict_get_raises d k e : dict_get d k = Raise e -> e = KeyError k.
Proof.
  induction d as [|[k' v] t IH]; cbn.
  - now intros [= <-].
  - destruct (String.eqb k' k); [discriminate|exact IH].
Qed.

(** The dict returned by [unitary_thrust]. *)
Lemma unitary_thrust_returns self pamb tamb mach rating throttle off d :
  thrust_of self pamb tamb mach rating throttle off = Ok d ->
  exists fn pw, d = [("fn"%string, fn); ("pw"%string, pw)].
Proof.
  rewrite unitary_thrust_unfold.
  destruct (dict_get (rating_factor self) rating) as [rf|e]; [|discriminate].
  destruct (fan_width self) as [fw|]; [|discriminate].
  cbv zeta.
  destruct (answer _ _) as [[q ier]|e]; [|discriminate].
  destruct (negb (ier =? 1)%Z); [discriminate|].
  intros [= <-]. do 2 eexists. reflexivity.
Qed.

Lemma unitary_thrust_raises self pamb tamb mach rating throttle off e :
  thrust_of self pamb tamb mach rating throttle off = Raise e ->
  e = KeyError rating \/ e = TypeError \/ e = Exception "Convergence problem".
Proof.
  rewrite unitary_thrust_unfold.
  destruct (dict_get (rating_factor self) rating) as [rf|e0] eqn:Hrf.
  2:{ intros [= <-]. left. now apply dict_get_raises in Hrf. }
  destruct (fan_width self) as [fw|].
  2:{ intros [= <-]. right. now left. }
  cbv zeta.
  destruct (answer _ _) as [[q ier]|e0] eqn:Ha.
  - destruct (negb (ier =? 1)%Z); [|discriminate].
    intros [= <-]. right. now right.
  - intros [= <-]. apply answer_raises in Ha. destruct Ha as (q & Hq).
    rewrite unitary_thrust_fct_spec in Hq.
    destruct (nozzle_area self); [discriminate|].
    injection Hq as <-. right. now left.
Qed.

Lemma unitary_sc_raises self pamb tamb mach rating thrust off e :
  sc_of self pamb tamb mach rating thrust off = Raise e ->
  e = KeyError rating \/ e = TypeError \/ e = Exception "Convergence problem".
Proof.
  rewrite unitary_sc_unfold.
  destruct (fan_width self) as [fw|].
  2:{ intros [= <-]. right. now left. }
  destruct (dict_get (rating_factor self) rating) as [rf|e0] eqn:Hrf.
  2:{ intros [= <-]. left. now apply dict_get_raises in Hrf. }
  cbv zeta.
  destruct (answer _ _) as [[q ier]|e0] eqn:Ha.
  - destruct (negb (ier =? 1)%Z); [|discriminate].
    intros [= <-]. right. now right.
  - intros [= <-]. apply answer_raises in Ha. destruct Ha as (q & Hq).
    rewrite unitary_sc_fct_spec in Hq.
    destruct (nozzle_area self); [discriminate|].
    injection Hq as <-. right. now left.
Qed.

Lemma unitary_sc_2_fct_value self pamb tamb mach rating thrust off thtl :
  fct_sc_of self pamb tamb mach rating thrust off thtl =
  match thrust_of self pamb tamb mach rating thtl off with
  | Ok d =>
      match d with
      | [(_, fn); _] => Ok (thrust - fn)
      | _ => Raise TypeError
      end
  | Raise e => Raise e
  end.
Proof.
  unfold unitary_sc_2_fct, obind.
  destruct (thrust_of self pamb tamb mach rating thtl off) as [d|e] eqn:H;
    [|reflexivity].
  destruct (unitary_thrust_returns _ _ _ _ _ _ _ _ H) as (fn & pw & ->).
  reflexivity.
Qed.

Lemma unitary_sc_2_unfold self pamb tamb mach rating thrust off :
  sc_2_of self pamb tamb mach rating thrust off =
  match answer (fct_sc_of self pamb tamb mach rating thrust off) (fsolve_1 0.95) with
  | Raise e => Raise e
  | Ok (thtl, ier) =>
      if negb (ier =? 1)%Z then Raise (Exception "Convergence problem")
      else
        match thrust_of self pamb tamb mach rating thtl off with
        | Ok d =>
            match d with
            | [(_, fn); (_, pw)] =>
                Ok [("sec"%string, pw / fn); ("pw"%string, pw);
                    ("thtl"%string, thtl)]
            | _ => Raise TypeError
            end
        | Raise e => Raise e
        end
  end.
Proof.
  unfold unitary_sc_2, obind.
  destruct (answer _ _) as [[thtl ier]|e]; [|reflexivity].
  destruct (negb (ier =? 1)%Z); [reflexivity|].
  destruct (thrust_of self pamb tamb mach rating thtl off) as [d|e] eqn:H;
    [|reflexivity].
  destruct (unitary_thrust_returns _ _ _ _ _ _ _ _ H) as (fn & pw & ->).
  reflexivity.
Qed.

Lemma unitary_sc_2_raises self pamb tamb mach rating thrust off e :
  sc_2_of self pamb tamb mach rating thrust off = Raise e ->
  e = KeyError rating \/ e = TypeError \/ e = Exception "Convergence problem".
Proof.
  rewrite unitary_sc_2_unfold.
  destruct (answer _ _) as [[thtl ier]|e0] eqn:Ha.
  - destruct (negb (ier =? 1)%Z).
    { intros [= <-]. right. now right. }
    destruct (thrust_of self pamb tamb mach rating thtl off) as [d|e1] eqn:H.
    + destruct (unitary_thrust_returns _ _ _ _ _ _ _ _ H) as (fn & pw & ->).
      discriminate.
    + intros [= <-]. exact (unitary_thrust_raises _ _ _ _ _ _ _ _ H).
  - intros [= <-]. apply answer_raises in Ha. destruct Ha as (thtl & Hq).
    rewrite unitary_sc_2_fct_value in Hq.
    destruct (thrust_of self pamb tamb mach rating thtl off) as [d|e1] eqn:H.
    + destruct (unitary_thrust_returns _ _ _ _ _ _ _ _ H) as (fn & pw & ->).
      discriminate.
    + injection Hq as <-. exact (unitary_thrust_raises _ _ _ _ _ _ _ _ H).
Qed.

(** X16.  The three performance methods of the electric-fan nacelle,
    [unitary_thrust], [unitary_sc] and [unitary_sc_2], raise nothing but
    [KeyError] for a rating that is not in [rating_factor], [TypeError] when
    the geometry ([fan_width], [nozzle_area]) is still [None], and the
    generic "Convergence problem". *)
Theorem ef_nacelle_exceptions self pamb tamb mach rating x off e :
  unitary_thrust gas_data sound_speed total_pressure total_temperature
    fsolve_1 self pamb tamb mach rating x off = Raise e \/
  unitary_sc gas_data sound_speed total_pressure total_temperature
    fsolve_2 self pamb tamb mach rating x off = Raise e \/
  unitary_sc_2 gas_data sound_speed total_pressure total_temperature
    fsolve_1 self pamb tamb mach rating x off = Raise e ->
  e = KeyError rating \/ e = TypeError \/ e = Exception "Convergence problem".
Proof.
  intros [H|[H|H]].
  - exact (unitary_thrust_raises _ _ _ _ _ _ _ _ H).
  - exact (unitary_sc_raises _ _ _ _ _ _ _ _ H).
  - exact (unitary_sc_2_raises _ _ _ _ _ _ _ _ H).
Qed.

(** X17.  [unitary_sc_2] finds the throttle by an outer solve around
    [unitary_thrust].  When it returns and the root-finder honours its
    contract for the tolerance [tol], [unitary_thrust] at the returned
    throttle returns a thrust that matches the requested one within [tol];
    the returned power is the one of that call and the returned specific
    consumption is that power over that thrust. *)
Theorem unitary_sc_2_thrust_matching tol self pamb tamb mach rating thrust off d :
  fsolve_contract_1 tol fsolve_1 ->
  unitary_sc_2 gas_data sound_speed total_pressure total_temperature
    fsolve_1 self pamb tamb mach rating thrust off = Ok d ->
  exists thtl fn pw,
    unitary_thrust gas_data sound_speed total_pressure total_temperature
      fsolve_1 self pamb tamb mach rating thtl off =
      Ok [("fn"%string, fn); ("pw"%string, pw)] /\
    Rabs (thrust - fn) < tol /\
    d = [("sec"%string, pw / fn); ("pw"%string, pw); ("thtl"%string, thtl)].
Proof.
  intros Hc. rewrite unitary_sc_2_unfold.
  destruct (answer _ _) as [[thtl ier]|e] eqn:Ha; [|discriminate].
  destruct (Z.eqb_spec ier 1) as [->|Hne]; cbn [negb]; [|discriminate].
  destruct (Hc _ _ _ Ha) as (y & Hy & Htol).
  rewrite unitary_sc_2_fct_value in Hy.
  destruct (thrust_of self pamb tamb mach rating thtl off) as [d0|e] eqn:H;
    [|discriminate].
  destruct (unitary_thrust_returns _ _ _ _ _ _ _ _ H) as (fn & pw & ->).
  injection Hy as <-. intros [= <-].
  exists thtl, fn, pw. split; [exact H|split; [exact Htol|reflexivity]].
Qed.

End Facts.

Lemma ef_nacelle_exceptions_witness :
  KeyError "TOGA" = KeyError "TOGA" \/ KeyError "TOGA" = TypeError \/
  KeyError "TOGA" = Exception "Convergence problem".
Proof.
  apply (ef_nacelle_exceptions gas_air sound_speed_air total_pressure_air
           total_temperature_air fsolve_gives_up fsolve_gives_up nacelle_150
           101325 288.15 0.25 "TOGA" 1 0 (KeyError "TOGA")).
  left. reflexivity.
Defined.

Lemma fsolve_accepts_contract tol : fsolve_contract_1 tol (fsolve_accepts tol).
Proof.
  intros F x0 x H. unfold fsolve_accepts in H. cbn [answer] in H.
  destruct (F x0) as [y|e] eqn:Hy; [|discriminate].
  destruct (Rlt_dec (Rabs y) tol) as [H1|H1]; [|discriminate].
  cbn [answer] in H. injection H as <-.
  exists y. split; assumption.
Qed.

Lemma answer_accepts (F : R -> outcome R) tol x0 y :
  F x0 = Ok y -> Rabs y < tol ->
  answer F (fsolve_accepts tol x0) = Ok (x0, 1%Z).
Proof.
  intros HF Hy. unfold fsolve_accepts. cbn [answer]. rewrite HF.
  destruct (Rlt_dec (Rabs y) tol); [reflexivity|contradiction].
Qed.

Lemma q_guess_pos : 0 < q_guess.
Proof.
  unfold q_guess, flow_guess.
  apply Rmult_lt_0_compat.
  - apply corrected_air_flow_pos.
    + unfold total_pressure_air. apply Rmult_lt_0_compat; [lra|apply Rpower_pos].
    + unfold total_temperature_air. lra.
    + lra.
  - pose proof PI_RGT_0. nra.
Qed.

Lemma Pw_95_pos : 0 < Pw_95.
Proof.
  unfold Pw_95, shaft_power. cbn [reference_power motor_efficiency
    controller_efficiency nacelle_150]. lra.
Qed.

(** [unitary_thrust] at 95% throttle on the nacelle sized for the initial
    guess of the flow. *)
Lemma unitary_thrust_guess :
  unitary_thrust gas_air sound_speed_air total_pressure_air
    total_temperature_air (fsolve_accepts 1e-6) nacelle_guess
    101325 303.15 0.25 "MTO" 0.95 0 =
  Ok [("fn"%string, thrust_95); ("pw"%string, 0.95 * Pw_95)].
Proof.
  rewrite unitary_thrust_unfold. unfold nacelle_guess.
  change (dict_get (rating_factor (nacelle_sized q_guess Pw_95)) "MTO")
    with (Ok 1.00).
  cbn [fan_width nacelle_sized]. cbv zeta.
  change (shaft_power (nacelle_sized q_guess Pw_95) 1.00 0.95 0) with Pw_95.
  change (total_temperature_air 303.15 0.25) with Ttot_to.
  change (0.25 * sound_speed_air 303.15) with Vair_to.
  fold q_guess.
  unfold fsolve_accepts. cbn [answer].
  rewrite unitary_thrust_fct_spec. cbn [nozzle_area efficiency_fan nacelle_sized].
  rewrite sized_residual_zero by (exact q_guess_pos || exact Pw_95_pos).
  rewrite Rabs_R0. destruct (Rlt_dec 0 1e-6) as [_|N]; [|lra].
  cbn [answer Z.eqb Pos.eqb negb]. reflexivity.
Qed.

Lemma unitary_sc_2_guess :
  unitary_sc_2 gas_air sound_speed_air total_pressure_air
    total_temperature_air (fsolve_accepts 1e-6) nacelle_guess
    101325 303.15 0.25 "MTO" thrust_95 0 =
  Ok [("sec"%string, 0.95 * Pw_95 / thrust_95); ("pw"%string, 0.95 * Pw_95);
      ("thtl"%string, 0.95)].
Proof.
  rewrite unitary_sc_2_unfold.
  rewrite (answer_accepts _ 1e-6 0.95 0).
  - cbn [Z.eqb Pos.eqb negb]. rewrite unitary_thrust_guess. reflexivity.
  - rewrite unitary_sc_2_fct_value, unitary_thrust_guess. f_equal. lra.
  - rewrite Rabs_R0. lra.
Qed.

Lemma unitary_sc_2_thrust_matching_witness :
  exists thtl fn pw,
    unitary_thrust gas_air sound_speed_air total_pressure_air
      total_temperature_air (fsolve_accepts 1e-6) nacelle_guess
      101325 303.15 0.25 "MTO" thtl 0 =
      Ok [("fn"%string, fn); ("pw"%string, pw)] /\
    Rabs (thrust_95 - fn) < 1e-6 /\
    [("sec"%string, 0.95 * Pw_95 / thrust_95); ("pw"%string, 0.95 * Pw_95);
     ("thtl"%string, 0.95)] =
    [("sec"%string, pw / fn); ("pw"%string, pw); ("thtl"%string, thtl)].
Proof.
  apply (unitary_sc_2_thrust_matching gas_air sound_speed_air total_pressure_air
           total_temperature_air (fsolve_accepts 1e-6) 1e-6 nacelle_guess
           101325 303.15 0.25 "MTO" thrust_95 0).
  - apply fsolve_accepts_contract.
  - exact unitary_sc_2_guess.
Defined.

End NacelleThrottle.

Module NacelleSizing.
Import Nacelle NacelleSpec NacelleFacts NacelleDesign NacelleDesignSpec.
Import Examples MoreExamples NacelleExamples.

Section Facts.
Variable gas_data : R * R * R * R.
Variable sound_speed : R -> R.
Variable total_pressure : R -> R -> R.
Variable total_temperature : R -> R -> R.

Local Abbreviation design_of :=
  (efan_nacelle_design gas_data sound_speed total_pressure total_temperature).

(** The object after [efan_nacelle_design]. *)
Lemma efan_nacelle_design_unfold Pamb Tamb Mach shaft_power self r gam Cp Cv :
  gas_data = (r, gam, Cp, Cv) ->
  efficiency_prop self <> 0 ->
  let Vair := Mach * sound_speed Tamb in
  let Vjet := design_jet_velocity self Vair in
  let q1 := design_flow self Vair shaft_power in
  let Ttot := total_temperature Tamb Mach in
  let CQoA1 := corrected_air_flow gas_data (total_pressure Pamb Mach) Ttot 0.5 in
  let fw := sqrt (hub_width self ^ 2 + 4 * (q1 / CQoA1) / PI) in
  let TtotJet := Ttot + shaft_power / (q1 * Cp) in
  let MachJet := Vjet / sqrt (gam * r * (TtotJet - 0.5 * Vjet ^ 2 / Cp)) in
  let CQoA2 := corrected_air_flow gas_data (total_pressure Pamb MachJet)
                 TtotJet MachJet in
  let na := q1 / CQoA2 in
  design_of Pamb Tamb Mach shaft_power self =
  (Ok tt,
   {| propulsion :=
        {| reference_power := reference_power (propulsion self);
           rating_factor := rating_factor (propulsion self);
           efficiency_fan := efficiency_fan (propulsion self);
           motor_efficiency := motor_efficiency (propulsion self);
           controller_efficiency := controller_efficiency (propulsion self);
           fan_width := Some fw;
           nozzle_area := Some na |};
      n_engine := n_engine self;
      efficiency_prop := efficiency_prop self;
      hub_width := hub_width self;
      nozzle_width := Some (sqrt (4 * na / PI));
      width := Some (1.20 * fw);
      length := Some (1.50 * (1.20 * fw));
      gross_wet_area := PI * (1.20 * fw) * (1.50 * (1.20 * fw)) * n_engine self;
      net_wet_area := PI * (1.20 * fw) * (1.50 * (1.20 * fw)) * n_engine self |}).
Proof.
  intros Hg Hp. cbv zeta.
  unfold efan_nacelle_design, design_flow, design_jet_velocity, Pico.pydiv.
  rewrite Hg.
  destruct (Req_dec_T (efficiency_prop self) 0) as [E|_]; [contradiction|].
  reflexivity.
Qed.

Lemma efan_nacelle_design_Ok Pamb Tamb Mach shaft_power self self' :
  design_of Pamb Tamb Mach shaft_power self = (Ok tt, self') ->
  efficiency_prop self <> 0.
Proof.
  unfold efan_nacelle_design, Pico.pydiv.
  destruct gas_data as [[[r gam] Cp] Cv].
  destruct (Req_dec_T (efficiency_prop self) 0) as [E|N]; [discriminate|].
  intros _. exact N.
Qed.

Lemma efan_design_nozzle Pamb Tamb Mach shaft_power self self' r gam Cp Cv :
  gas_data = (r, gam, Cp, Cv) ->
  design_of Pamb Tamb Mach shaft_power self = (Ok tt, self') ->
  let Vair := Mach * sound_speed Tamb in
  let Vjet := design_jet_velocity self Vair in
  let q1 := design_flow self Vair shaft_power in
  let TtotJet := total_temperature Tamb Mach + shaft_power / (q1 * Cp) in
  let MachJet := Vjet / sqrt (gam * r * (TtotJet - 0.5 * Vjet ^ 2 / Cp)) in
  nozzle_area (propulsion self') =
    Some (q1 / corrected_air_flow gas_data (total_pressure Pamb MachJet)
                 TtotJet MachJet) /\
  efficiency_fan (propulsion self') = efficiency_fan (propulsion self).
Proof.
  intros Hg H.
  pose proof (efan_nacelle_design_Ok _ _ _ _ _ _ H) as Hp.
  rewrite (efan_nacelle_design_unfold Pamb Tamb Mach shaft_power self r gam Cp Cv Hg Hp) in H.
  cbv zeta in H. injection H as <-. split; reflexivity.
Qed.

(** X18.  The nozzle that [efan_nacelle_design] sizes is consistent with the
    off-design model: for a sound speed [sqrt(gam*r*T)], a design jet
    velocity that is not negative and a design flow and corrected flow that
    are not zero, the continuity residual that [unitary_thrust] solves
    vanishes at the design flow for the design shaft power and the design
    conditions. *)
Theorem efan_design_point_is_root Pamb Tamb Mach shaft_power self self' r gam Cp Cv :
  gas_data = (r, gam, Cp, Cv) ->
  (forall T, sound_speed T = sqrt (gam * r * T)) ->
  0 <= design_jet_velocity self (Mach * sound_speed Tamb) ->
  design_flow self (Mach * sound_speed Tamb) shaft_power <> 0 ->
  nozzle_flow_per_area gas_data sound_speed total_pressure
    (efficiency_fan (propulsion self)) shaft_power Pamb
    (total_temperature Tamb Mach) (Mach * sound_speed Tamb)
    (design_flow self (Mach * sound_speed Tamb) shaft_power) <> 0 ->
  efan_nacelle_design gas_data sound_speed total_pressure
    total_temperature Pamb Tamb Mach shaft_power self = (Ok tt, self') ->
  unitary_thrust_fct gas_data sound_speed total_pressure (propulsion self')
    (design_flow self (Mach * sound_speed Tamb) shaft_power) shaft_power Pamb
    (total_temperature Tamb Mach) (Mach * sound_speed Tamb) = Ok 0.
Proof.
  intros Hg Hs HV Hq Hn H.
  destruct (efan_design_nozzle _ _ _ _ _ _ _ _ _ _ Hg H) as (Hna & Heff).
  cbv zeta in Hna.
  rewrite unitary_thrust_fct_spec, Hna, Heff.
  set (Vair := Mach * sound_speed Tamb) in *.
  set (q1 := design_flow self Vair shaft_power) in *.
  set (Vd := design_jet_velocity self Vair) in *.
  assert (HD : Vd ^ 2 - Vair ^ 2 <> 0).
  { intros E. apply Hq. unfold q1, design_flow. fold Vd. rewrite E.
    unfold Rdiv. rewrite Rinv_0. ring. }
  assert (HJ : jet_velocity (efficiency_fan (propulsion self)) shaft_power q1 Vair = Vd).
  { unfold jet_velocity.
    replace (2 * efficiency_fan (propulsion self) * shaft_power / q1 + Vair ^ 2)
      with (Vd ^ 2).
    - replace (Vd ^ 2) with (Vd * Vd) by ring. apply sqrt_square. exact HV.
    - assert (E : q1 * (Vd ^ 2 - Vair ^ 2)
                  = 2 * efficiency_fan (propulsion self) * shaft_power).
      { unfold q1 at 1, design_flow. fold Vd. field. exact HD. }
      rewrite <- E. field. exact Hq. }
  unfold continuity_residual.
  assert (HC : corrected_air_flow gas_data
                 (total_pressure Pamb
                    (Vd / sqrt (gam * r *
                       (total_temperature Tamb Mach + shaft_power / (q1 * Cp)
                        - 0.5 * Vd ^ 2 / Cp))))
                 (total_temperature Tamb Mach + shaft_power / (q1 * Cp))
                 (Vd / sqrt (gam * r *
                       (total_temperature Tamb Mach + shaft_power / (q1 * Cp)
                        - 0.5 * Vd ^ 2 / Cp)))
               = nozzle_flow_per_area gas_data sound_speed total_pressure
                   (efficiency_fan (propulsion self)) shaft_power Pamb
                   (total_temperature Tamb Mach) Vair q1).
  { unfold nozzle_flow_per_area. rewrite Hg, HJ, Hs. reflexivity. }
  rewrite HC.
  set (n := nozzle_flow_per_area _ _ _ _ _ _ _ _ _) in *.
  f_equal. field. exact Hn.
Qed.

(** X19.  [efan_nacelle_design] assigns a geometry that is consistent with
    the areas it computes: the annulus between the hub and the fan diameter
    has the fan area (design flow over the corrected flow per unit area at
    Mach 0.5), the disc of the nozzle diameter has the nozzle area, the
    nacelle is 1.2 fan diameters wide and 1.5 widths long, and both wetted
    areas are [pi*width*length*n_engine]; the attributes read by the thrust
    model other than the two sizes are kept. *)
Theorem efan_design_geometry Pamb Tamb Mach shaft_power self self' r gam Cp Cv :
  gas_data = (r, gam, Cp, Cv) ->
  efan_nacelle_design gas_data sound_speed total_pressure
    total_temperature Pamb Tamb Mach shaft_power self = (Ok tt, self') ->
  exists fw na nw,
    fan_width (propulsion self') = Some fw /\
    nozzle_area (propulsion self') = Some na /\
    nozzle_width self' = Some nw /\
    width self' = Some (1.20 * fw) /\
    length self' = Some (1.50 * (1.20 * fw)) /\
    gross_wet_area self' = PI * (1.20 * fw) * (1.50 * (1.20 * fw)) * n_engine self /\
    net_wet_area self' = gross_wet_area self' /\
    (0 <= na -> 0.25 * PI * nw ^ 2 = na) /\
    (let eFanArea :=
       design_flow self (Mach * sound_speed Tamb) shaft_power
       / corrected_air_flow gas_data (total_pressure Pamb Mach)
           (total_temperature Tamb Mach) 0.5 in
     0 <= eFanArea -> 0.25 * PI * (fw ^ 2 - hub_width self ^ 2) = eFanArea) /\
    reference_power (propulsion self') = reference_power (propulsion self) /\
    rating_factor (propulsion self') = rating_factor (propulsion self) /\
    efficiency_fan (propulsion self') = efficiency_fan (propulsion self) /\
    hub_width self' = hub_width self /\ n_engine self' = n_engine self.
Proof.
  intros Hg H.
  pose proof (efan_nacelle_design_Ok _ _ _ _ _ _ H) as Hp.
  rewrite (efan_nacelle_design_unfold Pamb Tamb Mach shaft_power self r gam Cp Cv Hg Hp) in H.
  cbv zeta in H. injection H as <-.
  do 3 eexists.
  split; [reflexivity|]. split; [reflexivity|]. split; [reflexivity|].
  split; [reflexivity|]. split; [reflexivity|]. split; [reflexivity|].
  split; [reflexivity|].
  pose proof PI_RGT_0 as Hpi.
  split; [|split; [|repeat split]].
  - intros Hna.
    match goal with |- context [sqrt ?x] => set (y := x) end.
    assert (Hy : 0 <= y).
    { unfold y. apply Rmult_le_pos; [nra|left; apply Rinv_0_lt_compat; exact Hpi]. }
    replace (sqrt y ^ 2) with (sqrt y * sqrt y) by ring.
    rewrite sqrt_sqrt by exact Hy. unfold y, Rdiv.
    match goal with |- ?L = ?a =>
      replace L with (a * (PI * / PI)) by lra
    end.
    rewrite Rinv_r by lra. ring.
  - cbv zeta. intros Ha.
    match goal with |- context [sqrt ?x] => set (y := x) end.
    assert (Hy : 0 <= y).
    { unfold y.
      assert (0 <= 4 * (design_flow self (Mach * sound_speed Tamb) shaft_power
                 / corrected_air_flow gas_data (total_pressure Pamb Mach)
                     (total_temperature Tamb Mach) 0.5) / PI).
      { apply Rmult_le_pos; [nra|left; apply Rinv_0_lt_compat; exact Hpi]. }
      nra. }
    replace (sqrt y ^ 2) with (sqrt y * sqrt y) by ring.
    rewrite sqrt_sqrt by exact Hy. unfold y.
    match goal with |- ?L = ?a =>
      replace L with (a * (PI * / PI)) by (unfold Rdiv; lra)
    end.
    rewrite Rinv_r by lra. ring.
Qed.

End Facts.

Lemma Vair_to_pos : 0 < Vair_to.
Proof.
  unfold Vair_to, sound_speed_air.
  apply Rmult_lt_0_compat; [lra|]. apply sqrt_lt_R0. lra.
Qed.

Lemma design_jet_velocity_150 :
  design_jet_velocity ef_nacelle_150 Vair_to = Vair_to * (2 * (0.95 / 0.82) - 1).
Proof.
  unfold design_jet_velocity.
  cbn [propulsion efficiency_fan efficiency_prop ef_nacelle_150 nacelle_150].
  ring.
Qed.

Lemma design_flow_150_pos : 0 < design_flow ef_nacelle_150 Vair_to Pw_to.
Proof.
  unfold design_flow. rewrite design_jet_velocity_150.
  cbn [propulsion efficiency_fan ef_nacelle_150 nacelle_150].
  pose proof Vair_to_pos as HV. pose proof Pw_to_pos as HP.
  apply Rdiv_lt_0_compat; [lra|].
  assert (K : 1 < 2 * (0.95 / 0.82) - 1) by lra.
  set (k := 2 * (0.95 / 0.82) - 1) in *.
  replace ((Vair_to * k) ^ 2 - Vair_to ^ 2)
    with (Vair_to * Vair_to * ((k - 1) * (k + 1))) by ring.
  apply Rmult_lt_0_compat; [nra|]. apply Rmult_lt_0_compat; lra.
Qed.

Lemma efan_design_150 :
  efan_nacelle_design gas_air sound_speed_air total_pressure_air
    total_temperature_air 101325 303.15 0.25 Pw_to ef_nacelle_150 =
  (Ok tt,
   snd (efan_nacelle_design gas_air sound_speed_air total_pressure_air
          total_temperature_air 101325 303.15 0.25 Pw_to ef_nacelle_150)).
Proof.
  rewrite (efan_nacelle_design_unfold gas_air sound_speed_air
             total_pressure_air total_temperature_air 101325 303.15 0.25 Pw_to
             ef_nacelle_150 287.053 1.4 (1.4 * (287.053 / 0.4)) (287.053 / 0.4)
             eq_refl).
  - reflexivity.
  - change (0.82 <> 0). lra.
Qed.

Lemma efan_design_point_is_root_witness :
  unitary_thrust_fct gas_air sound_speed_air total_pressure_air
    (propulsion
       (snd (efan_nacelle_design gas_air sound_speed_air total_pressure_air
               total_temperature_air 101325 303.15 0.25 Pw_to ef_nacelle_150)))
    (design_flow ef_nacelle_150 (0.25 * sound_speed_air 303.15) Pw_to) Pw_to
    101325 (total_temperature_air 303.15 0.25) (0.25 * sound_speed_air 303.15)
  = Ok 0.
Proof.
  apply (efan_design_point_is_root gas_air sound_speed_air total_pressure_air
           total_temperature_air 101325 303.15 0.25 Pw_to ef_nacelle_150 _
           287.053 1.4 (1.4 * (287.053 / 0.4)) (287.053 / 0.4)).
  - reflexivity.
  - reflexivity.
  - change (0.25 * sound_speed_air 303.15) with Vair_to.
    rewrite design_jet_velocity_150. pose proof Vair_to_pos. nra.
  - change (0.25 * sound_speed_air 303.15) with Vair_to.
    pose proof design_flow_150_pos. lra.
  - change (0.25 * sound_speed_air 303.15) with Vair_to.
    change (total_temperature_air 303.15 0.25) with Ttot_to.
    change (efficiency_fan (propulsion ef_nacelle_150)) with 0.95.
    pose proof (nozzle_flow_per_area_pos _ Pw_to design_flow_150_pos Pw_to_pos).
    lra.
  - exact efan_design_150.
Defined.

Lemma efan_design_geometry_witness :
  let self' :=
    snd (efan_nacelle_design gas_air sound_speed_air total_pressure_air
           total_temperature_air 101325 303.15 0.25 Pw_to ef_nacelle_150) in
  exists fw na nw,
    fan_width (propulsion self') = Some fw /\
    nozzle_area (propulsion self') = Some na /\
    nozzle_width self' = Some nw /\
    width self' = Some (1.20 * fw) /\
    length self' = Some (1.50 * (1.20 * fw)) /\
    gross_wet_area self' =
      PI * (1.20 * fw) * (1.50 * (1.20 * fw)) * n_engine ef_nacelle_150 /\
    net_wet_area self' = gross_wet_area self' /\
    (0 <= na -> 0.25 * PI * nw ^ 2 = na) /\
    (let eFanArea :=
       design_flow ef_nacelle_150 (0.25 * sound_speed_air 303.15) Pw_to
       / corrected_air_flow gas_air (total_pressure_air 101325 0.25)
           (total_temperature_air 303.15 0.25) 0.5 in
     0 <= eFanArea -> 0.25 * PI * (fw ^ 2 - hub_width ef_nacelle_150 ^ 2) = eFanArea) /\
    reference_power (propulsion self') = reference_power (propulsion ef_nacelle_150) /\
    rating_factor (propulsion self') = rating_factor (propulsion ef_nacelle_150) /\
    efficiency_fan (propulsion self') = efficiency_fan (propulsion ef_nacelle_150) /\
    hub_width self' = hub_width ef_nacelle_150 /\
    n_engine self' = n_engine ef_nacelle_150.
Proof.
  intros self'.
  apply (efan_design_geometry gas_air sound_speed_air total_pressure_air
           total_temperature_air 101325 303.15 0.25 Pw_to ef_nacelle_150 self'
           287.053 1.4 (1.4 * (287.053 / 0.4)) (287.053 / 0.4)).
  - reflexivity.
  - exact efan_design_150.
Defined.

End NacelleSizing.

Module TurbofanFacts.
Import Plr Turbofan TurbofanSpec Examples MoreExamples.

Section Facts.
Variable air_density : R -> R -> R * R.
Variable sound_speed : R -> R.
Variable earth_atmosphere : R -> R -> R * R * R * R.
Variable locate_nacelle : Semi_empiric_tf_nacelle -> list (option R).

Local Abbreviation thrust_of := (unitary_thrust air_density sound_speed).
Local Abbreviation sc_of := (unitary_sc air_density sound_speed).
Local Abbreviation eval_geometry_of :=
  (eval_geometry air_density sound_speed earth_atmosphere locate_nacelle).

(** The dict of [unitary_thrust]: the power off-take costs the thrust
    [pw_offtake*efficiency_prop/vair] and no fuel. *)
Lemma unitary_thrust_value self pamb tamb mach rating throttle off :
  mach * sound_speed tamb <> 0 -> efficiency_prop self <> 0 ->
  0 < engine_bpr self ->
  thrust_of self pamb tamb mach rating throttle off =
  match dict_item (rating_factor self) rating with
  | Raise e => Raise e
  | Ok rf =>
      let T0 := nominal_thrust self mach rf throttle
                  (snd (air_density pamb tamb)) in
      Ok [("fn"%string,
           Some (T0 - off * efficiency_prop self / (mach * sound_speed tamb)));
          ("ff"%string, Some (sfc_ref self * T0));
          ("t4"%string, None)]
  end.
Proof.
  intros Hv He Hb. unfold unitary_thrust, nominal_thrust, sfc_ref, obind.
  destruct (air_density pamb tamb) as [rho sig]. cbn [snd].
  destruct (dict_item (rating_factor self) rating) as [rf|e]; [|reflexivity].
  unfold Pico.pydiv, pypow.
  destruct (Req_dec_T (engine_bpr self) 0) as [E|_]; [lra|].
  destruct (Req_dec_T (Rpower (engine_bpr self) 0.895) 0) as [E|_].
  { exfalso. unfold Rpower in E. pose proof (exp_pos (0.895 * ln (engine_bpr self))). lra. }
  cbv zeta. do 4 f_equal. set (v := mach * sound_speed tamb) in *.
  match goal with
  | |- (?K * _ * v / _ - _) / v * _ + _ = _ => generalize K; intros T0
  end.
  unfold Rdiv.
  replace ((T0 * (1 - core_thrust_ratio self) * v * / efficiency_prop self - off)
           * / v * efficiency_prop self)
    with (T0 * (1 - core_thrust_ratio self)
          * (v * / v) * (efficiency_prop self * / efficiency_prop self)
          - off * efficiency_prop self * / v) by ring.
  rewrite !Rinv_r by assumption. ring.
Qed.

(** At a density ratio of zero [sig**0.75] is zero, and so is the nominal
    thrust. *)
Lemma nominal_thrust_zero_density self mach rf throttle :
  nominal_thrust self mach rf throttle 0 = 0.
Proof.
  unfold nominal_thrust, pypow.
  destruct (Req_dec_T 0 0) as [_|E]; [ring|contradiction].
Qed.

(** X20.  In the turbofan model a power off-take lowers the thrust of
    [unitary_thrust] by [pw_offtake*efficiency_prop/vair] and leaves the fuel
    flow as it is, for an air speed and a propulsive efficiency that are not
    zero, a positive by-pass ratio and a density ratio [sig] that is not
    negative; without off-take the thrust is the nominal thrust
    [reference_thrust*tune_factor*kth*rating_factor*throttle*sig**0.75],
    which is zero for a density ratio of zero. *)
Theorem tf_offtake_costs_thrust self pamb tamb mach rating throttle off d0 :
  mach * sound_speed tamb <> 0 -> efficiency_prop self <> 0 ->
  0 < engine_bpr self ->
  0 <= snd (air_density pamb tamb) ->
  unitary_thrust air_density sound_speed self pamb tamb mach rating throttle 0
    = Ok d0 ->
  exists rf fn ff,
    dict_item (rating_factor self) rating = Ok rf /\
    fn = nominal_thrust self mach rf throttle (snd (air_density pamb tamb)) /\
    (snd (air_density pamb tamb) = 0 -> fn = 0) /\
    d0 = [("fn"%string, Some fn); ("ff"%string, Some ff); ("t4"%string, None)] /\
    unitary_thrust air_density sound_speed self pamb tamb mach rating throttle
      off =
      Ok [("fn"%string,
           Some (fn - off * efficiency_prop self / (mach * sound_speed tamb)));
          ("ff"%string, Some ff); ("t4"%string, None)].
Proof.
  intros Hv He Hb Hsig.
  rewrite !unitary_thrust_value by assumption.
  destruct (dict_item (rating_factor self) rating) as [rf|e]; [|discriminate].
  cbv zeta. intros [= <-].
  exists rf. do 2 eexists. split; [reflexivity|]. split; [reflexivity|].
  split; [intros ->; apply nominal_thrust_zero_density|].
  split; [|reflexivity].
  do 4 f_equal. unfold Rdiv. ring.
Qed.

Lemma nominal_thrust_throttle self mach rf throttle sig :
  nominal_thrust self mach rf throttle sig =
  throttle * nominal_thrust self mach rf 1 sig.
Proof. unfold nominal_thrust. ring. Qed.

(** X21.  Without power off-take the turbofan [unitary_sc] inverts
    [unitary_thrust] (air speed and propulsive efficiency not zero,
    positive by-pass ratio, density ratio not negative): when the thrust [fn1] at full throttle is not
    zero, it returns the throttle [thrust/fn1] and the specific consumption
    [ff1/fn1], and [unitary_thrust] at that throttle returns the requested
    thrust with the fuel flow [sfc*thrust]. *)
Theorem tf_unitary_sc_round_trip self pamb tamb mach rating thrust fn1 ff1 :
  mach * sound_speed tamb <> 0 -> efficiency_prop self <> 0 ->
  0 < engine_bpr self ->
  0 <= snd (air_density pamb tamb) ->
  unitary_thrust air_density sound_speed self pamb tamb mach rating 1 0 =
    Ok [("fn"%string, Some fn1); ("ff"%string, Some ff1); ("t4"%string, None)] ->
  fn1 <> 0 ->
  unitary_sc air_density sound_speed self pamb tamb mach rating thrust 0 =
    Ok [("sfc"%string, Some (ff1 / fn1)); ("thtl"%string, Some (thrust / fn1));
        ("t4"%string, None)] /\
  unitary_thrust air_density sound_speed self pamb tamb mach rating
    (thrust / fn1) 0 =
    Ok [("fn"%string, Some thrust); ("ff"%string, Some (ff1 / fn1 * thrust));
        ("t4"%string, None)].
Proof.
  intros Hv He Hb Hsig H1 Hfn. split.
  - unfold unitary_sc. rewrite H1. reflexivity.
  - rewrite unitary_thrust_value in H1 |- * by assumption.
    destruct (dict_item (rating_factor self) rating) as [rf|e]; [|discriminate].
    cbv zeta in *. injection H1 as E1 E2.
    rewrite nominal_thrust_throttle.
    set (T1 := nominal_thrust self mach rf 1 (snd (air_density pamb tamb))) in *.
    assert (F : fn1 = T1) by (rewrite <- E1; unfold Rdiv; ring).
    clear E1. subst fn1. rewrite <- E2.
    assert (Hs : sound_speed tamb <> 0) by (intros E; apply Hv; rewrite E; ring).
    assert (Hm : mach <> 0) by (intros E; apply Hv; rewrite E; ring).
    match goal with
    | |- Ok [(_, Some ?a); (_, Some ?b); _] = Ok [(_, Some ?a'); (_, Some ?b'); _] =>
        replace a with a'; [replace b with b'; [reflexivity|]|]
    end.
    + field. exact Hfn.
    + field. repeat split; assumption.
Qed.

Lemma tune_factor_thrust self v mach rf throttle sig :
  nominal_thrust (set_tune_factor v self) mach rf throttle sig =
  v * nominal_thrust (set_tune_factor 1 self) mach rf throttle sig.
Proof. unfold nominal_thrust. cbn. ring. Qed.

(** The attributes of the thrust model after [eval_geometry]. *)
Lemma eval_geometry_state self self' pamb tamb tstd dtodz fn1 ff1 :
  earth_atmosphere 0 15 = (pamb, tamb, tstd, dtodz) ->
  thrust_of (set_tune_factor 1 self) pamb tamb 0.25 "MTO" 1 0 =
    Ok [("fn"%string, Some fn1); ("ff"%string, Some ff1); ("t4"%string, None)] ->
  eval_geometry_of self = (Ok tt, self') ->
  tune_factor self' = reference_thrust self / (fn1 / 0.80) /\
  reference_thrust self' = reference_thrust self /\
  engine_bpr self' = engine_bpr self /\
  rating_factor self' = rating_factor self /\
  efficiency_prop self' = efficiency_prop self /\
  form_factor self' = 1.15 /\
  (exists l, length self' = Some l /\ aero_length self' = l) /\
  net_wet_area self' = gross_wet_area self'.
Proof.
  intros Ha H1 H.
  unfold eval_geometry in H. cbv zeta in H. rewrite Ha in H.
  unfold bind, modify, gets, lift, ret in H.
  rewrite H1 in H. cbn [obind dict_item String.eqb Ascii.eqb Bool.eqb number] in H.
  injection H as <-.
  repeat split. eexists. split; reflexivity.
Qed.

(** X22.  [eval_geometry] tunes the turbofan thrust model to the
    definition of the reference thrust (air speed and propulsive efficiency
    not zero, positive by-pass ratio, density ratio not negative): when the thrust computed with a
    tuning factor of 1 at Mach 0.25, sea level, ISA+15 and rating "MTO" is
    [fn1], not zero, the call assigns [tune_factor = reference_thrust /
    (fn1/0.80)], keeps [reference_thrust], and afterwards [unitary_thrust] in
    these conditions returns 0.80 times the reference thrust. *)
Theorem tf_eval_geometry_calibrates self self' pamb tamb tstd dtodz fn1 ff1 :
  earth_atmosphere 0 15 = (pamb, tamb, tstd, dtodz) ->
  0.25 * sound_speed tamb <> 0 -> efficiency_prop self <> 0 ->
  0 < engine_bpr self ->
  0 <= snd (air_density pamb tamb) ->
  unitary_thrust air_density sound_speed (set_tune_factor 1 self) pamb tamb
    0.25 "MTO" 1 0 =
    Ok [("fn"%string, Some fn1); ("ff"%string, Some ff1); ("t4"%string, None)] ->
  fn1 <> 0 ->
  eval_geometry air_density sound_speed earth_atmosphere locate_nacelle self
    = (Ok tt, self') ->
  tune_factor self' = reference_thrust self / (fn1 / 0.80) /\
  reference_thrust self' = reference_thrust self /\
  exists ff,
    unitary_thrust air_density sound_speed self' pamb tamb 0.25 "MTO" 1 0 =
      Ok [("fn"%string, Some (0.80 * reference_thrust self));
          ("ff"%string, Some ff); ("t4"%string, None)].
Proof.
  intros Ha Hv He Hb Hsig H1 Hfn H.
  destruct (eval_geometry_state _ _ _ _ _ _ _ _ Ha H1 H)
    as (Et & Er & Eb & Ef & Ep & _).
  split; [exact Et|]. split; [exact Er|].
  assert (He' : efficiency_prop self' <> 0) by (rewrite Ep; exact He).
  assert (Hb' : 0 < engine_bpr self') by (rewrite Eb; exact Hb).
  rewrite unitary_thrust_value in H1 by assumption.
  rewrite unitary_thrust_value by assumption.
  rewrite Ef. change (rating_factor (set_tune_factor 1 self)) with (rating_factor self) in H1.
  destruct (dict_item (rating_factor self) "MTO") as [rf|e]; [|discriminate].
  cbv zeta in *. injection H1 as E1 E2.
  set (sig := snd (air_density pamb tamb)) in *.
  assert (N : nominal_thrust self' 0.25 rf 1 sig =
              tune_factor self' * nominal_thrust (set_tune_factor 1 self) 0.25 rf 1 sig).
  { unfold nominal_thrust. rewrite Er, Eb.
    change (reference_thrust (set_tune_factor 1 self)) with (reference_thrust self).
    change (engine_bpr (set_tune_factor 1 self)) with (engine_bpr self).
    change (tune_factor (set_tune_factor 1 self)) with 1.
    ring. }
  set (T1 := nominal_thrust (set_tune_factor 1 self) 0.25 rf 1 sig) in *.
  assert (F : fn1 = T1) by (rewrite <- E1; unfold Rdiv; ring).
  clear E1. subst fn1.
  assert (I : T1 * / T1 = 1) by (apply Rinv_r; exact Hfn).
  eexists.
  match goal with
  | |- Ok [(_, Some ?a); _; _] = Ok [(_, Some ?a'); _; _] =>
      replace a with a'; [reflexivity|]
  end.
  rewrite N, Et. unfold Rdiv. rewrite Rinv_mult, Rinv_inv.
  replace (reference_thrust self * (/ T1 * 0.80) * T1
           - 0 * efficiency_prop self' * / (0.25 * sound_speed tamb))
    with (0.80 * reference_thrust self * (T1 * / T1)) by ring.
  rewrite I. ring.
Qed.

Lemma eval_geometry_returns self rf :
  dict_item (rating_factor self) "MTO" = Ok rf ->
  0 < engine_bpr self ->
  eval_geometry_of self = (Ok tt, snd (eval_geometry_of self)).
Proof.
  intros Hrf Hb. unfold eval_geometry. cbv zeta.
  destruct (earth_atmosphere 0 15) as [[[pamb tamb] tstd] dtodz].
  unfold bind, modify, gets, lift, ret, unitary_thrust.
  destruct (air_density pamb tamb) as [rho sig].
  change (rating_factor (set_tune_factor 1 self)) with (rating_factor self).
  change (engine_bpr (set_tune_factor 1 self)) with (engine_bpr self).
  rewrite Hrf. unfold obind, Pico.pydiv, pypow.
  destruct (Req_dec_T (engine_bpr self) 0) as [E|_]; [lra|].
  destruct (Req_dec_T (Rpower (engine_bpr self) 0.895) 0) as [E|_].
  { exfalso. unfold Rpower in E. pose proof (exp_pos (0.895 * ln (engine_bpr self))). lra. }
  reflexivity.
Qed.

End Facts.

Lemma sound_speed_air_nonzero T : 0 < T -> 0.25 * sound_speed_air T <> 0.
Proof.
  intros HT. unfold sound_speed_air.
  assert (0 < sqrt (1.4 * 287.053 * T)) by (apply sqrt_lt_R0; lra).
  lra.
Qed.

(** The by-pass ratio that [__init__] takes from [__turbofan_bpr__] is
    positive. *)
Lemma turbofan_bpr_pos n : 0 < turbofan_bpr n.
Proof. unfold turbofan_bpr. destruct (Rlt_dec 80 n); lra. Qed.

Lemma tf_efficiency_150 : efficiency_prop tf_nacelle_150 <> 0.
Proof. change (0.82 <> 0). lra. Qed.

Lemma tf_bpr_150 : 0 < engine_bpr tf_nacelle_150.
Proof. change (0 < 9). lra. Qed.

Lemma tf_thrust_150 tamb throttle off :
  0 < tamb ->
  unitary_thrust air_density_air sound_speed_air tf_nacelle_150 101325 tamb
    0.25 "MTO" throttle off =
  Ok [("fn"%string,
       Some (nominal_thrust tf_nacelle_150 0.25 1.00 throttle
               (snd (air_density_air 101325 tamb))
             - off * efficiency_prop tf_nacelle_150
               / (0.25 * sound_speed_air tamb)));
      ("ff"%string,
       Some (sfc_ref tf_nacelle_150
             * nominal_thrust tf_nacelle_150 0.25 1.00 throttle
                 (snd (air_density_air 101325 tamb))));
      ("t4"%string, None)].
Proof.
  intros HT.
  rewrite unitary_thrust_value
    by (apply sound_speed_air_nonzero, HT || exact tf_efficiency_150
        || exact tf_bpr_150).
  reflexivity.
Qed.

Lemma air_density_air_pos T : 0 < T -> 0 < snd (air_density_air 101325 T).
Proof.
  intros HT. unfold air_density_air. cbn [snd].
  apply Rdiv_lt_0_compat; [|lra].
  apply Rdiv_lt_0_compat; lra.
Qed.

Lemma nominal_thrust_150_pos sig :
  0 < sig -> 0 < nominal_thrust tf_nacelle_150 0.25 1.00 1 sig.
Proof.
  intros Hsig. unfold nominal_thrust.
  cbn [reference_thrust tune_factor engine_bpr tf_nacelle_150].
  apply Rmult_lt_0_compat;
    [|unfold pypow; destruct (Req_dec_T sig 0); [lra|unfold Rpower; apply exp_pos]].
  assert (K : 0 < 0.475 * 0.25 ^ 2 + 0.091 * (9 / 10) ^ 2
                  - 0.283 * 0.25 * 9 / 10 - 0.633 * 0.25 - 0.081 * 9 / 10 + 1.192)
    by lra.
  set (k := 0.475 * 0.25 ^ 2 + 0.091 * (9 / 10) ^ 2
            - 0.283 * 0.25 * 9 / 10 - 0.633 * 0.25 - 0.081 * 9 / 10 + 1.192) in *.
  assert (Rt : 0 < (1e5 + 177 * 150 * (3000 * 1852) * 1e-6) / 2) by lra.
  set (rt := (1e5 + 177 * 150 * (3000 * 1852) * 1e-6) / 2) in *.
  nra.
Qed.

Lemma tf_offtake_costs_thrust_witness :
  exists rf fn ff,
    dict_item (rating_factor tf_nacelle_150) "MTO" = Ok rf /\
    fn = nominal_thrust tf_nacelle_150 0.25 rf 1
           (snd (air_density_air 101325 303.15)) /\
    (snd (air_density_air 101325 303.15) = 0 -> fn = 0) /\
    [("fn"%string,
       Some (nominal_thrust tf_nacelle_150 0.25 1.00 1
               (snd (air_density_air 101325 303.15))
             - 0 * efficiency_prop tf_nacelle_150
               / (0.25 * sound_speed_air 303.15)));
      ("ff"%string,
       Some (sfc_ref tf_nacelle_150
             * nominal_thrust tf_nacelle_150 0.25 1.00 1
                 (snd (air_density_air 101325 303.15))));
      ("t4"%string, None)] =
    [("fn"%string, Some fn); ("ff"%string, Some ff); ("t4"%string, None)] /\
    unitary_thrust air_density_air sound_speed_air tf_nacelle_150 101325 303.15
      0.25 "MTO" 1 50000 =
      Ok [("fn"%string,
           Some (fn - 50000 * efficiency_prop tf_nacelle_150
                      / (0.25 * sound_speed_air 303.15)));
          ("ff"%string, Some ff); ("t4"%string, None)].
Proof.
  apply (tf_offtake_costs_thrust air_density_air sound_speed_air tf_nacelle_150
           101325 303.15 0.25 "MTO" 1 50000).
  - apply sound_speed_air_nonzero. lra.
  - exact tf_efficiency_150.
  - exact tf_bpr_150.
  - apply Rlt_le, air_density_air_pos. lra.
  - apply tf_thrust_150. lra.
Defined.

Lemma tf_unitary_sc_round_trip_witness :
  let fn1 := nominal_thrust tf_nacelle_150 0.25 1.00 1
               (snd (air_density_air 101325 303.15))
             - 0 * efficiency_prop tf_nacelle_150
               / (0.25 * sound_speed_air 303.15) in
  let ff1 := sfc_ref tf_nacelle_150
             * nominal_thrust tf_nacelle_150 0.25 1.00 1
                 (snd (air_density_air 101325 303.15)) in
  unitary_sc air_density_air sound_speed_air tf_nacelle_150 101325 303.15 0.25
    "MTO" 30000 0 =
    Ok [("sfc"%string, Some (ff1 / fn1)); ("thtl"%string, Some (30000 / fn1));
        ("t4"%string, None)] /\
  unitary_thrust air_density_air sound_speed_air tf_nacelle_150 101325 303.15
    0.25 "MTO" (30000 / fn1) 0 =
    Ok [("fn"%string, Some 30000); ("ff"%string, Some (ff1 / fn1 * 30000));
        ("t4"%string, None)].
Proof.
  intros fn1 ff1.
  apply (tf_unitary_sc_round_trip air_density_air sound_speed_air
           tf_nacelle_150 101325 303.15 0.25 "MTO" 30000 fn1 ff1).
  - apply sound_speed_air_nonzero. lra.
  - exact tf_efficiency_150.
  - exact tf_bpr_150.
  - apply Rlt_le, air_density_air_pos. lra.
  - apply tf_thrust_150. lra.
  - unfold fn1.
    pose proof (nominal_thrust_150_pos (snd (air_density_air 101325 303.15))
                  (air_density_air_pos 303.15 ltac:(lra))).
    unfold Rdiv. lra.
Defined.

Lemma tf_eval_geometry_calibrates_witness :
  let self' :=
    snd (eval_geometry air_density_air sound_speed_air atmosphere_sea_level
           locate_origin tf_nacelle_150) in
  let fn1 := nominal_thrust tf_nacelle_150 0.25 1.00 1
               (snd (air_density_air 101325 (288.15 + 15)))
             - 0 * efficiency_prop tf_nacelle_150
               / (0.25 * sound_speed_air (288.15 + 15)) in
  tune_factor self' = reference_thrust tf_nacelle_150 / (fn1 / 0.80) /\
  reference_thrust self' = reference_thrust tf_nacelle_150 /\
  exists ff,
    unitary_thrust air_density_air sound_speed_air self' 101325 (288.15 + 15)
      0.25 "MTO" 1 0 =
      Ok [("fn"%string, Some (0.80 * reference_thrust tf_nacelle_150));
          ("ff"%string, Some ff); ("t4"%string, None)].
Proof.
  intros self' fn1.
  apply (tf_eval_geometry_calibrates air_density_air sound_speed_air
           atmosphere_sea_level locate_origin tf_nacelle_150 self'
           101325 (288.15 + 15) 288.15 (-0.0065) fn1
           (sfc_ref tf_nacelle_150
            * nominal_thrust tf_nacelle_150 0.25 1.00 1
                (snd (air_density_air 101325 (288.15 + 15))))).
  - reflexivity.
  - apply sound_speed_air_nonzero. lra.
  - exact tf_efficiency_150.
  - exact tf_bpr_150.
  - apply Rlt_le, air_density_air_pos. lra.
  - exact (tf_thrust_150 (288.15 + 15) 1 0 ltac:(lra)).
  - unfold fn1.
    pose proof (nominal_thrust_150_pos (snd (air_density_air 101325 (288.15 + 15)))
                  (air_density_air_pos (288.15 + 15) ltac:(lra))).
    unfold Rdiv. lra.
  - exact (eval_geometry_returns air_density_air sound_speed_air
             atmosphere_sea_level locate_origin tf_nacelle_150 1.00 eq_refl
             tf_bpr_150).
Defined.

End TurbofanFacts.

Module DesignFacts.
Import Pico PicoSpec PicoFacts PicoMethods PicoRuns PicoDesign PicoEnvelope.
Import PicoClaims PicoExamples Convergence PicoSolutions Examples.

(** What the setup of [design_aircraft] leaves of the attributes read by the
    residual, and when it raises. *)
Lemma design_setup_facts conv coef kr_ mpax_ effr a o a1 :
  design_setup conv coef kr_ mpax_ effr a = (o, a1) ->
  owe_coef a1 = match coef with Some c => c | None => owe_coef a end /\
  cruise_altp a1 = cruise_altp a /\
  (forall e, o = Raise e -> effr = None /\ sfc a = 0).
Proof.
  rewrite design_setup_spec. cbv zeta. unfold with_overrides, override.
  destruct effr as [ef|].
  - intros [= <- <-]. destruct coef, kr_, mpax_; cbn; repeat split; discriminate.
  - unfold pydiv.
    match goal with |- context [Req_dec_T ?s 0] =>
      replace s with (sfc a) by (destruct coef, kr_, mpax_; reflexivity)
    end.
    destruct (Req_dec_T (sfc a) 0) as [E|N]; intros [= <- <-];
      destruct coef, kr_, mpax_; cbn; repeat split; trivial; discriminate.
Qed.

(** X23.  On an object whose structural coefficients are three (those of
    [coef] when given), whose cruise altitude is below 50000 m and whose
    [sfc] is not zero when [effr] is omitted, a call of [design_aircraft]
    that raises can only raise the generic "Convergence problem": neither
    the residual nor the computation of the payload-range corners can
    fail. *)
Theorem design_aircraft_only_convergence_failure
    conv fsolve coef kr_ mpax_ effr a c0 c1 c2 e a2 :
  match coef with Some c => c | None => owe_coef a end = [c0; c1; c2] ->
  cruise_altp a < 50000 ->
  (effr = None -> sfc a <> 0) ->
  design_aircraft conv fsolve coef kr_ mpax_ effr a = (Raise e, a2) ->
  e = Exception "Convergence problem".
Proof.
  intros Hc Ha Hs H. rewrite design_aircraft_unfold in H.
  destruct (design_setup conv coef kr_ mpax_ effr a) as [[Xini|e0] a1] eqn:Hset.
  - destruct (design_setup_facts _ _ _ _ _ _ _ _ Hset) as (Ec & Ea & _).
    rewrite Hc in Ec. rewrite <- Ea in Ha.
    rewrite (run_eval_design conv (fsolve Xini) a1 a1 eq_refl) in H.
    destruct (answer (residual a1) (fsolve Xini)) as [[x ier]|e0] eqn:Hans.
    + destruct (negb (ier =? 1)%Z).
      * now injection H as <- _.
      * exfalso.
        set (a3 := after_run a1 a1 (fsolve Xini)) in *.
        pose proof (frame_after_run (fsolve Xini) a1 a1 eq_refl) as Hf.
        fold a3 in Hf. apply frame_fields in Hf.
        destruct Hf as (F1 & _ & _ & _ & _ & _ & _ & _ & _ & _ & _ & _ & _ & _ & _ & F16).
        assert (Hc3 : owe_coef a3 = [c0; c1; c2]) by (rewrite F16; exact Ec).
        assert (Ha3 : cruise_altp a3 < 50000) by (rewrite F1; exact Ha).
        destruct (residual_total a3 x c0 c1 c2 Hc3 Ha3) as (y & Hy).
        destruct (residual_Ok a3 x y Hy) as (s & pamb & tamb & vsnd & g & Hsv & Hatm & _).
        rewrite (design_envelope_spec conv a3 x pamb tamb vsnd g s Hsv Hatm) in H.
        discriminate.
    + exfalso. apply answer_raises in Hans. destruct Hans as (x & Hx).
      destruct (residual_total a1 x c0 c1 c2 Ec Ha) as (y & Hy).
      rewrite Hy in Hx. discriminate.
  - exfalso.
    destruct (design_setup_facts _ _ _ _ _ _ _ _ Hset) as (_ & _ & Hr).
    destruct (Hr e0 eq_refl) as (He & Hz). exact (Hs He Hz).
Qed.

Lemma design_aircraft_only_convergence_failure_witness :
  design_aircraft kg_daN_h fsolve_gives_up None None None None ac_sized =
    (Raise (Exception "Convergence problem"),
     design_point (set_eff_ratio (l_o_d (npax ac_sized) / sfc ac_sized) ac_sized)
                  (guess ac_sized)) /\
  Exception "Convergence problem" = Exception "Convergence problem".
Proof.
  split; [exact design_gives_up_sized|].
  apply (design_aircraft_only_convergence_failure kg_daN_h fsolve_gives_up
           None None None None ac_sized (-1.478e-07) 5.459e-01 8.40e+02
           (Exception "Convergence problem")
           (design_point (set_eff_ratio (l_o_d (npax ac_sized) / sfc ac_sized)
                            ac_sized) (guess ac_sized))).
  - reflexivity.
  - exact ac_sized_below_ceiling.
  - intros _. exact sfc_example_nonzero.
  - exact design_gives_up_sized.
Defined.

Lemma params_corners a x vsnd g : params (corners a x vsnd g) = params a.
Proof. destruct a, x. norm_fields. reflexivity. Qed.

Lemma masses_corners a x vsnd g :
  mtow (corners a x vsnd g) = Some (fst x) /\
  fuel_mission (corners a x vsnd g) = Some (snd x) /\
  owe (corners a x vsnd g) =
    Some (fst x - npax a * mpax a - snd x - kr a * snd x) /\
  ldw (corners a x vsnd g) = Some (fst x - snd x).
Proof. destruct a, x. norm_fields. repeat split. Qed.

(** X24.  The two solves agree: after a successful [design_aircraft], with
    a root-finder that honours its contract for the tolerance [tol], the
    residual of [operation] for the design mission ([npax] passengers over
    [range]) at the sized weights [(mtow, fuel_mission)] has a mass
    component that is exactly zero and a range component within [tol]; the
    evaluation does not change the object. *)
Theorem design_point_solves_operation tol conv fsolve coef kr_ mpax_ effr a a' :
  fsolve_contract tol fsolve ->
  design_aircraft conv fsolve coef kr_ mpax_ effr a = (Ok tt, a') ->
  exists m fm d,
    mtow a' = Some m /\ fuel_mission a' = Some fm /\
    operation_fct conv (npax a') (range a') (m, fm) a' = (Ok (0, d), a') /\
    Rabs d < tol.
Proof.
  intros Hc Hd.
  destruct (design_aircraft_Ok _ _ _ _ _ _ _ _ Hd)
    as (Xini & a1 & x & y0 & pamb & tamb & vsnd & Hs & Hans & Hres & Hatm & -> & Hp).
  destruct (Hc (residual a1) Xini x Hans) as (y & Hy & Hw1 & Hw2).
  set (a2 := after_run a1 a1 (fsolve Xini)) in *.
  set (a' := corners a2 x vsnd g_const) in *.
  assert (Hp' : params a' = params a2) by apply params_corners.
  assert (Hres' : residual a' x = Ok y).
  { rewrite <- Hy. apply residual_params. now rewrite Hp'. }
  destruct (residual_Ok a' x y Hres')
    as (s & pamb' & tamb' & vsnd' & g' & Hsv & Hatm' & Hyeq).
  destruct (masses_corners a2 x vsnd g_const) as (M1 & M2 & M3 & _).
  fold a' in M1, M2, M3.
  assert (P : npax a' = npax a2 /\ mpax a' = mpax a2 /\ kr a' = kr a2).
  { unfold a'. generalize a2. intros b. destruct b, x. norm_fields. repeat split. }
  destruct P as (P4 & P5 & P6).
  exists (fst x), (snd x),
    (range a' - (cruise_mach a' * vsnd' * eff_ratio a') / g'
                * ln (fst x / (fst x - snd x))).
  split; [exact M1|]. split; [exact M2|]. split.
  - rewrite operation_fct_spec. cbn [fst snd].
    unfold breguet, range_factor. rewrite Hatm'. cbn [obind].
    rewrite M3, P4, P5, P6. do 3 f_equal. ring.
  - rewrite Hyeq in Hw2. exact Hw2.
Qed.

Lemma design_point_solves_operation_witness :
  exists a' m fm d,
    design_aircraft kg_daN_h (fsolve_checks 1e-6 xs_long)
      None None None None ac_long = (Ok tt, a') /\
    mtow a' = Some m /\ fuel_mission a' = Some fm /\
    operation_fct kg_daN_h (npax a') (range a') (m, fm) a' = (Ok (0, d), a') /\
    Rabs d < 1e-6.
Proof.
  pose proof (design_root 77000) as Hd.
  destruct (design_point_solves_operation 1e-6 kg_daN_h
              (fsolve_checks 1e-6 xs_long) None None None None ac_long _
              (fsolve_checks_contract 1e-6 xs_long) Hd)
    as (m & fm & d & H1 & H2 & H3 & H4).
  eexists. exists m, fm, d. split; [exact Hd|]. repeat split; assumption.
Defined.

End DesignFacts.

Module FleetFacts.
Import Pico PicoSpec PicoFacts PicoMethods PicoRuns Convergence PicoSolutions.
Import OperationFacts Examples MoreExamples FleetModel FleetSpec FleetExamples.

(** The accumulator [l] after [l[i] += v]. *)
Local Abbreviation bump l i v := (replace_nth l i (nth i l 0 + v)).

Lemma replace_nth_length l i v : List.length (replace_nth l i v) = List.length l.
Proof.
  revert i. induction l as [|h t IH]; intros [|i]; cbn; trivial.
  now rewrite IH.
Qed.

Lemma nth_replace_nth l i v : (i < List.length l)%nat -> nth i (replace_nth l i v) 0 = v.
Proof.
  revert i. induction l as [|h t IH]; intros [|i] H; cbn in *; try lia; trivial.
  apply IH. lia.
Qed.

Lemma idx_nth l i : (i < List.length l)%nat -> idx l i = Ok (nth i l 0).
Proof.
  intros H. unfold idx. rewrite (nth_error_nth' l 0 H). reflexivity.
Qed.

Lemma set_nth_same {A : Type} (l : list A) i a :
  nth_error l i = Some a -> set_nth l i a = l.
Proof.
  revert i. induction l as [|h t IH]; intros [|i]; cbn; trivial.
  - now intros [= ->].
  - intros H. now rewrite IH.
Qed.

Lemma add_at_ok get set i v s :
  (i < List.length (get s))%nat ->
  add_at get set i v s = (Ok tt, set (bump (get s) i v) s).
Proof.
  intros H. unfold add_at, bind, gets, lift, modify.
  rewrite (idx_nth _ _ H). unfold upd.
  apply Nat.ltb_lt in H. rewrite H. reflexivity.
Qed.

Section Facts.
Variable conv : R -> R.
Variable fsolve : R * R -> strategy (R * R) (R * R).

Local Abbreviation fly_it_of := (fly_it conv fsolve).
Local Abbreviation loop_of := (fly_at_capacity conv fsolve).

(** One flight that [operation] lets through. *)
Lemma fly_it_value s i ac nflight capa n dist fuel time tow ac' :
  fleet_ok s i ac ->
  operation conv fsolve n dist ac = (Ok (fuel, time, tow), ac') ->
  fly_it_of i nflight capa n dist s =
  (Ok tt, booked s i nflight capa n dist fuel time (mpax ac)).
Proof.
  intros (Hac & H1 & H2 & H3 & H4 & H5 & H6 & H7 & H8) Hop.
  assert (E : ac' = ac).
  { pose proof (operation_leaves_state conv fsolve n dist ac) as L.
    rewrite Hop in L. exact L. }
  subst ac'.
  unfold fly_it. unfold bind at 1. unfold aircraft_operation.
  rewrite Hac, Hop. rewrite (set_nth_same _ _ _ Hac).
  replace (set_aircraft (aircraft s) s) with s by (now destruct s).
  unfold bind at 1. rewrite add_at_ok by exact H1.
  unfold bind at 1. rewrite add_at_ok by exact H2.
  unfold bind at 1. rewrite add_at_ok by exact H3.
  unfold bind at 1. rewrite add_at_ok by exact H4.
  unfold bind at 1. rewrite add_at_ok by exact H5.
  unfold bind at 1. rewrite add_at_ok by exact H6.
  unfold bind at 1. rewrite add_at_ok by exact H7.
  unfold bind at 1. unfold gets at 1. unfold bind at 1.
  cbn [aircraft set_fleet_trip set_fleet_npax set_fleet_capa set_fleet_dist
       set_fleet_fuel set_fleet_time set_fleet_paxkm].
  rewrite Hac.
  rewrite add_at_ok by exact H8.
  reflexivity.
Qed.

Lemma booked_ok s i ac nflight capa n dist fuel time mp :
  fleet_ok s i ac -> fleet_ok (booked s i nflight capa n dist fuel time mp) i ac.
Proof.
  intros (Hac & H1 & H2 & H3 & H4 & H5 & H6 & H7 & H8).
  unfold fleet_ok, booked.
  cbn [aircraft fleet_trip fleet_npax fleet_capa fleet_dist fleet_fuel
       fleet_time fleet_paxkm fleet_tonkm].
  rewrite !replace_nth_length. repeat split; assumption.
Qed.

Lemma fly_it_ok s i ac nflight capa n dist fuel time tow ac' :
  fleet_ok s i ac ->
  operation conv fsolve n dist ac = (Ok (fuel, time, tow), ac') ->
  exists s',
    fly_it_of i nflight capa n dist s = (Ok tt, s') /\
    fleet_ok s' i ac /\
    nth i (fleet_trip s') 0 = nth i (fleet_trip s) 0 + nflight /\
    nth i (fleet_npax s') 0 = nth i (fleet_npax s) 0 + n * nflight /\
    nth i (fleet_capa s') 0 = nth i (fleet_capa s) 0 + capa * nflight.
Proof.
  intros Hs Hop. eexists. split; [exact (fly_it_value _ _ _ _ _ _ _ _ _ _ _ Hs Hop)|].
  split; [apply booked_ok; exact Hs|].
  destruct Hs as (Hac & H1 & H2 & H3 & H4 & H5 & H6 & H7 & H8).
  unfold booked. cbn [fleet_trip fleet_npax fleet_capa].
  rewrite !nth_replace_nth by assumption. repeat split.
Qed.

Lemma nth_replace_nth_other l i j v :
  j <> i -> nth j (replace_nth l i v) 0 = nth j l 0.
Proof.
  revert i j. induction l as [|h t IH]; intros [|i] [|j] H; cbn; trivial.
  - contradiction.
  - apply IH. intros E. apply H. now rewrite E.
Qed.

(** X25.  [fly_it] calls [operation] first and books afterwards: when
    [operation] raises, the exception passes on and nothing is booked; when
    it returns, the eight accumulators of the aircraft grow by the trips,
    the passengers, the seats, the distance, the fuel, the time, the
    passenger-kilometres and the tonne-kilometres of [nflight] flights, the
    accumulators of the other aircraft keep their values and the aircraft
    are unchanged. *)
Theorem fly_it_books_after_operation s i ac nflight capa n dist :
  fleet_ok s i ac ->
  match operation conv fsolve n dist ac with
  | (Raise e, _) => fly_it conv fsolve i nflight capa n dist s = (Raise e, s)
  | (Ok (fuel, time, tow), _) =>
      exists s',
        fly_it conv fsolve i nflight capa n dist s = (Ok tt, s') /\
        aircraft s' = aircraft s /\
        nth i (fleet_trip s') 0 = nth i (fleet_trip s) 0 + nflight /\
        nth i (fleet_npax s') 0 = nth i (fleet_npax s) 0 + n * nflight /\
        nth i (fleet_capa s') 0 = nth i (fleet_capa s) 0 + capa * nflight /\
        nth i (fleet_dist s') 0 = nth i (fleet_dist s) 0 + dist * nflight /\
        nth i (fleet_fuel s') 0 = nth i (fleet_fuel s) 0 + fuel * nflight /\
        nth i (fleet_time s') 0 = nth i (fleet_time s) 0 + time * nflight /\
        nth i (fleet_paxkm s') 0 =
          nth i (fleet_paxkm s) 0 + n * (dist * 1e-3) * nflight /\
        nth i (fleet_tonkm s') 0 =
          nth i (fleet_tonkm s) 0
          + (dist * 1e-3) * (n * mpax ac * 1e-3) * nflight /\
        forall j, j <> i ->
          nth j (fleet_trip s') 0 = nth j (fleet_trip s) 0 /\
          nth j (fleet_npax s') 0 = nth j (fleet_npax s) 0 /\
          nth j (fleet_capa s') 0 = nth j (fleet_capa s) 0 /\
          nth j (fleet_dist s') 0 = nth j (fleet_dist s) 0 /\
          nth j (fleet_fuel s') 0 = nth j (fleet_fuel s) 0 /\
          nth j (fleet_time s') 0 = nth j (fleet_time s) 0 /\
          nth j (fleet_paxkm s') 0 = nth j (fleet_paxkm s) 0 /\
          nth j (fleet_tonkm s') 0 = nth j (fleet_tonkm s) 0
  end.
Proof.
  intros Hs.
  destruct (operation conv fsolve n dist ac) as [[[[fuel time] tow]|e] ac'] eqn:Hop.
  - eexists. split; [exact (fly_it_value _ _ _ _ _ _ _ _ _ _ _ Hs Hop)|].
    destruct Hs as (Hac & H1 & H2 & H3 & H4 & H5 & H6 & H7 & H8).
    unfold booked.
    cbn [aircraft fleet_trip fleet_npax fleet_capa fleet_dist fleet_fuel
         fleet_time fleet_paxkm fleet_tonkm].
    rewrite !nth_replace_nth by assumption.
    do 9 (split; [reflexivity|]).
    intros j Hj. rewrite !nth_replace_nth_other by exact Hj. repeat split.
  - assert (E : ac' = ac).
    { pose proof (operation_leaves_state conv fsolve n dist ac) as L.
      rewrite Hop in L. exact L. }
    subst ac'. destruct Hs as (Hac & _).
    unfold fly_it. unfold bind at 1. unfold aircraft_operation.
    rewrite Hac, Hop. rewrite (set_nth_same _ _ _ Hac).
    now destruct s.
Qed.

Section Loop.
Variables (i : nat) (ac ac' : Aircraft) (nflight capa dist fuel_ time tow : R).
Hypothesis Hop : operation conv fsolve capa dist ac = (Ok (fuel_, time, tow), ac').

Lemma loop_ends_within N : forall s npax_ nf,
  0 < capa -> fleet_ok s i ac -> npax_ - INR N * capa <= 0.40 * capa ->
  exists fuel s' r nf',
    loop_of fuel i nflight capa dist npax_ nf s = (Ok (Some (r, nf')), s') /\
    (nf <= nf')%Z /\ r = npax_ - IZR (nf' - nf) * capa /\
    r <= 0.40 * capa /\ (nf' = nf \/ -0.60 * capa < r) /\
    nth i (fleet_trip s') 0 = nth i (fleet_trip s) 0 + IZR (nf' - nf) * nflight /\
    nth i (fleet_npax s') 0 =
      nth i (fleet_npax s) 0 + IZR (nf' - nf) * capa * nflight.
Proof.
  induction N as [|N IH]; intros s npax_ nf Hc Hs HN.
  - exists 1%nat, s, npax_, nf. cbn [fly_at_capacity].
    cbn [INR] in HN.
    destruct (Rgt_dec npax_ (0.40 * capa)) as [G|G]; [lra|].
    rewrite Z.sub_diag.
    repeat split; try lia; try lra; try (now left).
  - destruct (Rgt_dec npax_ (0.40 * capa)) as [G|G] eqn:EG.
    + destruct (fly_it_ok s i ac nflight capa capa dist fuel_ time tow ac' Hs Hop)
        as (s1 & Hf & Hs1 & T1 & P1 & _).
      assert (HN' : npax_ - capa - INR N * capa <= 0.40 * capa).
      { rewrite S_INR in HN. lra. }
      destruct (IH s1 (npax_ - capa) (nf + 1)%Z Hc Hs1 HN')
        as (fuel & s' & r & nf' & Hl & Hnf & Hr & Hle & Hlow & T & P).
      exists (S fuel), s', r, nf'. cbn [fly_at_capacity]. rewrite EG.
      unfold bind at 1. rewrite Hf.
      assert (Ez : IZR (nf' - nf) = IZR (nf' - (nf + 1)) + 1).
      { rewrite <- plus_IZR. f_equal. lia. }
      split; [exact Hl|]. split; [lia|].
      split; [rewrite Hr, Ez; lra|]. split; [exact Hle|].
      split.
      * right. destruct Hlow as [E|L]; [|exact L].
        rewrite Hr, E, Z.sub_diag. lra.
      * split; [rewrite T, T1, Ez; lra|rewrite P, P1, Ez; lra].
    + exists 1%nat, s, npax_, nf. cbn [fly_at_capacity]. rewrite EG.
      rewrite Z.sub_diag.
      repeat split; try lia; try lra; try (now left).
Qed.

Lemma loop_goes_on fuel : forall s npax_ nf,
  capa <= 0 -> 0.40 * capa < npax_ -> fleet_ok s i ac ->
  exists s',
    loop_of fuel i nflight capa dist npax_ nf s = (Ok None, s') /\
    nth i (fleet_trip s') 0 = nth i (fleet_trip s) 0 + INR fuel * nflight.
Proof.
  induction fuel as [|fuel IH]; intros s npax_ nf Hc Hn Hs.
  - exists s. cbn [fly_at_capacity INR]. split; [reflexivity|lra].
  - destruct (fly_it_ok s i ac nflight capa capa dist fuel_ time tow ac' Hs Hop)
      as (s1 & Hf & Hs1 & T1 & _).
    destruct (IH s1 (npax_ - capa) (nf + 1)%Z Hc ltac:(lra) Hs1) as (s' & Hl & T).
    exists s'. cbn [fly_at_capacity].
    destruct (Rgt_dec npax_ (0.40 * capa)) as [_|G]; [|lra].
    unfold bind at 1. rewrite Hf. split; [exact Hl|].
    rewrite T, T1, S_INR. lra.
Qed.

End Loop.

Lemma nat_above x : exists n : nat, x <= INR n.
Proof.
  destruct (archimed x) as [Hu _].
  destruct (Z_le_gt_dec 0 (up x)) as [Hz|Hz].
  - exists (Z.to_nat (up x)). rewrite INR_IZR_INZ, Z2Nat.id by exact Hz. lra.
  - exists 0%nat. cbn [INR].
    assert (IZR (up x) < 0) by (apply IZR_lt; lia). lra.
Qed.

(** X26.  The loop of [fleet_analysis] that serves a demand above the
    capacity by full flights ends when the capacity is positive and
    [operation] returns for a full flight: after [nf] turns the demand left
    is [npax - nf*capa], at most 40 % of the capacity, and, when a flight
    took place, above -60 % of it (the last flight is booked full although
    less demand was left); the trips and the passengers booked for the
    aircraft grow by [nf*nflight] and [nf*capa*nflight]. *)
Theorem fly_at_capacity_terminates
    s i ac ac' nflight capa dist npax_ fuel_ time tow :
  fleet_ok s i ac -> 0 < capa ->
  operation conv fsolve capa dist ac = (Ok (fuel_, time, tow), ac') ->
  exists fuel s' r nf,
    fly_at_capacity conv fsolve fuel i nflight capa dist npax_ 0%Z s = (Ok (Some (r, nf)), s') /\
    (0 <= nf)%Z /\ r = npax_ - IZR nf * capa /\
    r <= 0.40 * capa /\ (nf = 0%Z \/ -0.60 * capa < r) /\
    nth i (fleet_trip s') 0 = nth i (fleet_trip s) 0 + IZR nf * nflight /\
    nth i (fleet_npax s') 0 = nth i (fleet_npax s) 0 + IZR nf * capa * nflight.
Proof.
  intros Hs Hc Hop.
  destruct (nat_above ((npax_ - 0.40 * capa) / capa)) as (N & HN).
  assert (HN' : npax_ - INR N * capa <= 0.40 * capa).
  { apply (Rmult_le_compat_r capa) in HN; [|lra].
    unfold Rdiv in HN. rewrite Rmult_assoc, Rinv_l in HN by lra. lra. }
  destruct (loop_ends_within i ac ac' nflight capa dist fuel_ time tow Hop
              N s npax_ 0%Z Hc Hs HN')
    as (fuel & s' & r & nf & Hl & Hnf & Hr & Hle & Hlow & T & P).
  rewrite Z.sub_0_r in Hr, T, P.
  exists fuel, s', r, nf. repeat split; assumption.
Qed.

(** X27.  When the capacity found for the range is zero (or negative) while
    demand is left and [operation] returns for such a flight, the same loop
    never ends: [npax -= capa] does not lower the demand, so whatever the
    bound on the number of turns, the bound is reached with the loop still
    running, and every turn books another [nflight] trips. *)
Theorem fly_at_capacity_never_ends
    s i ac ac' nflight capa dist npax_ nf fuel_ time tow :
  fleet_ok s i ac -> capa <= 0 -> 0.40 * capa < npax_ ->
  operation conv fsolve capa dist ac = (Ok (fuel_, time, tow), ac') ->
  forall fuel, exists s',
    fly_at_capacity conv fsolve fuel i nflight capa dist npax_ nf s = (Ok None, s') /\
    nth i (fleet_trip s') 0 = nth i (fleet_trip s) 0 + INR fuel * nflight.
Proof.
  intros Hs Hc Hn Hop fuel.
  exact (loop_goes_on i ac ac' nflight capa dist fuel_ time tow Hop
           fuel s npax_ nf Hc Hn Hs).
Qed.

End Facts.

(** After [Fleet.__init__] every aircraft of the list has its entries. *)
Lemma Fleet_init_ok l i ac :
  nth_error l i = Some ac -> fleet_ok (Fleet_init l) i ac.
Proof.
  intros H.
  assert (L : (i < List.length l)%nat) by (apply nth_error_Some; congruence).
  unfold fleet_ok, Fleet_init.
  cbn [aircraft fleet_trip fleet_npax fleet_capa fleet_dist fleet_fuel
       fleet_time fleet_paxkm fleet_tonkm].
  rewrite repeat_length. repeat split; assumption.
Qed.

Lemma fleet_one_ok : fleet_ok fleet_one 0 ac_sized.
Proof. apply Fleet_init_ok. reflexivity. Qed.

Lemma operation_checks_returns n tow fm :
  44060 - (tow - (130 * n + (1 + 0.05) * fm)) = 0 ->
  operation kg_daN_h (fsolve_checks 1e-6 (tow, fm)) n
    (K_150 * ln (tow / (tow - fm))) ac_sized =
  (Ok (fm, 20 * 60 + 231 * (K_150 * ln (tow / (tow - fm))), tow), ac_sized).
Proof.
  intros E. rewrite operation_pure.
  unfold fsolve_checks. cbn [answer].
  rewrite !operation_fct_value, !breguet_sized_value.
  cbn [owe ac_sized fst snd mpax kr answer].
  rewrite E.
  replace (K_150 * ln (tow / (tow - fm)) - K_150 * ln (tow / (tow - fm)))
    with 0 by lra.
  rewrite Rabs_R0.
  destruct (Rlt_dec 0 1e-6) as [_|N]; [|lra].
  cbn [answer Z.eqb Pos.eqb negb cruise_speed ac_sized fst snd]. reflexivity.
Qed.

Lemma fly_it_books_after_operation_witness :
  match operation kg_daN_h fsolve_gives_up 100 1000000 ac_sized with
  | (Raise e, _) =>
      fly_it kg_daN_h fsolve_gives_up 0 2 150 100 1000000 fleet_one
      = (Raise e, fleet_one)
  | (Ok (fuel, time, tow), _) =>
      exists s',
        fly_it kg_daN_h fsolve_gives_up 0 2 150 100 1000000 fleet_one
          = (Ok tt, s') /\
        aircraft s' = aircraft fleet_one /\
        nth 0 (fleet_trip s') 0 = nth 0 (fleet_trip fleet_one) 0 + 2 /\
        nth 0 (fleet_npax s') 0 = nth 0 (fleet_npax fleet_one) 0 + 100 * 2 /\
        nth 0 (fleet_capa s') 0 = nth 0 (fleet_capa fleet_one) 0 + 150 * 2 /\
        nth 0 (fleet_dist s') 0 = nth 0 (fleet_dist fleet_one) 0 + 1000000 * 2 /\
        nth 0 (fleet_fuel s') 0 = nth 0 (fleet_fuel fleet_one) 0 + fuel * 2 /\
        nth 0 (fleet_time s') 0 = nth 0 (fleet_time fleet_one) 0 + time * 2 /\
        nth 0 (fleet_paxkm s') 0 =
          nth 0 (fleet_paxkm fleet_one) 0 + 100 * (1000000 * 1e-3) * 2 /\
        nth 0 (fleet_tonkm s') 0 =
          nth 0 (fleet_tonkm fleet_one) 0
          + (1000000 * 1e-3) * (100 * mpax ac_sized * 1e-3) * 2 /\
        forall j, j <> 0%nat ->
          nth j (fleet_trip s') 0 = nth j (fleet_trip fleet_one) 0 /\
          nth j (fleet_npax s') 0 = nth j (fleet_npax fleet_one) 0 /\
          nth j (fleet_capa s') 0 = nth j (fleet_capa fleet_one) 0 /\
          nth j (fleet_dist s') 0 = nth j (fleet_dist fleet_one) 0 /\
          nth j (fleet_fuel s') 0 = nth j (fleet_fuel fleet_one) 0 /\
          nth j (fleet_time s') 0 = nth j (fleet_time fleet_one) 0 /\
          nth j (fleet_paxkm s') 0 = nth j (fleet_paxkm fleet_one) 0 /\
          nth j (fleet_tonkm s') 0 = nth j (fleet_tonkm fleet_one) 0
  end.
Proof.
  apply (fly_it_books_after_operation kg_daN_h fsolve_gives_up fleet_one 0
           ac_sized 2 150 100 1000000).
  exact fleet_one_ok.
Defined.

Lemma fly_at_capacity_terminates_witness :
  exists fuel s' r nf,
    fly_at_capacity kg_daN_h (fsolve_checks 1e-6 (77000, 12800)) fuel 0 2 150
      range_sized 400 0%Z fleet_one = (Ok (Some (r, nf)), s') /\
    (0 <= nf)%Z /\ r = 400 - IZR nf * 150 /\
    r <= 0.40 * 150 /\ (nf = 0%Z \/ -0.60 * 150 < r) /\
    nth 0 (fleet_trip s') 0 = nth 0 (fleet_trip fleet_one) 0 + IZR nf * 2 /\
    nth 0 (fleet_npax s') 0 = nth 0 (fleet_npax fleet_one) 0 + IZR nf * 150 * 2.
Proof.
  apply (fly_at_capacity_terminates kg_daN_h (fsolve_checks 1e-6 (77000, 12800))
           fleet_one 0 ac_sized ac_sized 2 150 range_sized 400
           12800 (20 * 60 + 231 * range_sized) 77000).
  - exact fleet_one_ok.
  - lra.
  - apply (operation_checks_returns 150 77000 12800). lra.
Defined.

Lemma fly_at_capacity_never_ends_witness :
  exists s',
    fly_at_capacity kg_daN_h (fsolve_checks 1e-6 (54560, 10000)) 1000 0 2 0
      range_empty 30 0%Z fleet_one = (Ok None, s') /\
    nth 0 (fleet_trip s') 0 = nth 0 (fleet_trip fleet_one) 0 + INR 1000 * 2.
Proof.
  refine (fly_at_capacity_never_ends kg_daN_h (fsolve_checks 1e-6 (54560, 10000))
           fleet_one 0 ac_sized ac_sized 2 0 range_empty 30 0%Z
           10000 (20 * 60 + 231 * range_empty) 54560 _ _ _ _ 1000%nat).
  - exact fleet_one_ok.
  - lra.
  - lra.
  - apply (operation_checks_returns 0 54560 10000). lra.
Defined.

End FleetFacts.

